(** * CanStack: the stack layout generator

    A shallow embedding of [source/lib/canstackgenerator.h] and
    [source/lib/canstackgenerator.cpp]: the parameter struct and its
    comparison operator, the triangular grid of item matrices, the
    reproducible per-item placement and the assembly of the output nodes.

    Conventions of the embedding.
    - [Int32] values are integers of [Z]; arithmetic on them wraps at 32 bits.
    - [Float] is IEEE-754 binary64, given by the standard library's
      [spec_float] with round-to-nearest-even, so that infinities, NaN and
      signed zeros behave as they do in the compiled program.
    - What the Cinema 4D SDK provides (the random number generator, rotation
      and matrix algebra, the spline services) is gathered in the class [Sdk].
    - The order of evaluation of the arguments of a call, which C++ leaves
      open, is a member of that class too; what is proved holds for both
      orders.
    - Member functions take the generator as an argument and return the
      modified generator next to their result.
    - Memory exhaustion is outside the model: an allocation of a non-negative
      number of elements succeeds.

    The file has the embedding first, with an instance of the SDK services
    to compute with, and the properties after it.  A later part relates
    the binary64 operations to rational arithmetic, to bound the fraction
    of the way along a path spline at which an item is placed.

    The object plugin of [source/object/ostack.cpp] that drives the
    generator is embedded as well: the attributes of the object, the
    validation of its description and [GetVirtualObjects].  The last part
    of the file has what holds of every call of the functions beyond the
    properties of the first parts. *)

From Stdlib Require Import ZArith QArith Qpower List Bool Lia Lqa.
From Stdlib Require Import Floats.SpecFloat.
Import ListNotations.
Local Open Scope Z_scope.

(* ================================================================= *)
(** * Machine numbers *)

Module Int32.

Definition min_signed : Z := - 2 ^ 31.
Definition max_signed : Z := 2 ^ 31 - 1.

Definition in_range (z : Z) : Prop := min_signed <= z <= max_signed.

(** Two's complement wrap-around of a mathematical integer. *)
Definition wrap (z : Z) : Z := (z + 2 ^ 31) mod 2 ^ 32 - 2 ^ 31.

Definition sub (a b : Z) : Z := wrap (a - b).
Definition succ (a : Z) : Z := wrap (a + 1).

(** [Min(a, b)] of the SDK: [(a < b) ? a : b]. *)
Definition Min (a b : Z) : Z := if a <? b then a else b.

End Int32.

Module UInt32.

Definition in_range (z : Z) : Prop := 0 <= z < 2 ^ 32.

End UInt32.

Module Float.

Definition prec : Z := 53.
Definition emax : Z := 1024.

Definition t : Type := spec_float.

Definition add : t -> t -> t := SFadd prec emax.
Definition mul : t -> t -> t := SFmul prec emax.
Definition div : t -> t -> t := SFdiv prec emax.

(** The comparison operators of C++ on [double]. *)
Definition eqb : t -> t -> bool := SFeqb.
Definition leb : t -> t -> bool := SFleb.

(** Conversion [(Float)n] of an integer; exact for every 32-bit value. *)
Definition of_int (n : Z) : t := binary_normalize prec emax n 0 false.

Definition zero : t := S754_zero false.
Definition one : t := Eval vm_compute in of_int 1.
(** The literal [0.5]. *)
Definition half : t := S754_finite false 4503599627370496 (-53).

Definition is_finite (x : t) : bool :=
  match x with
  | S754_zero _ | S754_finite _ _ _ => true
  | S754_infinity _ | S754_nan => false
  end.

Definition is_zero (x : t) : bool :=
  match x with
  | S754_zero _ => true
  | _ => false
  end.

(** Two floats denote the same value: they are identical, or both are a
    zero (of either sign). *)
Definition same_value (a b : t) : Prop :=
  a = b \/ (is_zero a = true /\ is_zero b = true).

End Float.

Definition Float : Type := Float.t.

(* ================================================================= *)
(** * Vectors and matrices *)

Record Vector : Type := mkVector { x : Float; y : Float; z : Float }.

(** A matrix holds an offset and three axes. *)
Record Matrix : Type :=
  mkMatrix { off : Vector; v1 : Vector; v2 : Vector; v3 : Vector }.

Definition Vector_zero : Vector := mkVector Float.zero Float.zero Float.zero.

(** The default constructed [Matrix] is the unit matrix. *)
Definition Matrix_default : Matrix :=
  mkMatrix Vector_zero
           (mkVector Float.one Float.zero Float.zero)
           (mkVector Float.zero Float.one Float.zero)
           (mkVector Float.zero Float.zero Float.one).

(** [v + w] and [v * s] work on the components. *)
Definition Vector_add (v w : Vector) : Vector :=
  mkVector (Float.add (x v) (x w)) (Float.add (y v) (y w)) (Float.add (z v) (z w)).

Definition Vector_scale (v : Vector) (s : Float) : Vector :=
  mkVector (Float.mul (x v) s) (Float.mul (y v) s) (Float.mul (z v) s).

Definition set_off (m : Matrix) (o : Vector) : Matrix :=
  mkMatrix o (v1 m) (v2 m) (v3 m).

Definition set_y (v : Vector) (f : Float) : Vector := mkVector (x v) f (z v).

(* ================================================================= *)
(** * The services of the SDK, and what the compiler decides *)

(** A [SplineObject *] that is not null. *)
Definition SplinePtr : Type := positive.

Class Sdk : Type := {
  (** [Random]: [Init(seed)] sets the state from the seed alone, [Get11()]
      draws a value and advances the state. *)
  Random : Type;
  Random_default : Random;
  Random_Init : Z -> Random;
  Random_Get11 : Random -> Float * Random;
  (** [HPBToMatrix(v, ROTATIONORDER_HPB)]. *)
  HPBToMatrix : Vector -> Matrix;
  (** [Cross(v, w)], the product [m1 * m2] and the inverse [~m]. *)
  Cross : Vector -> Vector -> Vector;
  Matrix_mul : Matrix -> Matrix -> Matrix;
  Matrix_inv : Matrix -> Matrix;
  (** The spline: [GetMg()], [GetSplinePoint(t)], [GetSplineTangent(t)]. *)
  GetMg : SplinePtr -> Matrix;
  GetSplinePoint : SplinePtr -> Float -> Vector;
  GetSplineTangent : SplinePtr -> Float -> Vector;
  (** [SplineLengthData]: [Alloc()] gives a new object, [Init(spline)]
      builds its length table and tells whether that succeeded,
      [UniformToNatural(u)] reads the table. *)
  SplineLengthData : Type;
  SplineLengthData_Alloc : SplineLengthData;
  SplineLengthData_Init : SplineLengthData -> SplinePtr -> bool * SplineLengthData;
  UniformToNatural : SplineLengthData -> Float -> Float;
  (** The object type of instance objects. *)
  Oinstance : Z;
  (** C++ leaves the order in which the arguments of a call are evaluated
      to the compiler.  [GenerateStack] has one call whose arguments draw
      twice, the [Vector] constructor of the straight stack: [true] says
      that the compiled program evaluates its arguments from left to
      right, [false] from right to left. *)
  Vector_args_left_to_right : bool
}.

(* ================================================================= *)
(** * maxon::BaseArray *)

Module BaseArray.

(** [Resize(newCnt)]: the array gets exactly [newCnt] elements, the leading
    ones kept, the new ones default constructed.  A negative count is
    refused and leaves the array as it is. *)
Definition Resize {T : Type} (dflt : T) (newCnt : Z) (a : list T)
  : bool * list T :=
  if newCnt <? 0 then (false, a)
  else (true, firstn (Z.to_nat newCnt) a
              ++ repeat dflt (Z.to_nat newCnt - length a)).

Definition GetCount {T : Type} (a : list T) : Z := Z.of_nat (length a).

End BaseArray.

Abbreviation MatrixArray := (list Matrix).
Abbreviation StackRowArray := (list (list Matrix)).

(* ================================================================= *)
(** * StackParameters *)

(** Modelled from the spec: the members [_randomOffX] and [_randomOffZ]
    (the random offsets across and along the stack), which
    [canstackgenerator.cpp] reads and the header does not declare.  The
    other members are those of the header. *)
Record StackParameters : Type := mkStackParameters {
  _baseCount : Z;
  _baseLength : Float;
  _rowCount : Z;
  _rowHeight : Float;
  _randomSeed : Z;
  _randomPos : Float;
  _randomRot : Float;
  _randomOffX : Float;
  _randomOffZ : Float;
  _basePath : option SplinePtr
}.

(** The default constructor. *)
Definition StackParameters_default : StackParameters :=
  mkStackParameters 0 Float.zero 0 Float.zero 0
                    Float.zero Float.zero Float.zero Float.zero None.

(** [operator ==] as the header writes it. *)
Definition StackParameters_eqb (x1 x2 : StackParameters) : bool :=
  (_baseCount x1 =? _baseCount x2)
  && Float.eqb (_baseLength x1) (_baseLength x2)
  && (_rowCount x1 =? _rowCount x2)
  && Float.eqb (_rowHeight x1) (_rowHeight x2)
  && (_randomSeed x1 =? _randomSeed x2)
  && Float.eqb (_randomPos x1) (_randomPos x2)
  && Float.eqb (_randomRot x1) (_randomRot x2).

(** The members have the ranges of their C++ types, and the row count is
    not negative. *)
Definition params_typed (p : StackParameters) : Prop :=
  Int32.in_range (_baseCount p) /\ Int32.in_range (_rowCount p)
  /\ UInt32.in_range (_randomSeed p) /\ 0 <= _rowCount p.

(* ================================================================= *)
(** * CanStackGenerator *)

Section Generator.

Context {sdk : Sdk}.

(** The members of the class.  [_splineLengthData] is null until the first
    use of a path spline. *)
Record CanStackGenerator : Type := mkGenerator {
  _splineLengthData : option SplineLengthData;
  _array : StackRowArray;
  _params : StackParameters;
  _random : Random;
  _initialized : bool
}.

Definition set_splineLengthData (g : CanStackGenerator) (d : option SplineLengthData) :=
  mkGenerator d (_array g) (_params g) (_random g) (_initialized g).
Definition set_array (g : CanStackGenerator) (a : StackRowArray) :=
  mkGenerator (_splineLengthData g) a (_params g) (_random g) (_initialized g).
Definition set_params (g : CanStackGenerator) (p : StackParameters) :=
  mkGenerator (_splineLengthData g) (_array g) p (_random g) (_initialized g).
Definition set_random (g : CanStackGenerator) (r : Random) :=
  mkGenerator (_splineLengthData g) (_array g) (_params g) r (_initialized g).
Definition set_initialized (g : CanStackGenerator) (b : bool) :=
  mkGenerator (_splineLengthData g) (_array g) (_params g) (_random g) b.

(** The generator as [StackObject] holds it before the first call: the
    object is allocated cleared. *)
Definition Generator_new : CanStackGenerator :=
  mkGenerator None [] StackParameters_default Random_default false.

(** ** ResizeStack *)

(** The loop over the rows: it runs while there is a row left and
    [rowIndex < rowCount]; each row is resized to
    [_params._baseCount - rowIndex]. *)
Fixpoint resize_rows (paramsBaseCount rowCount : Z) (rows : StackRowArray)
                     (rowIndex : Z) : bool * StackRowArray :=
  match rows with
  | [] => (true, [])
  | row :: rest =>
      if rowIndex <? rowCount then
        let (ok, row') :=
          BaseArray.Resize Matrix_default (Int32.sub paramsBaseCount rowIndex) row in
        if negb ok then (false, row' :: rest)
        else
          let (ok', rest') :=
            resize_rows paramsBaseCount rowCount rest (Int32.succ rowIndex) in
          (ok', row' :: rest')
      else (true, rows)
  end.

Definition ResizeStack (baseCount rowCount : Z) (g : CanStackGenerator)
  : bool * CanStackGenerator :=
  let (ok, a) := BaseArray.Resize [] (Int32.Min baseCount rowCount) (_array g) in
  if negb ok then (false, set_array g a)
  else
    let (ok', a') := resize_rows (_baseCount (_params g)) rowCount a 0 in
    (ok', set_array g a').

(** ** InitStack *)

Definition InitStack (params : StackParameters) (g : CanStackGenerator)
  : bool * CanStackGenerator :=
  (* the random number generator is always initialised *)
  let g := set_random g (Random_Init (_randomSeed params)) in
  (* same parameters as before: nothing else is done *)
  if StackParameters_eqb params (_params g) then (true, g)
  else
    (* default member values *)
    let g := set_initialized (set_params g StackParameters_default) false in
    if _baseCount params <? 1 then (false, g)
    else
      let g := set_params g params in
      let (ok, g) := ResizeStack (_baseCount (_params g)) (_rowCount (_params g)) g in
      if negb ok then (false, g)
      else (true, set_initialized g true).

(** ** GenerateStack *)

(** What the prologue of [GenerateStack] fixes for all items: in a straight
    stack the distance between two items, on a path spline the spline, its
    global matrix, the initialised length data and the relative distance. *)
Inductive Placement : Type :=
| Straight (distance : Float)
| OnSpline (basePath : SplinePtr) (splineMg : Matrix)
           (lengthData : SplineLengthData) (relDistance : Float).

(** The fraction handed to [UniformToNatural] for an item. *)
Definition spline_fraction (relDistance : Float) (rowIndex itemIndex : Z) : Float :=
  Float.add (Float.mul relDistance (Float.of_int itemIndex))
            (Float.mul (Float.mul relDistance Float.half) (Float.of_int rowIndex)).

(** The body of the inner loop.  The rotation is drawn first, in a
    statement of its own.  On a path spline the two offsets are drawn in
    two statements, x before z.  In a straight stack they are drawn by two
    arguments of one [Vector] constructor call: evaluated from left to
    right the earlier draw goes to x and the later to z, from right to
    left the earlier goes to z and the later to x. *)
Definition generate_item (p : StackParameters) (pl : Placement)
                         (rowIndex itemIndex : Z) (rnd : Random)
  : Matrix * Random :=
  let (r0, rnd) := Random_Get11 rnd in
  let rotMatrix :=
    HPBToMatrix (mkVector (Float.mul r0 (_randomRot p)) Float.zero Float.zero) in
  let mg := rotMatrix in
  match pl with
  | OnSpline basePath splineMg lengthData relDistance =>
      let relOffset :=
        UniformToNatural lengthData (spline_fraction relDistance rowIndex itemIndex) in
      let splinePosition := GetSplinePoint basePath relOffset in
      let splineTangent := GetSplineTangent basePath relOffset in
      let splineCrossTangent :=
        Cross splineTangent (mkVector Float.zero Float.one Float.zero) in
      let o := splinePosition in
      let o := set_y o (Float.add (y o)
                          (Float.mul (_rowHeight p) (Float.of_int rowIndex))) in
      let (r1, rnd) := Random_Get11 rnd in
      let o := Vector_add o (Vector_scale (Vector_scale splineCrossTangent r1)
                                          (_randomOffX p)) in
      let (r2, rnd) := Random_Get11 rnd in
      let o := Vector_add o (Vector_scale (Vector_scale splineTangent r2)
                                          (_randomOffZ p)) in
      (Matrix_mul splineMg (set_off mg o), rnd)
  | Straight distance =>
      let (earlier, rnd) := Random_Get11 rnd in
      let (later, rnd) := Random_Get11 rnd in
      let r1 := if Vector_args_left_to_right then earlier else later in
      let r2 := if Vector_args_left_to_right then later else earlier in
      let o :=
        mkVector
          (Float.mul r1 (_randomOffX p))
          (Float.mul (_rowHeight p) (Float.of_int rowIndex))
          (Float.add
             (Float.add (Float.mul distance (Float.of_int itemIndex))
                        (Float.mul (Float.mul distance (Float.of_int rowIndex))
                                   Float.half))
             (Float.mul r2 (_randomOffZ p))) in
      (set_off mg o, rnd)
  end.

(** The inner loop, over the items of a row. *)
Fixpoint generate_items (p : StackParameters) (pl : Placement) (rowIndex : Z)
                        (row : MatrixArray) (itemIndex : Z) (rnd : Random)
  : MatrixArray * Random :=
  match row with
  | [] => ([], rnd)
  | _ :: rest =>
      let (mg, rnd) := generate_item p pl rowIndex itemIndex rnd in
      let (rest', rnd) :=
        generate_items p pl rowIndex rest (Int32.succ itemIndex) rnd in
      (mg :: rest', rnd)
  end.

(** The outer loop, over the rows. *)
Fixpoint generate_rows (p : StackParameters) (pl : Placement)
                       (rows : StackRowArray) (rowIndex : Z) (rnd : Random)
  : StackRowArray * Random :=
  match rows with
  | [] => ([], rnd)
  | row :: rest =>
      let (row', rnd) := generate_items p pl rowIndex row 0 rnd in
      let (rest', rnd) := generate_rows p pl rest (Int32.succ rowIndex) rnd in
      (row' :: rest', rnd)
  end.

Definition run_loops (pl : Placement) (g : CanStackGenerator)
  : bool * CanStackGenerator :=
  let (a, rnd) := generate_rows (_params g) pl (_array g) 0 (_random g) in
  (true, set_random (set_array g a) rnd).

(** The prologue: the values the loops work with, or a failure. *)
Definition prepare (g : CanStackGenerator) : option Placement * CanStackGenerator :=
  match _basePath (_params g) with
  | Some basePath =>
      let splineMg := GetMg basePath in
      (* allocate the length data on first use *)
      let lengthData :=
        match _splineLengthData g with
        | Some d => d
        | None => SplineLengthData_Alloc
        end in
      let (ok, lengthData) := SplineLengthData_Init lengthData basePath in
      let g := set_splineLengthData g (Some lengthData) in
      if negb ok then (None, g)
      else
        let relDistance :=
          Float.div Float.one
                    (Float.of_int (Int32.sub (_baseCount (_params g)) 1)) in
        (Some (OnSpline basePath splineMg lengthData relDistance), g)
  | None =>
      let distance :=
        Float.div (_baseLength (_params g))
                  (Float.of_int (_baseCount (_params g))) in
      (Some (Straight distance), g)
  end.

Definition GenerateStack (g : CanStackGenerator) : bool * CanStackGenerator :=
  if negb (_initialized g) then (false, g)
  else
    let (pl, g) := prepare g in
    match pl with
    | None => (false, g)
    | Some pl => run_loops pl g
    end.

End Generator.

(* ================================================================= *)
(** * BuildStackGeometry *)

(** The address of a [BaseObject]. *)
Definition ObjPtr : Type := nat.

(** What the function reads of the object it is given: its type, and for
    an instance object the render instance flag and the linked object. *)
Record BaseObject : Type := mkBaseObject {
  obj_ptr : ObjPtr;
  obj_type : Z;
  obj_renderinstance : bool;
  obj_link : option ObjPtr
}.

(** How a new item comes into being: as a clone of [objectToClone], or as
    an instance object whose link is set to [firstItem] and whose render
    instance flag is set. *)
Inductive ItemKind : Type :=
| IsClone (objectToClone : ObjPtr)
| IsRenderInstance (link : option ObjPtr).

(** A created item with the matrix it was given.  The matrix is set before
    the item is inserted under the parent, so [SetMg] and [SetMl] both fix
    the matrix the item has under the parent. *)
Record NewItem : Type := mkNewItem {
  item_ptr : ObjPtr;
  item_kind : ItemKind;
  item_ml : Matrix
}.

(** The parent Null with its children, first to last. *)
Record ResultParent : Type := mkResultParent {
  parent_ptr : ObjPtr;
  children : list NewItem
}.

(** The locals of the loops; [next_ptr] is the address the next object
    is created at. *)
Record BuildState : Type := mkBuildState {
  newItemCount : Z;
  firstItem : option ObjPtr;
  next_ptr : ObjPtr;
  inserted : list NewItem
}.

Section Assembly.

Context {sdk : Sdk}.

(** The body of the inner loop. *)
Definition build_item (p : StackParameters) (objectToClone : ObjPtr)
                      (invertedMg : Matrix) (useRenderInstances : bool)
                      (st : BuildState) (mg : Matrix) : BuildState :=
  let newItem := next_ptr st in
  let (kind, first) :=
    if useRenderInstances && (0 <? newItemCount st)
    then (IsRenderInstance (firstItem st), firstItem st)
    else (IsClone objectToClone, Some newItem) in
  let ml :=
    match _basePath p with
    | Some _ => Matrix_mul invertedMg mg
    | None => mg
    end in
  mkBuildState (Int32.succ (newItemCount st)) first (S newItem)
               (inserted st ++ [mkNewItem newItem kind ml]).

Definition build_row (p : StackParameters) (objectToClone : ObjPtr)
                     (invertedMg : Matrix) (useRenderInstances : bool)
                     (st : BuildState) (row : MatrixArray) : BuildState :=
  fold_left (build_item p objectToClone invertedMg useRenderInstances) row st.

Definition build_rows (p : StackParameters) (objectToClone : ObjPtr)
                      (invertedMg : Matrix) (useRenderInstances : bool)
                      (st : BuildState) (rows : StackRowArray) : BuildState :=
  fold_left (build_row p objectToClone invertedMg useRenderInstances) rows st.

(** The object to clone: the original object, or the object an instance
    object with the render instance flag links to; [None] is [nullptr]. *)
Definition objectToClone_of (originalObject : BaseObject) : option ObjPtr :=
  if (obj_type originalObject =? Oinstance) && obj_renderinstance originalObject
  then obj_link originalObject
  else Some (obj_ptr originalObject).

(** The matrix a new item is given for the matrix [mg'] of the grid, [mg]
    being the global matrix of the generator. *)
Definition item_matrix (p : StackParameters) (mg mg' : Matrix) : Matrix :=
  match _basePath p with
  | Some _ => Matrix_mul (Matrix_inv mg) mg'
  | None => mg'
  end.

(** [heap] is the first free address; [None] stands for [nullptr]. *)
Definition BuildStackGeometry (g : CanStackGenerator) (heap : ObjPtr)
                              (originalObject : BaseObject) (mg : Matrix)
                              (useRenderInstances : bool)
  : option ResultParent :=
  let resultParent := heap in
  match objectToClone_of originalObject with
  | None => None
  | Some objectToClone =>
      let invertedMg := Matrix_inv mg in
      let st :=
        build_rows (_params g) objectToClone invertedMg useRenderInstances
                   (mkBuildState 0 None (S heap) []) (_array g) in
      Some (mkResultParent resultParent (inserted st))
  end.

End Assembly.

(** The number of full duplicates and of instances among created items. *)
Definition is_clone (it : NewItem) : bool :=
  match item_kind it with IsClone _ => true | IsRenderInstance _ => false end.

Definition is_instance (it : NewItem) : bool :=
  match item_kind it with IsClone _ => false | IsRenderInstance _ => true end.

Definition count_clones (l : list NewItem) : nat := length (filter is_clone l).
Definition count_instances (l : list NewItem) : nat := length (filter is_instance l).

(** The items of a layout, row after row. *)
Definition layout_items (a : StackRowArray) : list Matrix := concat a.

(* ================================================================= *)
(** * Shapes, reachable generators and the order of the draws *)

Definition row_sizes (a : StackRowArray) : list Z := map BaseArray.GetCount a.

Definition total_items (a : StackRowArray) : Z := BaseArray.GetCount (layout_items a).

(** The sizes of [n] rows that start at [b] and go down by one. *)
Fixpoint triangle (b : Z) (n : nat) : list Z :=
  match n with
  | O => []
  | S n' => b :: triangle (b - 1) n'
  end.

Definition stack_shape (p : StackParameters) : list Z :=
  triangle (_baseCount p) (Z.to_nat (Z.min (_baseCount p) (_rowCount p))).

(** The item of row [r], place [i]. *)
Definition cell (a : StackRowArray) (r i : nat) : option Matrix :=
  match nth_error a r with
  | Some row => nth_error row i
  | None => None
  end.

(** The number of items that precede place [i] of row [r], row after row. *)
Definition items_before (a : StackRowArray) (r i : nat) : nat :=
  (length (concat (firstn r a)) + i)%nat.

Section Reach.

Context {sdk : Sdk}.

(** The generators that calls of the public functions lead to. *)
Inductive Reachable : CanStackGenerator -> Prop :=
| reach_new : Reachable Generator_new
| reach_InitStack : forall params g,
    Reachable g -> params_typed params -> Reachable (snd (InitStack params g))
| reach_GenerateStack : forall g,
    Reachable g -> Reachable (snd (GenerateStack g)).

(** What holds of every reachable generator: the flag is set exactly when
    the stored parameters are usable, and then the grid has their shape. *)
Definition Generator_inv (g : CanStackGenerator) : Prop :=
  params_typed (_params g)
  /\ (_initialized g = true ->
      1 <= _baseCount (_params g) /\ 0 <= _rowCount (_params g))
  /\ (1 <= _baseCount (_params g) -> 0 <= _rowCount (_params g) ->
      _initialized g = true /\ row_sizes (_array g) = stack_shape (_params g)).

(** The stored parameters are [params] itself, or parameters that
    [operator ==] tells apart from [params]. *)
Definition stored_fits (params : StackParameters) (g : CanStackGenerator) : Prop :=
  StackParameters_eqb params (_params g) = false \/ _params g = params.

(** [InitStack] followed by [GenerateStack], as the object plugin calls them. *)
Definition configure_generate (params : StackParameters) (g : CanStackGenerator)
  : bool * CanStackGenerator :=
  let (ok, g) := InitStack params g in
  if negb ok then (false, g) else GenerateStack g.

(** The random number generator after [n] draws. *)
Fixpoint draws (n : nat) (rnd : Random) : Random :=
  match n with
  | O => rnd
  | S n' => draws n' (snd (Random_Get11 rnd))
  end.

(** The placement the prologue arrives at for [p], when the length data
    is built from the spline alone. *)
Definition placement_for (p : StackParameters) : option Placement :=
  match _basePath p with
  | Some basePath =>
      let (ok, lengthData) := SplineLengthData_Init SplineLengthData_Alloc basePath in
      if ok
      then Some (OnSpline basePath (GetMg basePath) lengthData
                   (Float.div Float.one (Float.of_int (_baseCount p - 1))))
      else None
  | None =>
      Some (Straight (Float.div (_baseLength p) (Float.of_int (_baseCount p))))
  end.

(** [Get11] yields values between -1 and 1. *)
Definition Get11_in_range : Prop :=
  forall rnd,
    Float.leb (Float.of_int (-1)) (fst (Random_Get11 rnd)) = true
    /\ Float.leb (fst (Random_Get11 rnd)) Float.one = true.

(** [SplineLengthData::Init] builds the table anew: what the object held
    before plays no part. *)
Definition Init_rebuilds : Prop :=
  forall d d' basePath,
    SplineLengthData_Init d basePath = SplineLengthData_Init d' basePath.

End Reach.

(* ================================================================= *)
(** * An instance of the SDK services to compute with *)

Module Example.

(** Draws cycle through -1, 0 and 1; the state is a 32-bit counter. *)
Definition Get11 (s : Z) : Float * Z :=
  (if s mod 3 =? 0 then Float.of_int (-1)
   else if s mod 3 =? 1 then Float.zero
   else Float.one,
   (s * 1664525 + 1013904223) mod 2 ^ 32).

Definition cross (a b : Vector) : Vector :=
  mkVector
    (Float.add (Float.mul (y a) (z b)) (SFopp (Float.mul (z a) (y b))))
    (Float.add (Float.mul (z a) (x b)) (SFopp (Float.mul (x a) (z b))))
    (Float.add (Float.mul (x a) (y b)) (SFopp (Float.mul (y a) (x b)))).

(** Affine combination of the axes of [m]. *)
Definition transform (m : Matrix) (v : Vector) : Vector :=
  Vector_add (Vector_add (Vector_scale (v1 m) (x v)) (Vector_scale (v2 m) (y v)))
             (Vector_scale (v3 m) (z v)).

Definition mul (m1 m2 : Matrix) : Matrix :=
  mkMatrix (Vector_add (off m1) (transform m1 (off m2)))
           (transform m1 (v1 m2)) (transform m1 (v2 m2)) (transform m1 (v3 m2)).

(** Inverse of a translation. *)
Definition inv (m : Matrix) : Matrix :=
  mkMatrix (mkVector (SFopp (x (off m))) (SFopp (y (off m))) (SFopp (z (off m))))
           (v1 m) (v2 m) (v3 m).

(** A heading [h] is kept in the x axis of the matrix. *)
Definition hpb (v : Vector) : Matrix :=
  mkMatrix Vector_zero (mkVector Float.one Float.zero (x v))
           (mkVector Float.zero Float.one Float.zero)
           (mkVector Float.zero Float.zero Float.one).

(** A spline that runs along the z axis. *)
Definition point (_ : SplinePtr) (t : Float) : Vector :=
  mkVector Float.zero Float.zero t.

Definition tangent (_ : SplinePtr) (_ : Float) : Vector :=
  mkVector Float.zero Float.zero Float.one.

#[global] Instance sdk : Sdk := {|
  Random := Z;
  Random_default := 0;
  Random_Init := fun seed => seed;
  Random_Get11 := Get11;
  HPBToMatrix := hpb;
  Cross := cross;
  Matrix_mul := mul;
  Matrix_inv := inv;
  GetMg := fun _ => Matrix_default;
  GetSplinePoint := point;
  GetSplineTangent := tangent;
  SplineLengthData := unit;
  SplineLengthData_Alloc := tt;
  SplineLengthData_Init := fun _ _ => (true, tt);
  UniformToNatural := fun _ u => u;
  Oinstance := 5126;
  Vector_args_left_to_right := true
|}.

(** Three items in the base row, three rows, length 30, height 10, no
    randomness, no path spline. *)
Definition params_3_3 : StackParameters :=
  mkStackParameters 3 (Float.of_int 30) 3 (Float.of_int 10) 12345
                    Float.zero Float.zero Float.zero Float.zero None.

(** The same stack on path spline 1. *)
Definition params_3_3_path : StackParameters :=
  mkStackParameters 3 (Float.of_int 30) 3 (Float.of_int 10) 12345
                    Float.zero Float.zero Float.zero Float.zero (Some 1%positive).

(** A single item on path spline 1. *)
Definition params_1_path : StackParameters :=
  mkStackParameters 1 (Float.of_int 30) 1 (Float.of_int 10) 12345
                    Float.zero Float.zero Float.zero Float.zero (Some 1%positive).

(** Parameters that [InitStack] refuses. *)
Definition params_0 : StackParameters :=
  mkStackParameters 0 (Float.of_int 30) 3 (Float.of_int 10) 12345
                    Float.zero Float.zero Float.zero Float.zero None.

Definition configured : CanStackGenerator :=
  snd (InitStack params_3_3 Generator_new).

Definition generated : CanStackGenerator :=
  snd (configure_generate params_3_3 Generator_new).

(** The stack on path spline 1, configured, generated and assembled. *)
Definition configured_path : CanStackGenerator :=
  snd (InitStack params_3_3_path Generator_new).

Definition generated_path : CanStackGenerator :=
  snd (configure_generate params_3_3_path Generator_new).

Definition assembled_path : ResultParent :=
  mkResultParent 100%nat
    (inserted (build_rows (_params generated_path) 7%nat
                 (Matrix_inv Matrix_default) true
                 (mkBuildState 0 None 101%nat [])
                 (_array generated_path))).

(** A straight stack of two rows on a base of five, generated. *)
Definition params_5_2 : StackParameters :=
  mkStackParameters 5 (Float.of_int 50) 2 (Float.of_int 10) 12345
                    Float.zero Float.zero Float.zero Float.zero None.

Definition generated_5_2 : CanStackGenerator :=
  snd (configure_generate params_5_2 Generator_new).

(** The item of row 1, place 1 of the straight stack. *)
Definition item_1_1 : Matrix :=
  Eval vm_compute in
    match cell (_array generated) 1 1 with
    | Some m => m
    | None => Matrix_default
    end.

Definition child : BaseObject := mkBaseObject 7%nat 5100 false None.

(** The stack on path spline 1 with another base length, configured. *)
Definition params_3_3_path_long : StackParameters :=
  mkStackParameters 3 (Float.of_int 70) 3 (Float.of_int 10) 12345
                    Float.zero Float.zero Float.zero Float.zero (Some 1%positive).

Definition configured_path_long : CanStackGenerator :=
  snd (InitStack params_3_3_path_long Generator_new).

(** The straight stack with another row height, configured. *)
Definition params_3_3_tall : StackParameters :=
  mkStackParameters 3 (Float.of_int 30) 3 (Float.of_int 25) 12345
                    Float.zero Float.zero Float.zero Float.zero None.

Definition configured_tall : CanStackGenerator :=
  snd (InitStack params_3_3_tall Generator_new).

(** The configured generator above with the matrices of a generated layout
    in its grid. *)
Definition configured_stale : CanStackGenerator :=
  set_array configured (_array generated).

End Example.

(* ================================================================= *)
(** * The object plugin: [StackObject] of [source/object/ostack.cpp] *)

(** The attributes of the stack object, as the [BaseContainer] of the
    node holds them under the ids of its description.  An attribute that
    was never set is absent; a getter answers its preset then. *)
Record BaseContainer : Type := mkBaseContainer {
  STACK_BASE_LENGTH : option Float;
  STACK_BASE_COUNT : option Z;
  STACK_ROWS_COUNT : option Z;
  STACK_ROWS_HEIGHT : option Float;
  STACK_RENDERINSTANCES : option bool;
  STACK_RANDOM_SEED : option Z;
  STACK_RANDOM_ROT : option Float;
  STACK_RANDOM_OFF_X : option Float;
  STACK_RANDOM_OFF_Z : option Float;
  (** The link to the path spline; absent stands for a null link. *)
  STACK_BASE_PATH : option ObjPtr
}.

(** [GetInt32(id, preset)] and [GetBool(id)], whose preset is [false]. *)
Definition GetInt32 (slot : option Z) (preset : Z) : Z :=
  match slot with Some v => v | None => preset end.

Definition GetBool (slot : option bool) : bool :=
  match slot with Some b => b | None => false end.

(** [SetInt32(STACK_ROWS_COUNT, v)] and [SetFloat(STACK_ROWS_HEIGHT, v)]. *)
Definition SetInt32_STACK_ROWS_COUNT (bc : BaseContainer) (v : Z) : BaseContainer :=
  mkBaseContainer (STACK_BASE_LENGTH bc) (STACK_BASE_COUNT bc) (Some v)
    (STACK_ROWS_HEIGHT bc) (STACK_RENDERINSTANCES bc) (STACK_RANDOM_SEED bc)
    (STACK_RANDOM_ROT bc) (STACK_RANDOM_OFF_X bc) (STACK_RANDOM_OFF_Z bc)
    (STACK_BASE_PATH bc).

Definition SetFloat_STACK_ROWS_HEIGHT (bc : BaseContainer) (v : Float) : BaseContainer :=
  mkBaseContainer (STACK_BASE_LENGTH bc) (STACK_BASE_COUNT bc) (STACK_ROWS_COUNT bc)
    (Some v) (STACK_RENDERINSTANCES bc) (STACK_RANDOM_SEED bc)
    (STACK_RANDOM_ROT bc) (STACK_RANDOM_OFF_X bc) (STACK_RANDOM_OFF_Z bc)
    (STACK_BASE_PATH bc).

(** [StackObject::Init]: the default attributes.  [super] is what
    [SUPER::Init] answers; no node gives [false]. *)
Definition StackObject_Init (node : option BaseContainer) (super : bool)
  : bool * option BaseContainer :=
  match node with
  | None => (false, None)
  | Some data =>
      (super,
       Some (mkBaseContainer (Some (Float.of_int 100)) (Some 3) (Some 3)
               (Some (Float.of_int 20)) (Some true) (Some 12345)
               (Some Float.zero) (Some Float.zero) (Some Float.zero)
               (STACK_BASE_PATH data)))
  end.

(** The message types [StackObject::Message] tells apart. *)
Inductive MessageType : Type :=
| MSG_DESCRIPTION_VALIDATE
| MSG_DESCRIPTION_COMMAND
| MSG_OTHER.

(** Of a [DescriptionCommand]: whether its id is [STACK_CMD_FITHEIGHT]. *)
Record DescriptionCommand : Type := mkDescriptionCommand {
  dc_id_is_STACK_CMD_FITHEIGHT : bool
}.

(** Of the first child: the radius [GetRad()] of its bounding box, and the
    radius [CalculateHierarchyBoundingBox] finds for its current state. *)
Record ChildBox : Type := mkChildBox {
  child_GetRad : Vector;
  child_hierarchy_rad : Vector
}.

(** [Vector::IsZero] of the SDK: all components compare equal to 0. *)
Definition Vector_IsZero (v : Vector) : bool :=
  Float.eqb (x v) Float.zero && Float.eqb (y v) Float.zero
  && Float.eqb (z v) Float.zero.

(** [StackObject::Message].  [node] holds the container of the node,
    [down] its first child, [data] the message data, [super] the answer of
    [SUPER::Message]. *)
Definition StackObject_Message (node : option BaseContainer) (down : option ChildBox)
                               (type : MessageType) (data : option DescriptionCommand)
                               (super : bool)
  : bool * option BaseContainer :=
  match node with
  | None => (false, None)
  | Some bc =>
      match type with
      | MSG_DESCRIPTION_VALIDATE =>
          (* limit row count to base count *)
          let baseCount := GetInt32 (STACK_BASE_COUNT bc) 0 in
          let maxRows := GetInt32 (STACK_ROWS_COUNT bc) 0 in
          (super, Some (SetInt32_STACK_ROWS_COUNT bc (Int32.Min maxRows baseCount)))
      | MSG_DESCRIPTION_COMMAND =>
          match data with
          | None => (false, Some bc)
          | Some dc =>
              if dc_id_is_STACK_CMD_FITHEIGHT dc then
                match down with
                | Some child =>
                    let rad := child_GetRad child in
                    let rad :=
                      if Vector_IsZero rad then child_hierarchy_rad child else rad in
                    if negb (Vector_IsZero rad)
                    then (super,
                          Some (SetFloat_STACK_ROWS_HEIGHT bc
                                  (Float.mul (y rad) (Float.of_int 2))))
                    else (super, Some bc)
                | None => (super, Some bc)
                end
              else (super, Some bc)
          end
      | MSG_OTHER => (super, Some bc)
      end
  end.

(** What the scene answers for [op] during one call of
    [GetVirtualObjects]. *)
Record Hierarchy : Type := mkHierarchy {
  op_GetDataInstance : BaseContainer;
  (** [op->GetDocument()] is not null. *)
  op_GetDocument : bool;
  op_GetDown : option BaseObject;
  op_CheckCache : bool;
  op_IsDirty : bool;
  op_IsDirtyChildren : bool;
  op_CompareDependenceList : bool;
  op_GetCache : option ResultParent;
  (** The parameters the constructor of [StackParameters] reads from the
      container and the document. *)
  op_params : StackParameters;
  op_GetMg : Matrix;
  (** The first free address. *)
  op_heap : ObjPtr
}.

(** What [GetVirtualObjects] returns: [nullptr], the cache of the object
    (which may be null), or the parent it has just built. *)
Inductive VirtualObjects : Type :=
| Nullptr
| Cache (cache : option ResultParent)
| Built (result : ResultParent).

Definition ObjPtr_eqb (a b : option ObjPtr) : bool :=
  match a, b with
  | Some p, Some q => Nat.eqb p q
  | None, None => true
  | _, _ => false
  end.

Section Plugin.

Context {sdk : Sdk}.

(** The members of [StackObject]. *)
Record StackObject : Type := mkStackObject {
  _stackGenerator : CanStackGenerator;
  _lastPathSpline : option ObjPtr
}.

(** The object as [Alloc] makes it. *)
Definition StackObject_new : StackObject := mkStackObject Generator_new None.

(** [StackObject::GetVirtualObjects].  [op] is [None] for a null pointer,
    [hh] tells that the hierarchy help is there.  The dependence list of
    [op], the hiding of its children, and the name and the update message
    the result is given are outside of what [StackObject] holds. *)
Definition GetVirtualObjects (this : StackObject) (op : option Hierarchy) (hh : bool)
  : VirtualObjects * StackObject :=
  match op with
  | None => (Nullptr, this)
  | Some op =>
      if negb hh then (Nullptr, this)
      else
        let bc := op_GetDataInstance op in
        if negb (op_GetDocument op) then (Nullptr, this)
        else
          match op_GetDown op with
          | None => (Nullptr, this)
          | Some child =>
              let pathSpline := STACK_BASE_PATH bc in
              let dirty :=
                op_CheckCache op || op_IsDirty op || op_IsDirtyChildren op
                || negb (ObjPtr_eqb pathSpline (_lastPathSpline this))
                || negb (op_CompareDependenceList op) in
              if negb dirty then (Cache (op_GetCache op), this)
              else
                let params := op_params op in
                let (ok, generator) := InitStack params (_stackGenerator this) in
                let this := mkStackObject generator (_lastPathSpline this) in
                if negb ok then (Nullptr, this)
                else
                  let (ok, generator) := GenerateStack generator in
                  let this := mkStackObject generator (_lastPathSpline this) in
                  if negb ok then (Nullptr, this)
                  else
                    match BuildStackGeometry generator (op_heap op) child (op_GetMg op)
                            (GetBool (STACK_RENDERINSTANCES bc)) with
                    | None => (Nullptr, this)
                    | Some result => (Built result, mkStackObject generator pathSpline)
                    end
          end
  end.

End Plugin.

(** An object to compute with: the default attributes, the child of the
    example above to clone, nothing cached, something dirty. *)
Module PluginExample.

Definition container : BaseContainer :=
  mkBaseContainer (Some (Float.of_int 100)) (Some 3) (Some 3)
    (Some (Float.of_int 20)) (Some true) (Some 12345)
    (Some Float.zero) (Some Float.zero) (Some Float.zero) None.

Definition params : StackParameters :=
  mkStackParameters 3 (Float.of_int 100) 3 (Float.of_int 20) 12345
                    Float.zero Float.zero Float.zero Float.zero None.

Definition scene : Hierarchy :=
  mkHierarchy container true (Some Example.child) true false false true None
              params Matrix_default 100%nat.

Definition after : StackObject :=
  snd (GetVirtualObjects StackObject_new (Some scene) true).

Definition built : ResultParent :=
  match fst (GetVirtualObjects StackObject_new (Some scene) true) with
  | Built result => result
  | _ => mkResultParent 0%nat []
  end.

End PluginExample.

(* ================================================================= *)
(** * Rounding to nearest in binary64: the notions *)

(** The location of a remainder [rem] of a division by [D], as
    [SFdiv_core_binary] and the right shifts record it: exact, or below,
    at, or above the half of [D]. *)
Definition loc_spec (D rem : Z) : location :=
  if rem =? 0 then loc_Exact else loc_Inexact (2 * rem ?= D).

(** A shift record that stands for the quotient of [A] by [D]. *)
Definition represents (rec : shr_record) (D A : Z) : Prop :=
  shr_m rec = A / D /\ loc_of_shr_record rec = loc_spec D (A mod D).

(** The quotient of [A] by [D], rounded to the nearest integer, ties to even. *)
Definition round_quotient (A D : Z) : Z :=
  round_nearest_even (A / D) (loc_spec D (A mod D)).

(** Powers of two and the values of floats, as rational numbers. *)
Definition bpow (e : Z) : Q := (2 ^ e)%Q.

Definition F2Q (m e : Z) : Q := (inject_Z m * bpow e)%Q.

Definition value (f : spec_float) : Q :=
  match f with
  | S754_finite false m e => F2Q (Zpos m) e
  | S754_finite true m e => (- F2Q (Zpos m) e)%Q
  | _ => 0%Q
  end.

(** The float that [binary_round_aux] returns for the rounded mantissa
    [m2] at exponent [e1]. *)
Definition rounded (s : bool) (m2 e1 : Z) : spec_float :=
  if m2 =? 2 ^ 53
  then S754_finite s (Z.to_pos (2 ^ 52)) (e1 + 1)
  else S754_finite s (Z.to_pos m2) e1.

(** A positive float with a full mantissa of 53 bits and an exponent
    between [lo] and [hi]. *)
Definition normal_pos (lo hi : Z) (f : spec_float) : Prop :=
  exists m e, f = S754_finite false m e
              /\ 2 ^ 52 <= Zpos m < 2 ^ 53 /\ lo <= e <= hi.

(** A float that is the zero of positive sign or a positive float with a
    full mantissa. *)
Definition zero_or_normal (lo hi : Z) (f : spec_float) : Prop :=
  f = S754_zero false \/ normal_pos lo hi f.

(** Two floats are equal numbers, as [==] of C++ has it: neither is a NaN,
    and they are identical or both a zero. *)
Definition equal_numbers (a b : Float) : Prop :=
  a <> S754_nan /\ Float.same_value a b.

(* ================================================================= *)
(** * Machine arithmetic *)

Lemma Int32_wrap_id : forall n, Int32.in_range n -> Int32.wrap n = n.
Proof.
  intros n [Hlo Hhi]. unfold Int32.wrap, Int32.min_signed, Int32.max_signed in *.
  change (2 ^ 31) with 2147483648 in *. change (2 ^ 32) with 4294967296.
  rewrite Z.mod_small; lia.
Qed.

Lemma Int32_sub_id : forall a b,
  Int32.in_range (a - b) -> Int32.sub a b = a - b.
Proof. intros; unfold Int32.sub; now apply Int32_wrap_id. Qed.

Lemma Int32_succ_id : forall a,
  0 <= a < Int32.max_signed -> Int32.succ a = a + 1.
Proof.
  intros a Ha. unfold Int32.succ. apply Int32_wrap_id.
  unfold Int32.in_range, Int32.min_signed, Int32.max_signed in *.
  change (2 ^ 31) with 2147483648 in *. lia.
Qed.

Lemma Int32_Min_min : forall a b, Int32.Min a b = Z.min a b.
Proof.
  intros a b. unfold Int32.Min. destruct (a <? b) eqn:E.
  - apply Z.ltb_lt in E. lia.
  - apply Z.ltb_ge in E. lia.
Qed.

(* ================================================================= *)
(** * Resizing *)

Lemma Resize_length : forall (T : Type) (d : T) n a,
  0 <= n ->
  BaseArray.Resize d n a
  = (true, firstn (Z.to_nat n) a ++ repeat d (Z.to_nat n - length a))
  /\ BaseArray.GetCount (snd (BaseArray.Resize d n a)) = n.
Proof.
  intros T d n a Hn. unfold BaseArray.Resize.
  destruct (n <? 0) eqn:E; [apply Z.ltb_lt in E; lia|].
  split; [reflexivity|]. cbn [snd]. unfold BaseArray.GetCount.
  rewrite length_app, repeat_length, length_firstn. lia.
Qed.

Lemma Resize_same : forall (T : Type) (d : T) n a,
  BaseArray.GetCount a = n -> BaseArray.Resize d n a = (true, a).
Proof.
  intros T d n a Hn. unfold BaseArray.GetCount in Hn.
  destruct (Resize_length T d n a ltac:(lia)) as [-> _]. f_equal.
  replace (Z.to_nat n) with (length a) by lia.
  rewrite firstn_all, Nat.sub_diag. cbn. apply app_nil_r.
Qed.

Lemma triangle_length : forall n b, length (triangle b n) = n.
Proof. induction n; intros; cbn; [reflexivity | now rewrite IHn]. Qed.

Lemma triangle_nth : forall n b r s,
  nth_error (triangle b n) r = Some s -> s = b - Z.of_nat r.
Proof.
  induction n as [|n IH]; intros b r s H.
  - destruct r; discriminate.
  - destruct r as [|r]; cbn in H.
    + injection H as <-. lia.
    + apply IH in H. lia.
Qed.

Lemma triangle_positive : forall n b s,
  Z.of_nat n <= b -> In s (triangle b n) -> 0 < s.
Proof.
  induction n as [|n IH]; intros b s Hn Hin; [contradiction|].
  cbn in Hin. destruct Hin as [<- | Hin]; [lia|].
  apply (IH (b - 1)); [lia | assumption].
Qed.

(** Twice the sum of the sizes of a triangle. *)
Lemma triangle_sum : forall n b,
  2 * fold_right Z.add 0 (triangle b n) = Z.of_nat n * (2 * b - Z.of_nat n + 1).
Proof.
  induction n as [|n IH]; intros b; [reflexivity|].
  cbn [triangle fold_right]. rewrite Z.mul_add_distr_l, IH. lia.
Qed.

Lemma total_items_sum : forall a,
  total_items a = fold_right Z.add 0 (row_sizes a).
Proof.
  unfold total_items, layout_items, row_sizes, BaseArray.GetCount.
  induction a as [|row a IH]; [reflexivity|].
  cbn [concat map fold_right]. rewrite length_app, <- IH. lia.
Qed.

Section ResizeProofs.

Context {sdk : Sdk}.

(** The loop of [ResizeStack] gives the rows it visits sizes that go down
    by one, as long as the counter stays below both counts. *)
Lemma resize_rows_triangle : forall rows b rowCount k,
  0 <= k ->
  k + Z.of_nat (length rows) <= rowCount ->
  k + Z.of_nat (length rows) <= b ->
  b <= Int32.max_signed ->
  exists rows',
    resize_rows b rowCount rows k = (true, rows')
    /\ row_sizes rows' = triangle (b - k) (length rows).
Proof.
  induction rows as [|row rest IH]; intros b rowCount k Hk Hrc Hb Hmax.
  - exists []. split; reflexivity.
  - cbn [length] in Hrc, Hb. cbn [resize_rows].
    destruct (k <? rowCount) eqn:E; [|apply Z.ltb_ge in E; lia].
    assert (Hsub : Int32.sub b k = b - k).
    { apply Int32_sub_id. unfold Int32.in_range, Int32.min_signed, Int32.max_signed in *.
      change (2 ^ 31) with 2147483648 in *. lia. }
    rewrite Hsub.
    destruct (Resize_length _ Matrix_default (b - k) row ltac:(lia)) as [Hres Hcnt].
    rewrite Hres in *. cbn [negb snd] in *.
    rewrite Int32_succ_id by lia.
    destruct (IH b rowCount (k + 1) ltac:(lia) ltac:(lia) ltac:(lia) Hmax)
      as (rest' & Hrest & Hsizes).
    rewrite Hrest. eexists; split; [reflexivity|].
    cbn [row_sizes map length triangle]. rewrite Hcnt. f_equal.
    unfold row_sizes in Hsizes. rewrite Hsizes. f_equal. lia.
Qed.

(** On rows that have their sizes already the loop changes nothing. *)
Lemma resize_rows_same : forall rows b rowCount k rows' ok,
  resize_rows b rowCount rows k = (ok, rows') ->
  resize_rows b rowCount rows' k = (ok, rows').
Proof.
  induction rows as [|row rest IH]; intros b rowCount k rows' ok H.
  - cbn in H. injection H as <- <-. reflexivity.
  - cbn [resize_rows] in H. destruct (k <? rowCount) eqn:E.
    + unfold BaseArray.Resize in H.
      destruct (Int32.sub b k <? 0) eqn:En; cbn [negb] in H.
      * injection H as <- <-. cbn [resize_rows]. rewrite E.
        unfold BaseArray.Resize. rewrite En. reflexivity.
      * destruct (resize_rows b rowCount rest (Int32.succ k)) as [ok' rest'] eqn:Er.
        injection H as <- <-. apply IH in Er.
        cbn [resize_rows]. rewrite E.
        apply Z.ltb_ge in En.
        rewrite Resize_same.
        -- cbn [negb]. rewrite Er. reflexivity.
        -- unfold BaseArray.GetCount.
           rewrite length_app, repeat_length, length_firstn. lia.
    + injection H as <- <-. cbn [resize_rows]. rewrite E. reflexivity.
Qed.

Lemma ResizeStack_shape : forall g b rowCount,
  1 <= b <= Int32.max_signed -> 0 <= rowCount ->
  _baseCount (_params g) = b ->
  exists a,
    ResizeStack b rowCount g = (true, set_array g a)
    /\ row_sizes a = triangle b (Z.to_nat (Z.min b rowCount)).
Proof.
  intros g b rowCount Hb Hrc Hpb. unfold ResizeStack.
  rewrite Int32_Min_min, Hpb.
  destruct (Resize_length _ (@nil Matrix) (Z.min b rowCount) (_array g) ltac:(lia))
    as [Hres Hcnt].
  rewrite Hres in *. cbn [negb snd] in *. unfold BaseArray.GetCount in Hcnt.
  match goal with |- context [resize_rows _ _ ?l _] => set (a0 := l) in * end.
  clearbody a0.
  destruct (resize_rows_triangle a0 b rowCount 0) as (a & Ha & Hsizes);
    try lia.
  rewrite Ha. exists a. split; [reflexivity|].
  rewrite Hsizes, Z.sub_0_r. f_equal. lia.
Qed.

Lemma ResizeStack_same : forall g b rowCount ok g',
  ResizeStack b rowCount g = (ok, g') ->
  ResizeStack b rowCount g' = (ok, g').
Proof.
  intros g b rowCount ok g' H. unfold ResizeStack in *.
  unfold BaseArray.Resize in H at 1.
  destruct (Int32.Min b rowCount <? 0) eqn:En; cbn [negb] in H.
  - injection H as <- <-. cbn [_array set_array].
    unfold BaseArray.Resize. rewrite En. reflexivity.
  - destruct (resize_rows _ _ _ _) as [ok' a'] eqn:Er in H.
    injection H as <- <-. cbn [_array set_array _params].
    apply Z.ltb_ge in En.
    assert (Hlen : length a' = Z.to_nat (Int32.Min b rowCount)).
    { assert (forall rows b' rc k o r',
                resize_rows b' rc rows k = (o, r') -> length r' = length rows) as Hl.
      { clear. induction rows as [|row rest IH]; intros b' rc k o r' H.
        - cbn in H. now injection H as <- <-.
        - cbn [resize_rows] in H. destruct (k <? rc).
          + destruct (BaseArray.Resize _ _ row) as [o1 row'].
            destruct (negb o1).
            * now injection H as <- <-.
            * destruct (resize_rows b' rc rest (Int32.succ k)) as [o2 rest'] eqn:E.
              injection H as <- <-. cbn. f_equal. eapply IH; eauto.
          + now injection H as <- <-. }
      rewrite (Hl _ _ _ _ _ _ Er), length_app, repeat_length, length_firstn. lia. }
    rewrite Resize_same by (unfold BaseArray.GetCount; lia).
    cbn [negb]. apply resize_rows_same in Er. rewrite Er. reflexivity.
Qed.

End ResizeProofs.

(* ================================================================= *)
(** * What every reachable generator satisfies *)

Lemma StackParameters_eqb_counts : forall x1 x2,
  StackParameters_eqb x1 x2 = true ->
  _baseCount x1 = _baseCount x2 /\ _rowCount x1 = _rowCount x2
  /\ _randomSeed x1 = _randomSeed x2.
Proof.
  intros x1 x2 H. unfold StackParameters_eqb in H.
  repeat (apply andb_prop in H; destruct H as [H ?]).
  repeat match goal with
         | E : (_ =? _) = true |- _ => apply Z.eqb_eq in E
         end.
  auto.
Qed.

Section Invariant.

Context {sdk : Sdk}.

Lemma generate_items_length : forall p pl r row i rnd,
  length (fst (generate_items p pl r row i rnd)) = length row.
Proof.
  induction row as [|m row IH]; intros i rnd; [reflexivity|].
  cbn [generate_items].
  destruct (generate_item p pl r i rnd) as [mg rnd1].
  specialize (IH (Int32.succ i) rnd1).
  destruct (generate_items p pl r row (Int32.succ i) rnd1) as [rest rnd2].
  cbn in *. now rewrite IH.
Qed.

Lemma generate_rows_sizes : forall p pl rows k rnd,
  row_sizes (fst (generate_rows p pl rows k rnd)) = row_sizes rows.
Proof.
  induction rows as [|row rows IH]; intros k rnd; [reflexivity|].
  cbn [generate_rows].
  pose proof (generate_items_length p pl k row 0 rnd) as Hrow.
  destruct (generate_items p pl k row 0 rnd) as [row' rnd1].
  specialize (IH (Int32.succ k) rnd1).
  destruct (generate_rows p pl rows (Int32.succ k) rnd1) as [rest rnd2].
  cbn [fst] in *. cbn [row_sizes map]. unfold row_sizes in IH. rewrite IH.
  unfold BaseArray.GetCount. now rewrite Hrow.
Qed.

Lemma prepare_keeps : forall g,
  _params (snd (prepare g)) = _params g
  /\ _array (snd (prepare g)) = _array g
  /\ _initialized (snd (prepare g)) = _initialized g
  /\ _random (snd (prepare g)) = _random g.
Proof.
  intros g. unfold prepare. destruct (_basePath (_params g)); [|now cbn].
  destruct (SplineLengthData_Init _ _) as [ok d]. destruct ok; now cbn.
Qed.

Lemma GenerateStack_keeps : forall g,
  _params (snd (GenerateStack g)) = _params g
  /\ _initialized (snd (GenerateStack g)) = _initialized g
  /\ row_sizes (_array (snd (GenerateStack g))) = row_sizes (_array g).
Proof.
  intros g. unfold GenerateStack.
  destruct (_initialized g) eqn:Hi; cbn [negb]; [|cbn [snd]; auto].
  destruct (prepare_keeps g) as (Hp & Ha & Hin & _).
  destruct (prepare g) as [[pl|] g1]; cbn [snd] in *.
  - unfold run_loops.
    pose proof (generate_rows_sizes (_params g1) pl (_array g1) 0 (_random g1)) as Hs.
    destruct (generate_rows _ _ _ _ _) as [a rnd]. cbn in *.
    rewrite Hp, Hin, Hi, Hs, Ha. auto.
  - rewrite Hp, Hin, Hi, Ha. auto.
Qed.

Lemma Generator_new_inv : Generator_inv Generator_new.
Proof.
  unfold Generator_inv, Generator_new, params_typed, Int32.in_range,
    UInt32.in_range, Int32.min_signed, Int32.max_signed; cbn.
  repeat split; try lia; discriminate.
Qed.

Lemma InitStack_inv : forall params g,
  Generator_inv g -> params_typed params ->
  Generator_inv (snd (InitStack params g)).
Proof.
  intros params g (Ht & Hi & Hs) Hp. unfold InitStack.
  cbn [_params set_random].
  destruct (StackParameters_eqb params (_params g)) eqn:E.
  - unfold Generator_inv. cbn [snd _params _initialized _array set_random].
    exact (conj Ht (conj Hi Hs)).
  - destruct (_baseCount params <? 1) eqn:Eb.
    + cbn. unfold Generator_inv; cbn.
      split; [apply Generator_new_inv|]. split; [discriminate | lia].
    + apply Z.ltb_ge in Eb. cbn [_params set_params].
      destruct (Z_lt_ge_dec (_rowCount params) 0) as [Hneg | Hnn].
      * unfold ResizeStack, BaseArray.Resize. rewrite Int32_Min_min.
        destruct (Z.min (_baseCount params) (_rowCount params) <? 0) eqn:En;
          [|apply Z.ltb_ge in En; lia].
        cbn. unfold Generator_inv; cbn. split; [assumption|].
        split; [discriminate | lia].
      * destruct Hp as (Hb & Hr & Hseed).
        match goal with
        | |- context [ResizeStack ?b ?r ?g0] =>
            destruct (ResizeStack_shape g0 b r) as (a & Ha & Hsz);
              [cbn [_baseCount _params set_params set_initialized set_random];
               unfold Int32.in_range in *; lia
              | cbn [_rowCount _params set_params set_initialized set_random]; lia
              | reflexivity |]
        end.
        rewrite Ha. cbn. unfold Generator_inv; cbn.
        split; [exact (conj Hb (conj Hr Hseed))|]. split; [lia|].
        intros _ _. split; [reflexivity | exact Hsz].
Qed.

Lemma GenerateStack_inv : forall g,
  Generator_inv g -> Generator_inv (snd (GenerateStack g)).
Proof.
  intros g (Ht & Hi & Hs). destruct (GenerateStack_keeps g) as (Hp & Hin & Hsz).
  unfold Generator_inv. rewrite Hp, Hin, Hsz. auto.
Qed.

Lemma Reachable_inv : forall g, Reachable g -> Generator_inv g.
Proof.
  induction 1.
  - apply Generator_new_inv.
  - now apply InitStack_inv.
  - now apply GenerateStack_inv.
Qed.

(** With usable parameters [InitStack] succeeds on a reachable generator
    and leaves the grid in the shape of the parameters. *)
Lemma InitStack_shape : forall params g,
  Generator_inv g -> params_typed params ->
  1 <= _baseCount params -> 0 <= _rowCount params ->
  fst (InitStack params g) = true
  /\ _initialized (snd (InitStack params g)) = true
  /\ row_sizes (_array (snd (InitStack params g))) = stack_shape params.
Proof.
  intros params g Hg Hp Hb Hr.
  pose proof (InitStack_inv params g Hg Hp) as (_ & _ & Hs').
  destruct Hg as (Ht & Hi & Hs). unfold InitStack in *.
  cbn [_params set_random] in *.
  destruct (StackParameters_eqb params (_params g)) eqn:E.
  - apply StackParameters_eqb_counts in E. destruct E as (Eb & Er & _).
    cbn [fst snd _initialized _array set_random].
    rewrite Eb in Hb. rewrite Er in Hr.
    destruct (Hs Hb Hr) as [Hinit Hshape].
    unfold stack_shape in *. rewrite Eb, Er. auto.
  - destruct (_baseCount params <? 1) eqn:Eb; [apply Z.ltb_lt in Eb; lia|].
    cbn [_params set_params] in *.
    destruct Hp as (Hpb & Hpr & Hseed).
    match goal with
    | |- context [ResizeStack ?b ?r ?g0] =>
        destruct (ResizeStack_shape g0 b r) as (a & Ha & Hsz);
          [cbn [_baseCount _params set_params set_initialized set_random];
           unfold Int32.in_range in *; lia
          | cbn [_rowCount _params set_params set_initialized set_random]; lia
          | reflexivity |]
    end.
    rewrite Ha. cbn. auto.
Qed.

End Invariant.

(* ================================================================= *)
(** * The triangular grid *)

(** C1. For parameters with [_baseCount >= 1] [InitStack] succeeds on every
    reachable generator, and the grid
    it leaves has [min(baseCount, rowCount)] rows, row [r] has
    [baseCount - r] items, no row is empty, and with
    [rowCount >= baseCount] the grid holds [baseCount * (baseCount + 1) / 2]
    items. *)
Theorem InitStack_builds_triangle :
  forall {sdk : Sdk} (g : CanStackGenerator) (params : StackParameters),
    Reachable g -> params_typed params ->
    1 <= _baseCount params ->
    let a := _array (snd (InitStack params g)) in
    fst (InitStack params g) = true
    /\ BaseArray.GetCount a = Z.min (_baseCount params) (_rowCount params)
    /\ (forall r row, nth_error a r = Some row ->
                      BaseArray.GetCount row = _baseCount params - Z.of_nat r)
    /\ (forall row, In row a -> 0 < BaseArray.GetCount row)
    /\ (_baseCount params <= _rowCount params ->
        total_items a = _baseCount params * (_baseCount params + 1) / 2).
Proof.
  intros sdk g params Hreach Hp Hb a.
  assert (Hr : 0 <= _rowCount params) by apply Hp.
  destruct (InitStack_shape params g (Reachable_inv g Hreach) Hp Hb Hr)
    as (Hok & _ & Hshape).
  fold a in Hshape. unfold stack_shape in Hshape.
  set (n := Z.to_nat (Z.min (_baseCount params) (_rowCount params))) in *.
  split; [exact Hok|]. split; [|split; [|split]].
  - unfold BaseArray.GetCount.
    rewrite <- (length_map BaseArray.GetCount a). fold (row_sizes a).
    rewrite Hshape, triangle_length. subst n. lia.
  - intros r row Hnth.
    apply (map_nth_error BaseArray.GetCount) in Hnth. fold (row_sizes a) in Hnth.
    rewrite Hshape in Hnth. now apply triangle_nth in Hnth.
  - intros row Hin.
    apply (in_map BaseArray.GetCount) in Hin. fold (row_sizes a) in Hin.
    rewrite Hshape in Hin. apply (triangle_positive n (_baseCount params)); [|exact Hin].
    subst n. lia.
  - intros Hle. rewrite total_items_sum, Hshape.
    pose proof (triangle_sum n (_baseCount params)) as Hsum.
    replace (Z.of_nat n) with (_baseCount params) in Hsum by (subst n; lia).
    apply Z.div_unique_exact; [lia|]. rewrite Hsum. ring.
Qed.

Lemma InitStack_builds_triangle_witness :
  let a := _array (snd (InitStack Example.params_3_3 Generator_new)) in
  fst (InitStack Example.params_3_3 Generator_new) = true
  /\ BaseArray.GetCount a = 3
  /\ (forall r row, nth_error a r = Some row ->
                    BaseArray.GetCount row = 3 - Z.of_nat r)
  /\ (forall row, In row a -> 0 < BaseArray.GetCount row)
  /\ (3 <= 3 -> total_items a = 3 * (3 + 1) / 2).
Proof.
  apply (@InitStack_builds_triangle Example.sdk Generator_new Example.params_3_3).
  - apply reach_new.
  - unfold params_typed, Int32.in_range, UInt32.in_range,
      Int32.min_signed, Int32.max_signed; cbn; lia.
  - cbn; lia.
Defined.

(* ================================================================= *)
(** * A refused [InitStack] *)

(** C3, as the code has it.  When the stored parameters have
    [_baseCount >= 1], a call of [InitStack] with [_baseCount < 1] fails,
    puts the default parameters in place of the stored ones and clears
    [_initialized]; the grid and the length data stay as they were, and
    [GenerateStack] fails afterwards. *)
Theorem InitStack_refused_resets :
  forall {sdk : Sdk} (g : CanStackGenerator) (params : StackParameters),
    1 <= _baseCount (_params g) -> _baseCount params < 1 ->
    let g' := snd (InitStack params g) in
    fst (InitStack params g) = false
    /\ _params g' = StackParameters_default
    /\ _initialized g' = false
    /\ _array g' = _array g
    /\ _splineLengthData g' = _splineLengthData g
    /\ _random g' = Random_Init (_randomSeed params)
    /\ GenerateStack g' = (false, g').
Proof.
  intros sdk g params Hstored Hbad g'. subst g'. unfold InitStack.
  cbn [_params set_random].
  destruct (StackParameters_eqb params (_params g)) eqn:E.
  - apply StackParameters_eqb_counts in E. lia.
  - destruct (_baseCount params <? 1) eqn:Eb; [|apply Z.ltb_ge in Eb; lia].
    cbn. repeat split; reflexivity.
Qed.

Lemma InitStack_refused_resets_witness :
  let g' := snd (InitStack Example.params_0 Example.configured) in
  fst (InitStack Example.params_0 Example.configured) = false
  /\ _params g' = StackParameters_default
  /\ _initialized g' = false
  /\ _array g' = _array Example.configured
  /\ _splineLengthData g' = _splineLengthData Example.configured
  /\ _random g' = Random_Init (_randomSeed Example.params_0)
  /\ GenerateStack g' = (false, g').
Proof.
  apply (@InitStack_refused_resets Example.sdk Example.configured Example.params_0).
  - vm_compute. discriminate.
  - reflexivity.
Defined.

(** C3, as the specification words it, fails: after a successful
    [InitStack] a refused one does not leave the stored parameters and the
    flag as they were, and [GenerateStack], which succeeded before, fails. *)
Lemma InitStack_refused_changes_state :
  fst (InitStack Example.params_3_3 Generator_new) = true
  /\ fst (InitStack Example.params_0 Example.configured) = false
  /\ _params (snd (InitStack Example.params_0 Example.configured))
     <> _params Example.configured
  /\ _initialized (snd (InitStack Example.params_0 Example.configured))
     <> _initialized Example.configured
  /\ fst (GenerateStack Example.configured) = true
  /\ fst (GenerateStack (snd (InitStack Example.params_0 Example.configured))) = false.
Proof.
  repeat split; try (vm_compute; reflexivity); vm_compute; discriminate.
Qed.

(* ================================================================= *)
(** * The comparison of parameters *)

(** C4, at the failing input: parameters that differ in the path spline
    alone compare equal, so that [InitStack] takes them for the stored ones
    and keeps the old path spline. *)
Theorem StackParameters_eqb_ignores_basePath :
  Example.params_3_3 <> Example.params_3_3_path
  /\ StackParameters_eqb Example.params_3_3_path Example.params_3_3 = true
  /\ fst (InitStack Example.params_3_3_path Example.configured) = true
  /\ _basePath (_params (snd (InitStack Example.params_3_3_path Example.configured)))
     = None.
Proof.
  repeat split; try (vm_compute; reflexivity). discriminate.
Qed.

(* ================================================================= *)
(** * Calling [InitStack] again *)

Section Again.

Context {sdk : Sdk}.

(** [ResizeStack] reads the grid and the stored base count, and writes the
    grid. *)
Lemma ResizeStack_array : forall g b rowCount,
  ResizeStack b rowCount g
  = (fst (ResizeStack b rowCount g),
     set_array g (_array (snd (ResizeStack b rowCount g)))).
Proof.
  intros g b rowCount. unfold ResizeStack.
  destruct (BaseArray.Resize _ _ _) as [ok a]. destruct ok; cbn [negb].
  - destruct (resize_rows _ _ _ _) as [ok' a']. reflexivity.
  - reflexivity.
Qed.

Lemma ResizeStack_reads : forall g h b rowCount,
  _array g = _array h -> _baseCount (_params g) = _baseCount (_params h) ->
  fst (ResizeStack b rowCount g) = fst (ResizeStack b rowCount h)
  /\ _array (snd (ResizeStack b rowCount g)) = _array (snd (ResizeStack b rowCount h)).
Proof.
  intros g h b rowCount Ha Hb. unfold ResizeStack. rewrite Ha, Hb.
  destruct (BaseArray.Resize _ _ _) as [ok a]. destruct ok; cbn [negb].
  - destruct (resize_rows _ _ _ _) as [ok' a']. auto.
  - auto.
Qed.

(** A second [InitStack] with the parameters of a successful first one
    succeeds and arrives at the generator the first one left, whatever
    state the random number generator was in. *)
Lemma InitStack_again : forall params g rnd,
  fst (InitStack params g) = true ->
  InitStack params (set_random (snd (InitStack params g)) rnd)
  = (true, snd (InitStack params g)).
Proof.
  intros params g rnd Hok. unfold InitStack in Hok |- * at 2 3.
  cbn [_params set_random] in *.
  destruct (StackParameters_eqb params (_params g)) eqn:E.
  - cbn [snd]. unfold InitStack. cbn [_params set_random]. rewrite E.
    destruct g; reflexivity.
  - destruct (_baseCount params <? 1) eqn:Eb; [discriminate|].
    cbn [_params set_params] in *.
    match goal with
    | _ : context [ResizeStack ?b ?r ?g0] |- _ =>
        set (g0' := g0) in *;
        pose proof (ResizeStack_array g0' b r) as Harr;
        destruct (ResizeStack b r g0') as [ok g1] eqn:Er
    end.
    destruct ok; [|discriminate]. cbn [negb fst snd] in *.
    injection Harr as Hg1.
    pose proof (ResizeStack_same _ _ _ _ _ Er) as Hsame.
    unfold InitStack. cbn [_params set_random set_initialized].
    assert (Hp1 : _params g1 = params) by (rewrite Hg1; reflexivity).
    assert (Hr1 : _random g1 = Random_Init (_randomSeed params))
      by (rewrite Hg1; reflexivity).
    rewrite Hp1.
    destruct (StackParameters_eqb params params).
    + f_equal. destruct g1; cbn in *. now subst.
    + rewrite Eb. cbn [_params set_params set_initialized set_random].
      match goal with
      | |- context [ResizeStack ?b ?r ?h] =>
          pose proof (ResizeStack_array h b r) as Harr2;
          destruct (ResizeStack_reads h g1 b r) as [Hf Ha];
            [reflexivity | cbn; now rewrite Hp1 |];
          destruct (ResizeStack b r h) as [ok2 g2]
      end.
      rewrite Hsame in Hf, Ha. cbn [fst snd] in *. subst ok2.
      injection Harr2 as Hg2. cbn [negb]. f_equal.
      rewrite Hg2, Ha. destruct g1; cbn in *. now subst.
Qed.

End Again.

(** C7. After a successful [InitStack], a second [InitStack] with the same
    parameters returns true and leaves the generator as the first call left
    it, the random number generator being put back to its seeded state
    whatever state it was in; so [InitStack], [InitStack], [GenerateStack]
    ends in the generator and the layout of [InitStack], [GenerateStack]. *)
Theorem InitStack_twice_then_generate :
  forall {sdk : Sdk} (g : CanStackGenerator) (params : StackParameters),
    fst (InitStack params g) = true ->
    let g1 := snd (InitStack params g) in
    InitStack params g1 = (true, g1)
    /\ (forall rnd, InitStack params (set_random g1 rnd) = (true, g1))
    /\ _random g1 = Random_Init (_randomSeed params)
    /\ configure_generate params g1 = configure_generate params g.
Proof.
  intros sdk g params Hok g1.
  assert (Hall : forall rnd, InitStack params (set_random g1 rnd) = (true, g1))
    by (intros rnd; now apply InitStack_again).
  assert (H1 : InitStack params g1 = (true, g1)).
  { rewrite <- (Hall (_random g1)) at 1. f_equal. destruct g1; reflexivity. }
  split; [exact H1|]. split; [exact Hall|]. split.
  - subst g1. unfold InitStack. cbn [_params set_random].
    destruct (StackParameters_eqb params (_params g)); [reflexivity|].
    destruct (_baseCount params <? 1); [reflexivity|].
    cbn [_params set_params].
    match goal with
    | |- context [ResizeStack ?b ?r ?g0] =>
        rewrite (ResizeStack_array g0 b r);
        destruct (fst (ResizeStack b r g0))
    end; reflexivity.
  - unfold configure_generate. rewrite H1. cbn [negb].
    subst g1. destruct (InitStack params g) as [ok g']. cbn [fst snd] in *.
    now subst ok.
Qed.

Lemma InitStack_twice_then_generate_witness :
  let g1 := snd (InitStack Example.params_3_3 Generator_new) in
  InitStack Example.params_3_3 g1 = (true, g1)
  /\ (forall rnd, InitStack Example.params_3_3 (set_random g1 rnd) = (true, g1))
  /\ _random g1 = Random_Init (_randomSeed Example.params_3_3)
  /\ configure_generate Example.params_3_3 g1
     = configure_generate Example.params_3_3 Generator_new.
Proof.
  apply (@InitStack_twice_then_generate Example.sdk Generator_new Example.params_3_3).
  reflexivity.
Defined.

(* ================================================================= *)
(** * The assembly of the output *)

Lemma count_kinds_clone : forall (l : list NewItem) k n,
  map item_kind l = repeat (IsClone k) n ->
  count_clones l = n /\ count_instances l = 0%nat.
Proof.
  unfold count_clones, count_instances.
  induction l as [|it l IH]; intros k n H; destruct n; try discriminate;
    [split; reflexivity|].
  cbn in H. injection H as Hk Hl. destruct (IH _ _ Hl) as [Hc Hi].
  cbn [filter].
  replace (is_clone it) with true by (unfold is_clone; now rewrite Hk).
  replace (is_instance it) with false by (unfold is_instance; now rewrite Hk).
  cbn [length]. now rewrite Hc.
Qed.

Lemma count_kinds_instance : forall (l : list NewItem) f n,
  map item_kind l = repeat (IsRenderInstance f) n ->
  count_clones l = 0%nat /\ count_instances l = n
  /\ Forall (fun it => item_kind it = IsRenderInstance f) l.
Proof.
  unfold count_clones, count_instances.
  induction l as [|it l IH]; intros f n H; destruct n; try discriminate;
    [repeat split; constructor|].
  cbn in H. injection H as Hk Hl. destruct (IH _ _ Hl) as (Hc & Hi & Hall).
  cbn [filter].
  replace (is_clone it) with false by (unfold is_clone; now rewrite Hk).
  replace (is_instance it) with true by (unfold is_instance; now rewrite Hk).
  cbn [length]. rewrite Hi. repeat split; auto.
Qed.

Section AssemblyProofs.

Context {sdk : Sdk}.

Variable p : StackParameters.
Variable objectToClone : ObjPtr.
Variable mg : Matrix.
Variable useRenderInstances : bool.

Let step := build_item p objectToClone (Matrix_inv mg) useRenderInstances.

(** The two loops visit the items row after row. *)
Lemma build_rows_concat : forall rows st,
  build_rows p objectToClone (Matrix_inv mg) useRenderInstances st rows
  = fold_left step (layout_items rows) st.
Proof.
  unfold build_rows, build_row, layout_items.
  induction rows as [|row rows IH]; intros st; [reflexivity|].
  cbn [fold_left concat]. rewrite fold_left_app. apply IH.
Qed.

(** Every item is inserted after the ones before it, at the next address,
    with the matrix that belongs to its place. *)
Lemma build_items_inserted : forall l st,
  let st' := fold_left step l st in
  map item_ml (inserted st') = map item_ml (inserted st) ++ map (item_matrix p mg) l
  /\ map item_ptr (inserted st')
     = map item_ptr (inserted st) ++ seq (next_ptr st) (length l)
  /\ next_ptr st' = (next_ptr st + length l)%nat.
Proof.
  induction l as [|m l IH]; intros st; cbn [fold_left length seq map].
  - rewrite !app_nil_r. auto.
  - destruct (IH (step st m)) as (Hml & Hptr & Hnext).
    cbv zeta in *. rewrite Hml, Hptr, Hnext.
    unfold step, build_item.
    destruct (useRenderInstances && (0 <? newItemCount st));
      cbn [inserted next_ptr]; rewrite !map_app, <- !app_assoc; cbn [map app];
      unfold item_matrix; repeat split; try reflexivity; lia.
Qed.

(** Without render instances every item is a clone. *)
Lemma build_items_clones : forall l st,
  useRenderInstances = false ->
  map item_kind (inserted (fold_left step l st))
  = map item_kind (inserted st) ++ repeat (IsClone objectToClone) (length l).
Proof.
  intros l st Hu. revert st.
  induction l as [|m l IH]; intros st; cbn [fold_left length repeat].
  - now rewrite app_nil_r.
  - rewrite IH. unfold step, build_item. rewrite Hu. cbn [andb inserted].
    rewrite map_app, <- app_assoc. reflexivity.
Qed.

(** With render instances, once an item exists every further item is an
    instance object linked to [firstItem]. *)
Lemma build_items_instances : forall l st,
  useRenderInstances = true ->
  0 < newItemCount st ->
  newItemCount st + Z.of_nat (length l) <= Int32.max_signed ->
  map item_kind (inserted (fold_left step l st))
  = map item_kind (inserted st)
    ++ repeat (IsRenderInstance (firstItem st)) (length l).
Proof.
  intros l st Hu. revert st.
  induction l as [|m l IH]; intros st Hpos Hmax; cbn [fold_left length repeat].
  - now rewrite app_nil_r.
  - cbn [length] in Hmax.
    assert (Hstep : step st m
                    = mkBuildState (newItemCount st + 1) (firstItem st)
                        (S (next_ptr st))
                        (inserted st
                         ++ [mkNewItem (next_ptr st) (IsRenderInstance (firstItem st))
                               (match _basePath p with
                                | Some _ => Matrix_mul (Matrix_inv mg) m
                                | None => m
                                end)])).
    { unfold step, build_item. rewrite Hu.
      destruct (0 <? newItemCount st) eqn:E; [|apply Z.ltb_ge in E; lia].
      cbn [andb]. rewrite Int32_succ_id by lia. reflexivity. }
    rewrite IH; rewrite Hstep; cbn [newItemCount firstItem inserted]; try lia.
    rewrite map_app, <- app_assoc. reflexivity.
Qed.

End AssemblyProofs.

(** C8. [BuildStackGeometry] creates one item for each of the [N] items of
    the layout.  Without render instances all [N] are clones of the object
    to clone.  With render instances (and [1 <= N] within the range of the
    item counter) the first item is a clone of the object to clone, it is
    the only clone, and the other [N - 1] items are instance objects that
    all link to that first item. *)
Theorem BuildStackGeometry_clones_and_instances :
  forall {sdk : Sdk} (g : CanStackGenerator) (heap : ObjPtr)
         (originalObject : BaseObject) (mg : Matrix)
         (useRenderInstances : bool) (template : ObjPtr),
    objectToClone_of originalObject = Some template ->
    let N := length (layout_items (_array g)) in
    exists result,
      BuildStackGeometry g heap originalObject mg useRenderInstances = Some result
      /\ length (children result) = N
      /\ (useRenderInstances = false ->
          count_clones (children result) = N
          /\ count_instances (children result) = 0%nat
          /\ Forall (fun it => item_kind it = IsClone template) (children result))
      /\ (useRenderInstances = true ->
          (0 < N)%nat -> Z.of_nat N <= Int32.max_signed ->
          exists first rest,
            children result = first :: rest
            /\ item_kind first = IsClone template
            /\ count_clones (children result) = 1%nat
            /\ count_instances (children result) = (N - 1)%nat
            /\ Forall (fun it => item_kind it = IsRenderInstance (Some (item_ptr first)))
                      rest).
Proof.
  intros sdk g heap originalObject mg useRenderInstances template Htemplate N.
  unfold BuildStackGeometry. rewrite Htemplate.
  eexists; split; [reflexivity|]. cbn [children].
  rewrite build_rows_concat. fold N.
  set (l := layout_items (_array g)) in *.
  set (st0 := mkBuildState 0 None (S heap) []).
  split; [|split].
  - destruct (build_items_inserted (_params g) template mg useRenderInstances l st0)
      as (_ & Hptr & _).
    apply (f_equal (@length _)) in Hptr.
    rewrite length_map, length_app, length_seq in Hptr. exact Hptr.
  - intros Hu.
    pose proof (build_items_clones (_params g) template mg useRenderInstances l st0 Hu)
      as Hk.
    cbn [inserted st0 map app] in Hk. fold N in Hk.
    destruct (count_kinds_clone _ _ _ Hk) as [Hc Hi].
    repeat split; auto.
    apply Forall_forall. intros it Hin.
    apply (in_map item_kind) in Hin. rewrite Hk in Hin.
    now apply repeat_spec in Hin.
  - intros Hu Hpos Hmax. subst N.
    destruct l as [|m l]; [cbn in Hpos; lia|].
    cbn [fold_left length] in *.
    set (st1 := build_item (_params g) template (Matrix_inv mg) useRenderInstances st0 m).
    assert (Hst1 : st1 = mkBuildState 1 (Some (S heap)) (S (S heap))
                           [mkNewItem (S heap) (IsClone template)
                              (match _basePath (_params g) with
                               | Some _ => Matrix_mul (Matrix_inv mg) m
                               | None => m
                               end)]).
    { unfold st1, build_item, st0. cbn. rewrite andb_false_r. reflexivity. }
    pose proof (build_items_instances (_params g) template mg useRenderInstances l st1 Hu)
      as Hk.
    rewrite Hst1 in Hk |- *. cbn [newItemCount firstItem inserted map app] in Hk.
    specialize (Hk ltac:(lia) ltac:(lia)).
    match goal with
    | |- context [inserted ?s] => destruct (inserted s) as [|first rest] eqn:Eins
    end; [discriminate|].
    cbn [map] in Hk. injection Hk as Hfirst Hrest.
    destruct (build_items_inserted (_params g) template mg useRenderInstances l
                (mkBuildState 1 (Some (S heap)) (S (S heap))
                   [mkNewItem (S heap) (IsClone template)
                      (match _basePath (_params g) with
                       | Some _ => Matrix_mul (Matrix_inv mg) m
                       | None => m
                       end)])) as (_ & Hptr & _).
    cbv zeta in Hptr. rewrite Eins in Hptr. cbn [map inserted app] in Hptr.
    injection Hptr as Hp1 _.
    destruct (count_kinds_instance _ _ _ Hrest) as (Hc & Hi & Hall).
    exists first, rest. split; [reflexivity|]. split; [exact Hfirst|].
    unfold count_clones, count_instances in *. cbn [filter].
    replace (is_clone first) with true by (unfold is_clone; now rewrite Hfirst).
    replace (is_instance first) with false by (unfold is_instance; now rewrite Hfirst).
    cbn [length]. rewrite Hc, Hi, Hp1. repeat split; auto. lia.
Qed.

Lemma BuildStackGeometry_clones_and_instances_witness :
  let N := length (layout_items (_array Example.generated)) in
  exists result,
    BuildStackGeometry Example.generated 100%nat Example.child Matrix_default true
    = Some result
    /\ length (children result) = N
    /\ (true = false ->
        count_clones (children result) = N
        /\ count_instances (children result) = 0%nat
        /\ Forall (fun it => item_kind it = IsClone 7%nat) (children result))
    /\ (true = true ->
        (0 < N)%nat -> Z.of_nat N <= Int32.max_signed ->
        exists first rest,
          children result = first :: rest
          /\ item_kind first = IsClone 7%nat
          /\ count_clones (children result) = 1%nat
          /\ count_instances (children result) = (N - 1)%nat
          /\ Forall (fun it => item_kind it = IsRenderInstance (Some (item_ptr first)))
                    rest).
Proof.
  apply (@BuildStackGeometry_clones_and_instances Example.sdk Example.generated
           100%nat Example.child Matrix_default true 7%nat).
  reflexivity.
Defined.

(* ================================================================= *)
(** * The matrices of the items *)

Section Transforms.

Context {sdk : Sdk}.

(** What holds of every result of the loop body holds of every item of
    the generated layout. *)
Lemma generate_items_Forall : forall (P : Matrix -> Prop) p pl r,
  (forall i rnd, P (fst (generate_item p pl r i rnd))) ->
  forall row i rnd, Forall P (fst (generate_items p pl r row i rnd)).
Proof.
  intros P p pl r HP. induction row as [|m row IH]; intros i rnd; [constructor|].
  cbn [generate_items]. specialize (HP i rnd).
  destruct (generate_item p pl r i rnd) as [mg' rnd1].
  specialize (IH (Int32.succ i) rnd1).
  destruct (generate_items p pl r row (Int32.succ i) rnd1) as [rest rnd2].
  constructor; assumption.
Qed.

Lemma generate_rows_Forall : forall (P : Matrix -> Prop) p pl,
  (forall r i rnd, P (fst (generate_item p pl r i rnd))) ->
  forall rows k rnd, Forall P (layout_items (fst (generate_rows p pl rows k rnd))).
Proof.
  intros P p pl HP. unfold layout_items.
  induction rows as [|row rows IH]; intros k rnd; [constructor|].
  cbn [generate_rows].
  pose proof (generate_items_Forall P p pl k (HP k) row 0 rnd) as Hrow.
  destruct (generate_items p pl k row 0 rnd) as [row' rnd1].
  specialize (IH (Int32.succ k) rnd1).
  destruct (generate_rows p pl rows (Int32.succ k) rnd1) as [rest rnd2].
  cbn [fst concat] in *. apply Forall_app. split; assumption.
Qed.

(** On a path spline the loop body ends with the product by the global
    matrix of the spline. *)
Lemma generate_item_on_spline : forall p basePath splineMg d relDistance r i rnd,
  exists local,
    fst (generate_item p (OnSpline basePath splineMg d relDistance) r i rnd)
    = Matrix_mul splineMg local.
Proof.
  intros. unfold generate_item.
  destruct (Random_Get11 rnd) as [r0 rnd0].
  destruct (Random_Get11 rnd0) as [r1 rnd1].
  destruct (Random_Get11 rnd1) as [r2 rnd2].
  eexists. reflexivity.
Qed.

End Transforms.

(** C9. The matrix [BuildStackGeometry] gives an item depends on the mode
    the layout was generated in.  With a path spline, [GenerateStack] has
    stored every item matrix as the product of the global matrix of the
    spline and a matrix local to it, and the item gets [~mg * item->mg],
    [mg] being the global matrix of the generator.  Without a path spline
    the item gets the stored matrix itself. *)
Theorem BuildStackGeometry_item_matrices :
  forall {sdk : Sdk} (g0 g : CanStackGenerator) (heap : ObjPtr)
         (originalObject : BaseObject) (mg : Matrix)
         (useRenderInstances : bool) (result : ResultParent),
    GenerateStack g0 = (true, g) ->
    BuildStackGeometry g heap originalObject mg useRenderInstances = Some result ->
    match _basePath (_params g) with
    | Some basePath =>
        Forall (fun m => exists local, m = Matrix_mul (GetMg basePath) local)
               (layout_items (_array g))
        /\ map item_ml (children result)
           = map (fun m => Matrix_mul (Matrix_inv mg) m) (layout_items (_array g))
    | None =>
        map item_ml (children result) = layout_items (_array g)
    end.
Proof.
  intros sdk g0 g heap originalObject mg useRenderInstances result Hgen Hbuild.
  unfold BuildStackGeometry in Hbuild.
  destruct (objectToClone_of originalObject) as [template|]; [|discriminate].
  injection Hbuild as <-. cbn [children]. rewrite build_rows_concat.
  destruct (build_items_inserted (_params g) template mg useRenderInstances
              (layout_items (_array g)) (mkBuildState 0 None (S heap) []))
    as (Hml & _ & _).
  cbv zeta in Hml. cbn [inserted map app] in Hml. rewrite Hml.
  unfold item_matrix.
  destruct (GenerateStack_keeps g0) as (Hp & _ & _). rewrite Hgen in Hp.
  cbn [snd] in Hp.
  destruct (_basePath (_params g)) as [basePath|] eqn:Hpath; [|apply map_id].
  split; [|reflexivity].
  rewrite Hp in Hpath. unfold GenerateStack in Hgen.
  destruct (_initialized g0); cbn [negb] in Hgen; [|discriminate].
  unfold prepare in Hgen. rewrite Hpath in Hgen.
  destruct (SplineLengthData_Init _ basePath) as [ok d].
  destruct ok; cbn [negb] in Hgen; [|discriminate].
  unfold run_loops in Hgen.
  match type of Hgen with
  | context [generate_rows ?p ?pl ?rows ?k ?rnd] =>
      pose proof (generate_rows_Forall
                    (fun m => exists local, m = Matrix_mul (GetMg basePath) local)
                    p pl) as HF;
      specialize (HF (fun r i rnd' =>
                        generate_item_on_spline p basePath (GetMg basePath) d _ r i rnd')
                     rows k rnd);
      destruct (generate_rows p pl rows k rnd) as [a rnd2]
  end.
  injection Hgen as <-. exact HF.
Qed.

Lemma BuildStackGeometry_item_matrices_witness :
  match _basePath (_params Example.generated_path) with
  | Some basePath =>
      Forall (fun m => exists local, m = Matrix_mul (GetMg basePath) local)
             (layout_items (_array Example.generated_path))
      /\ map item_ml (children Example.assembled_path)
         = map (fun m => Matrix_mul (Matrix_inv Matrix_default) m)
               (layout_items (_array Example.generated_path))
  | None =>
      map item_ml (children Example.assembled_path)
      = layout_items (_array Example.generated_path)
  end.
Proof.
  apply (@BuildStackGeometry_item_matrices Example.sdk
           Example.configured_path Example.generated_path 100%nat
           Example.child Matrix_default true Example.assembled_path).
  - reflexivity.
  - reflexivity.
Defined.

(* ================================================================= *)
(** * The items of the generated layout, place by place *)

Lemma firstn_concat_length : forall (T : Type) (rows : list (list T)) row r,
  length (concat (firstn (S r) (row :: rows)))
  = (length row + length (concat (firstn r rows)))%nat.
Proof. intros. cbn [firstn concat]. apply length_app. Qed.

Section Places.

Context {sdk : Sdk}.

Lemma draws_add : forall a b rnd, draws (a + b) rnd = draws b (draws a rnd).
Proof.
  induction a as [|a IH]; intros b rnd; [reflexivity|].
  cbn [Nat.add draws]. apply IH.
Qed.

(** The loop body draws three times. *)
Lemma generate_item_draws : forall p pl r i rnd,
  snd (generate_item p pl r i rnd) = draws 3 rnd.
Proof.
  intros. unfold generate_item. cbn [draws].
  destruct (Random_Get11 rnd) as [r0 rnd0]. cbn [snd].
  destruct pl.
  - destruct (Random_Get11 rnd0) as [r1 rnd1]. cbn [snd].
    destruct (Random_Get11 rnd1) as [r2 rnd2]. reflexivity.
  - destruct (Random_Get11 rnd0) as [r1 rnd1]. cbn [snd].
    destruct (Random_Get11 rnd1) as [r2 rnd2]. reflexivity.
Qed.

(** The inner loop: place [i] of the row is made by the loop body with
    item index [i0 + i], after the [3 * i] draws of the places before it. *)
Lemma generate_items_place : forall p pl r row i0 rnd,
  0 <= i0 -> i0 + Z.of_nat (length row) <= Int32.max_signed ->
  snd (generate_items p pl r row i0 rnd) = draws (3 * length row) rnd
  /\ forall i m,
       nth_error (fst (generate_items p pl r row i0 rnd)) i = Some m ->
       m = fst (generate_item p pl r (i0 + Z.of_nat i) (draws (3 * i) rnd)).
Proof.
  intros p pl r. induction row as [|m0 row IH]; intros i0 rnd Hi0 Hmax.
  - split; [reflexivity|]. intros [|i] m H; discriminate.
  - cbn [length] in Hmax. cbn [generate_items].
    pose proof (generate_item_draws p pl r i0 rnd) as Hd.
    destruct (generate_item p pl r i0 rnd) as [mg rnd1] eqn:Eitem.
    cbn [snd] in Hd. subst rnd1.
    rewrite Int32_succ_id by lia.
    destruct (IH (i0 + 1) (draws 3 rnd) ltac:(lia) ltac:(lia)) as [Hrnd Hnth].
    destruct (generate_items p pl r row (i0 + 1) (draws 3 rnd)) as [rest rnd2].
    cbn [fst snd] in *. split.
    + rewrite Hrnd, <- draws_add. f_equal. cbn [length]. lia.
    + intros [|i] m H; cbn [nth_error] in H.
      * injection H as <-. change (3 * 0)%nat with 0%nat. cbn [draws Z.of_nat].
        rewrite Z.add_0_r, Eitem. reflexivity.
      * apply Hnth in H. subst m. rewrite <- draws_add.
        replace (i0 + Z.of_nat (S i)) with (i0 + 1 + Z.of_nat i) by lia.
        replace (3 * S i)%nat with (3 + 3 * i)%nat by lia. reflexivity.
Qed.

(** The outer loop: place [i] of row [r] is made by the loop body with
    row index [k0 + r] and item index [i], after three draws for each of
    the items before it. *)
Lemma generate_rows_place : forall p pl rows k0 rnd,
  0 <= k0 -> k0 + Z.of_nat (length rows) <= Int32.max_signed ->
  Forall (fun row => Z.of_nat (length row) <= Int32.max_signed) rows ->
  forall r i m,
    cell (fst (generate_rows p pl rows k0 rnd)) r i = Some m ->
    m = fst (generate_item p pl (k0 + Z.of_nat r) (Z.of_nat i)
               (draws (3 * items_before rows r i) rnd)).
Proof.
  intros p pl. induction rows as [|row rows IH]; intros k0 rnd Hk0 Hmax Hrows r i m H.
  - destruct r; discriminate.
  - cbn [length] in Hmax. inversion Hrows as [|? ? Hrow Hrest]; subst.
    cbn [generate_rows] in H.
    destruct (generate_items_place p pl k0 row 0 rnd ltac:(lia) ltac:(lia))
      as [Hrnd Hnth].
    destruct (generate_items p pl k0 row 0 rnd) as [row' rnd1].
    cbn [fst snd] in *. subst rnd1.
    rewrite Int32_succ_id in H by lia.
    specialize (IH (k0 + 1) (draws (3 * length row) rnd) ltac:(lia) ltac:(lia) Hrest).
    destruct (generate_rows p pl rows (k0 + 1) (draws (3 * length row) rnd))
      as [rest rnd2].
    cbn [fst] in *. unfold cell in H. destruct r as [|r]; cbn [nth_error] in H.
    + apply Hnth in H. subst m. unfold items_before. cbn [firstn concat length Z.of_nat].
      rewrite Z.add_0_r, Z.add_0_l. reflexivity.
    + specialize (IH r i m). unfold cell in IH. specialize (IH H). subst m.
      unfold items_before. rewrite firstn_concat_length, <- draws_add.
      replace (k0 + Z.of_nat (S r)) with (k0 + 1 + Z.of_nat r) by lia.
      replace (3 * (length row + length (concat (firstn r rows)) + i))%nat
        with (3 * length row + 3 * (length (concat (firstn r rows)) + i))%nat by lia.
      reflexivity.
Qed.

(** The grid of a reachable generator whose flag is set stays within the
    range of the loop counters. *)
Lemma Reachable_sizes : forall g,
  Reachable g -> _initialized g = true ->
  Z.of_nat (length (_array g)) <= Int32.max_signed
  /\ Forall (fun row => Z.of_nat (length row) <= Int32.max_signed) (_array g).
Proof.
  intros g Hreach Hinit.
  destruct (Reachable_inv g Hreach) as ((Hb & _) & Hi & Hs).
  destruct (Hi Hinit) as [Hb1 Hr0]. destruct (Hs Hb1 Hr0) as [_ Hshape].
  unfold stack_shape in Hshape. unfold Int32.in_range in Hb.
  set (n := Z.to_nat (Z.min (_baseCount (_params g)) (_rowCount (_params g)))) in *.
  split.
  - rewrite <- (length_map BaseArray.GetCount). fold (row_sizes (_array g)).
    rewrite Hshape, triangle_length. subst n. lia.
  - apply Forall_forall. intros row Hin.
    apply (in_map BaseArray.GetCount) in Hin. fold (row_sizes (_array g)) in Hin.
    rewrite Hshape in Hin. unfold BaseArray.GetCount in Hin.
    assert (Hle : forall k b s, In s (triangle b k) -> s <= b).
    { clear. induction k as [|k IH]; intros b s H; [contradiction|].
      cbn in H. destruct H as [<- | H]; [lia|]. apply IH in H. lia. }
    apply Hle in Hin. lia.
Qed.

(** The items of a layout that [GenerateStack] made on a reachable
    generator, place by place. *)
Lemma GenerateStack_place : forall g g',
  Reachable g -> GenerateStack g = (true, g') ->
  exists pl,
    fst (prepare g) = Some pl
    /\ forall r i m,
         cell (_array g') r i = Some m ->
         m = fst (generate_item (_params g) pl (Z.of_nat r) (Z.of_nat i)
                    (draws (3 * items_before (_array g) r i) (_random g))).
Proof.
  intros g g' Hreach Hgen. unfold GenerateStack in Hgen.
  destruct (_initialized g) eqn:Hinit; cbn [negb] in Hgen; [|discriminate].
  destruct (Reachable_sizes g Hreach Hinit) as [Hlen Hrows].
  destruct (prepare_keeps g) as (Hp & Ha & _ & Hr).
  destruct (prepare g) as [[pl|] g1]; [|discriminate].
  cbn [fst snd] in *. exists pl. split; [reflexivity|].
  unfold run_loops in Hgen. rewrite Hp, Ha, Hr in Hgen.
  pose proof (generate_rows_place (_params g) pl (_array g) 0 (_random g)
                ltac:(lia) ltac:(lia) Hrows) as Hplace.
  destruct (generate_rows (_params g) pl (_array g) 0 (_random g)) as [a rnd].
  injection Hgen as <-. cbn [_array set_array set_random fst] in *.
  intros r i m Hcell. apply Hplace in Hcell. rewrite Z.add_0_l in Hcell. exact Hcell.
Qed.

End Places.

(* ================================================================= *)
(** * Straight stacks without random offsets *)

Lemma Float_in_range_finite : forall v : Float,
  Float.leb (Float.of_int (-1)) v = true -> Float.leb v Float.one = true ->
  Float.is_finite v = true.
Proof.
  intros v Hlo Hhi. destruct v as [s|s| |s m e]; try reflexivity.
  - destruct s; [discriminate Hlo | discriminate Hhi].
  - discriminate Hlo.
Qed.

Lemma Float_mul_finite_zero : forall v o : Float,
  Float.is_finite v = true -> Float.is_zero o = true ->
  Float.is_zero (Float.mul v o) = true.
Proof.
  intros v o Hv Ho. destruct o; try discriminate.
  destruct v; try discriminate; reflexivity.
Qed.

Lemma Float_add_zero_r : forall a o : Float,
  Float.is_zero o = true -> Float.same_value (Float.add a o) a.
Proof.
  intros a o Ho. destruct o as [so| | |]; try discriminate.
  destruct a as [sa|sa| |sa m e].
  - right. split; [|reflexivity]. destruct sa, so; reflexivity.
  - left. reflexivity.
  - left. reflexivity.
  - left. reflexivity.
Qed.

(** The position the loop body computes in a straight stack. *)
Lemma generate_item_straight : forall {sdk : Sdk} p distance r i rnd,
  off (fst (generate_item p (Straight distance) r i rnd))
  = mkVector
      (Float.mul (fst (Random_Get11
                         (draws (if Vector_args_left_to_right then 1 else 2) rnd)))
                 (_randomOffX p))
      (Float.mul (_rowHeight p) (Float.of_int r))
      (Float.add
         (Float.add (Float.mul distance (Float.of_int i))
                    (Float.mul (Float.mul distance (Float.of_int r)) Float.half))
         (Float.mul (fst (Random_Get11
                            (draws (if Vector_args_left_to_right then 2 else 1) rnd)))
                    (_randomOffZ p))).
Proof.
  intros. unfold generate_item.
  destruct Vector_args_left_to_right; cbn [draws];
    destruct (Random_Get11 rnd) as [r0 rnd0]; cbn [snd];
    destruct (Random_Get11 rnd0) as [r1 rnd1]; cbn [snd fst];
    destruct (Random_Get11 rnd1) as [r2 rnd2]; reflexivity.
Qed.

(** C5. In a straight stack (no path spline) whose random offsets are
    zero, whatever the random rotation, [GenerateStack] puts the item of
    row [r], place [i] at [(0, rowHeight * r, spacing * i + spacing * r * 0.5)]
    with [spacing = baseLength / baseCount]: the x component is a zero,
    the y component is that very product, and the z component has the
    value of that sum (the two can differ in the sign of a zero only). *)
Theorem GenerateStack_straight_positions :
  forall {sdk : Sdk} (g g' : CanStackGenerator),
    Reachable g -> Get11_in_range ->
    _basePath (_params g) = None ->
    Float.is_zero (_randomOffX (_params g)) = true ->
    Float.is_zero (_randomOffZ (_params g)) = true ->
    GenerateStack g = (true, g') ->
    forall (r i : nat) (m : Matrix),
      cell (_array g') r i = Some m ->
      let spacing :=
        Float.div (_baseLength (_params g)) (Float.of_int (_baseCount (_params g))) in
      Float.same_value (x (off m)) Float.zero
      /\ y (off m) = Float.mul (_rowHeight (_params g)) (Float.of_int (Z.of_nat r))
      /\ Float.same_value
           (z (off m))
           (Float.add (Float.mul spacing (Float.of_int (Z.of_nat i)))
                      (Float.mul (Float.mul spacing (Float.of_int (Z.of_nat r)))
                                 Float.half)).
Proof.
  intros sdk g g' Hreach Hrange Hpath HoffX HoffZ Hgen r i m Hcell spacing.
  destruct (GenerateStack_place g g' Hreach Hgen) as (pl & Hpl & Hplace).
  apply Hplace in Hcell. clear Hplace.
  unfold prepare in Hpl. rewrite Hpath in Hpl. cbn [fst] in Hpl.
  injection Hpl as <-. fold spacing in Hcell. subst m.
  rewrite generate_item_straight. cbn [x y z].
  match goal with
  | |- context [Float.mul (fst (Random_Get11 ?s1)) (_randomOffX _)] =>
      destruct (Hrange s1) as [Hlo1 Hhi1];
      pose proof (Float_mul_finite_zero _ _ (Float_in_range_finite _ Hlo1 Hhi1) HoffX)
        as Hx
  end.
  match goal with
  | |- context [Float.mul (fst (Random_Get11 ?s2)) (_randomOffZ _)] =>
      destruct (Hrange s2) as [Hlo2 Hhi2];
      pose proof (Float_mul_finite_zero _ _ (Float_in_range_finite _ Hlo2 Hhi2) HoffZ)
        as Hz
  end.
  split; [|split].
  - right. split; [exact Hx | reflexivity].
  - reflexivity.
  - apply Float_add_zero_r. exact Hz.
Qed.

Lemma Example_Get11_in_range : @Get11_in_range Example.sdk.
Proof.
  intros rnd. cbn [Random_Get11 Example.sdk]. unfold Example.Get11. cbn [fst].
  destruct (rnd mod 3 =? 0); [split; reflexivity|].
  destruct (rnd mod 3 =? 1); split; reflexivity.
Defined.

Lemma GenerateStack_straight_positions_witness :
  let spacing :=
    Float.div (_baseLength (_params Example.configured))
              (Float.of_int (_baseCount (_params Example.configured))) in
  Float.same_value (x (off Example.item_1_1)) Float.zero
  /\ y (off Example.item_1_1)
     = Float.mul (_rowHeight (_params Example.configured)) (Float.of_int (Z.of_nat 1))
  /\ Float.same_value
       (z (off Example.item_1_1))
       (Float.add (Float.mul spacing (Float.of_int (Z.of_nat 1)))
                  (Float.mul (Float.mul spacing (Float.of_int (Z.of_nat 1)))
                             Float.half)).
Proof.
  refine (@GenerateStack_straight_positions Example.sdk Example.configured
            Example.generated _ Example_Get11_in_range _ _ _ _
            1%nat 1%nat Example.item_1_1 _).
  - apply reach_InitStack; [apply reach_new|].
    unfold params_typed, Int32.in_range, UInt32.in_range,
      Int32.min_signed, Int32.max_signed; cbn; lia.
  - reflexivity.
  - reflexivity.
  - reflexivity.
  - reflexivity.
  - reflexivity.
Defined.

(** The stack of three rows on a base of three items, of length 30 and
    row height 10: rows of 3, 2 and 1 items, six in all, at the heights 0,
    10 and 20, the base row at 0, 10 and 20 along the stack, the second
    row at 5 and 15, the third at 10. *)
Lemma Example_three_rows :
  row_sizes (_array Example.generated) = [3; 2; 1]
  /\ total_items (_array Example.generated) = 6
  /\ map (map (fun m => (y (off m), z (off m)))) (_array Example.generated)
     = [[(Float.of_int 0, Float.of_int 0); (Float.of_int 0, Float.of_int 10);
         (Float.of_int 0, Float.of_int 20)];
        [(Float.of_int 10, Float.of_int 5); (Float.of_int 10, Float.of_int 15)];
        [(Float.of_int 20, Float.of_int 10)]].
Proof. repeat split; vm_compute; reflexivity. Qed.

(* ================================================================= *)
(** * The layout as a function of the parameters *)

Lemma items_before_sizes : forall (a1 a2 : StackRowArray) r i,
  row_sizes a1 = row_sizes a2 -> items_before a1 r i = items_before a2 r i.
Proof.
  unfold items_before. intros a1 a2 r i H. f_equal. revert a2 r H.
  induction a1 as [|row1 a1 IH]; intros [|row2 a2] r H; try discriminate.
  - reflexivity.
  - cbn [row_sizes map] in H. injection H as Hrow Hrest.
    destruct r as [|r]; [reflexivity|].
    rewrite !firstn_concat_length. unfold BaseArray.GetCount in Hrow.
    rewrite (IH a2 r Hrest). lia.
Qed.

Lemma nth_error_ext_length : forall (T : Type) (l1 l2 : list T),
  length l1 = length l2 ->
  (forall i m1 m2, nth_error l1 i = Some m1 -> nth_error l2 i = Some m2 -> m1 = m2) ->
  l1 = l2.
Proof.
  induction l1 as [|m1 l1 IH]; intros [|m2 l2] Hlen H; try discriminate.
  - reflexivity.
  - f_equal.
    + apply (H 0%nat); reflexivity.
    + apply IH; [now injection Hlen|].
      intros i n1 n2 H1 H2. apply (H (S i)); assumption.
Qed.

(** Two layouts of the same shape with the same items are the same. *)
Lemma cell_ext : forall a1 a2 : StackRowArray,
  row_sizes a1 = row_sizes a2 ->
  (forall r i m1 m2, cell a1 r i = Some m1 -> cell a2 r i = Some m2 -> m1 = m2) ->
  a1 = a2.
Proof.
  induction a1 as [|row1 a1 IH]; intros [|row2 a2] Hs H; try discriminate.
  - reflexivity.
  - cbn [row_sizes map] in Hs. injection Hs as Hrow Hrest. f_equal.
    + apply nth_error_ext_length; [unfold BaseArray.GetCount in Hrow; lia|].
      intros i m1 m2 H1 H2. apply (H 0%nat i); assumption.
    + apply IH; [exact Hrest|].
      intros r i m1 m2 H1 H2. apply (H (S r) i); assumption.
Qed.

Section Determined.

Context {sdk : Sdk}.

(** When the length data is built from the spline alone, the prologue
    arrives at the placement of the stored parameters. *)
Lemma prepare_placement : forall g,
  Init_rebuilds -> Int32.in_range (_baseCount (_params g)) ->
  1 <= _baseCount (_params g) ->
  fst (prepare g) = placement_for (_params g).
Proof.
  intros g Hinit Hrange Hb. unfold prepare, placement_for.
  destruct (_basePath (_params g)) as [basePath|]; [|reflexivity].
  match goal with
  | |- context [SplineLengthData_Init ?d basePath] =>
      rewrite (Hinit d SplineLengthData_Alloc basePath)
  end.
  destruct (SplineLengthData_Init SplineLengthData_Alloc basePath) as [ok d'].
  destruct ok; cbn [negb fst]; [|reflexivity].
  cbn [_params set_splineLengthData]. rewrite Int32_sub_id; [reflexivity|].
  unfold Int32.in_range, Int32.min_signed, Int32.max_signed in *.
  change (2 ^ 31) with 2147483648 in *. lia.
Qed.

(** After a successful [InitStack] on a generator whose stored parameters
    fit, the stored parameters are the given ones and the random number
    generator is seeded. *)
Lemma InitStack_stores : forall params g,
  stored_fits params g -> fst (InitStack params g) = true ->
  _params (snd (InitStack params g)) = params
  /\ _random (snd (InitStack params g)) = Random_Init (_randomSeed params).
Proof.
  intros params g Hfit Hok. unfold InitStack in *. cbn [_params set_random] in *.
  destruct (StackParameters_eqb params (_params g)) eqn:E.
  - destruct Hfit as [Hfit | Hfit]; [congruence|]. cbn. auto.
  - destruct (_baseCount params <? 1); [discriminate|].
    cbn [_params set_params] in *.
    match goal with
    | |- context [ResizeStack ?b ?r ?g0] =>
        rewrite (ResizeStack_array g0 b r) in *;
        destruct (fst (ResizeStack b r g0))
    end; [|discriminate]. cbn. auto.
Qed.

(** The layout that [InitStack] and [GenerateStack] arrive at, place by
    place, from the parameters alone. *)
Lemma configure_generate_place : forall params g,
  Reachable g -> Init_rebuilds -> params_typed params ->
  1 <= _baseCount params -> 0 <= _rowCount params ->
  stored_fits params g ->
  let g' := snd (configure_generate params g) in
  match placement_for params with
  | None => fst (configure_generate params g) = false
  | Some pl =>
      fst (configure_generate params g) = true
      /\ row_sizes (_array g') = stack_shape params
      /\ forall r i m,
           cell (_array g') r i = Some m ->
           m = fst (generate_item params pl (Z.of_nat r) (Z.of_nat i)
                      (draws (3 * items_before (_array g') r i)
                             (Random_Init (_randomSeed params))))
  end.
Proof.
  intros params g Hreach Hinit Hp Hb Hr Hfit g'. subst g'.
  destruct (InitStack_shape params g (Reachable_inv g Hreach) Hp Hb Hr)
    as (Hok & Hflag & Hshape).
  destruct (InitStack_stores params g Hfit Hok) as [Hstored Hseed].
  pose proof (reach_InitStack params g Hreach Hp) as Hreach1.
  unfold configure_generate.
  destruct (InitStack params g) as [ok g1]. cbn [fst snd] in *. subst ok.
  cbn [negb].
  pose proof (prepare_placement g1 Hinit) as Hpl.
  rewrite Hstored in Hpl. specialize (Hpl (proj1 Hp) Hb).
  destruct (GenerateStack_keeps g1) as (_ & _ & Hsizes).
  destruct (GenerateStack g1) as [ok2 g2] eqn:Hgen. cbn [fst snd] in *.
  destruct ok2.
  - destruct (GenerateStack_place g1 g2 Hreach1 Hgen) as (pl & Hpl' & Hplace).
    rewrite Hpl in Hpl'. rewrite Hpl'.
    split; [reflexivity|]. split; [congruence|].
    intros r i m Hcell. apply Hplace in Hcell.
    rewrite Hstored, Hseed in Hcell.
    rewrite (items_before_sizes (_array g2) (_array g1) r i Hsizes). exact Hcell.
  - unfold GenerateStack in Hgen. rewrite Hflag in Hgen. cbn [negb] in Hgen.
    destruct (prepare g1) as [[pl|] g1'] eqn:Hprep; cbn [fst] in Hpl.
    + unfold run_loops in Hgen. destruct (generate_rows _ _ _ _ _). discriminate.
    + rewrite <- Hpl. reflexivity.
Qed.

End Determined.

(** C2, at the failing input.  Two runs of [InitStack] followed by
    [GenerateStack] with the same parameters, the stack of three rows on
    path spline 1, both succeed and end in different layouts.  On a new
    generator the items follow the spline, which runs along the z axis in
    the example: the base row lies at z = 0, 1/2, 1.  On a generator that holds the same parameters without
    the path spline, [operator ==] takes the given parameters for the
    stored ones, [InitStack] returns early and keeps the stored null path,
    and [GenerateStack] lays the stack out straight, at 0, 10, 20. *)
Theorem configure_generate_depends_on_history :
  let run1 := configure_generate Example.params_3_3_path Generator_new in
  let run2 := configure_generate Example.params_3_3_path Example.configured in
  let along := map (map (fun m : Matrix => z (off m))) in
  fst run1 = true
  /\ fst run2 = true
  /\ _basePath (_params (snd run1)) = _basePath Example.params_3_3_path
  /\ _basePath (_params (snd run2)) = None
  /\ along (_array (snd run1))
     = [[Float.zero; Float.half; Float.one];
        [Float.div Float.one (Float.of_int 4);
         Float.div (Float.of_int 3) (Float.of_int 4)];
        [Float.half]]
  /\ along (_array (snd run2))
     = [[Float.zero; Float.of_int 10; Float.of_int 20];
        [Float.of_int 5; Float.of_int 15];
        [Float.of_int 10]]
  /\ _array (snd run1) <> _array (snd run2).
Proof.
  cbv zeta. repeat split; try (vm_compute; reflexivity).
  intros H.
  apply (f_equal (map (map (fun m : Matrix => z (off m))))) in H.
  vm_compute in H. discriminate H.
Qed.

(** X23. Two runs of [InitStack] followed by [GenerateStack] with the same
    parameters (seed and path spline included; [baseCount >= 1], the row
    count not negative) end alike on any two reachable generators whose
    stored parameters are the given ones or are told apart from them by
    [operator ==], a new generator among them, when the length data is
    built from the spline alone: both fail or both succeed, and then the
    two layouts are the same.  The item of row [r], place [i] is the one
    the loop body computes after three draws for each item before it, rows
    first and places within a row next, counted from the seeded state; so
    the seed fixes the layout. *)
Theorem configure_generate_deterministic :
  forall {sdk : Sdk} (g1 g2 : CanStackGenerator) (params : StackParameters),
    Init_rebuilds ->
    Reachable g1 -> Reachable g2 ->
    stored_fits params g1 -> stored_fits params g2 ->
    params_typed params -> 1 <= _baseCount params ->
    let a1 := _array (snd (configure_generate params g1)) in
    let a2 := _array (snd (configure_generate params g2)) in
    fst (configure_generate params g1) = fst (configure_generate params g2)
    /\ (fst (configure_generate params g1) = true ->
        a1 = a2
        /\ exists pl,
             placement_for params = Some pl
             /\ forall r i m,
                  cell a1 r i = Some m ->
                  m = fst (generate_item params pl (Z.of_nat r) (Z.of_nat i)
                             (draws (3 * items_before a1 r i)
                                    (Random_Init (_randomSeed params))))).
Proof.
  intros sdk g1 g2 params Hinit Hr1 Hr2 Hf1 Hf2 Hp Hb a1 a2.
  assert (Hr : 0 <= _rowCount params) by apply Hp.
  pose proof (configure_generate_place params g1 Hr1 Hinit Hp Hb Hr Hf1) as H1.
  pose proof (configure_generate_place params g2 Hr2 Hinit Hp Hb Hr Hf2) as H2.
  cbv zeta in H1, H2. fold a1 in H1. fold a2 in H2.
  destruct (placement_for params) as [pl|].
  - destruct H1 as (Hok1 & Hs1 & Hc1). destruct H2 as (Hok2 & Hs2 & Hc2).
    split; [congruence|]. intros _. split.
    + apply cell_ext; [congruence|].
      intros r i m1 m2 Hm1 Hm2. apply Hc1 in Hm1. apply Hc2 in Hm2.
      rewrite (items_before_sizes a1 a2 r i) in Hm1 by congruence. congruence.
    + exists pl. split; [reflexivity | exact Hc1].
  - split; [congruence|]. intros Hok. congruence.
Qed.

Lemma configure_generate_deterministic_witness :
  let a1 := _array (snd (configure_generate Example.params_3_3_path Generator_new)) in
  let a2 := _array (snd (configure_generate Example.params_3_3_path Example.generated_5_2)) in
  fst (configure_generate Example.params_3_3_path Generator_new)
  = fst (configure_generate Example.params_3_3_path Example.generated_5_2)
  /\ (fst (configure_generate Example.params_3_3_path Generator_new) = true ->
      a1 = a2
      /\ exists pl,
           placement_for Example.params_3_3_path = Some pl
           /\ forall r i m,
                cell a1 r i = Some m ->
                m = fst (generate_item Example.params_3_3_path pl
                           (Z.of_nat r) (Z.of_nat i)
                           (draws (3 * items_before a1 r i)
                                  (Random_Init (_randomSeed Example.params_3_3_path))))).
Proof.
  assert (Ht : forall p, 0 <= _baseCount p <= 5 -> 0 <= _rowCount p <= 5 ->
                         _randomSeed p = 12345 -> params_typed p).
  { intros p Hb Hr Hs. unfold params_typed, Int32.in_range, UInt32.in_range,
      Int32.min_signed, Int32.max_signed. rewrite Hs.
    change (2 ^ 31) with 2147483648. change (2 ^ 32) with 4294967296. lia. }
  apply (@configure_generate_deterministic Example.sdk Generator_new
           Example.generated_5_2 Example.params_3_3_path).
  - intros d d' basePath. reflexivity.
  - apply reach_new.
  - change Example.generated_5_2
      with (snd (GenerateStack (snd (InitStack Example.params_5_2 Generator_new)))).
    apply reach_GenerateStack, reach_InitStack; [apply reach_new|].
    apply Ht; cbn; try lia; reflexivity.
  - left. reflexivity.
  - left. reflexivity.
  - apply Ht; cbn; try lia; reflexivity.
  - cbn; lia.
Defined.

(* ================================================================= *)
(** * A single item on a path spline *)

(** C6, at the failing input.  With [_baseCount = 1] and a path spline
    [InitStack] and [GenerateStack] succeed; the relative distance is the
    quotient [1.0 / 0.0], which is plus infinity and not zero, the fraction
    handed to [UniformToNatural] for the only item is not a number, and so
    is the position of that item. *)
Theorem GenerateStack_single_item_on_spline :
  fst (InitStack Example.params_1_path Generator_new) = true
  /\ Float.div Float.one (Float.of_int (Int32.sub 1 1)) = S754_infinity false
  /\ (exists basePath splineMg lengthData,
        fst (prepare (snd (InitStack Example.params_1_path Generator_new)))
        = Some (OnSpline basePath splineMg lengthData (S754_infinity false)))
  /\ spline_fraction (S754_infinity false) 0 0 = S754_nan
  /\ fst (configure_generate Example.params_1_path Generator_new) = true
  /\ option_map (fun m => z (off m))
       (cell (_array (snd (configure_generate Example.params_1_path Generator_new)))
             0 0)
     = Some S754_nan.
Proof.
  split; [reflexivity|]. split; [reflexivity|]. split.
  - exists 1%positive, Matrix_default, tt. reflexivity.
  - repeat split; vm_compute; reflexivity.
Qed.

(* ================================================================= *)
(** * Rounding to nearest in binary64 *)

(** ** The number of binary digits *)

Lemma Zdigits2_log2 : forall p, Zdigits2 (Zpos p) = Z.log2 (Zpos p) + 1.
Proof.
  intros p. cbn [Zdigits2].
  assert (H : forall q, digits2_pos q = Pos.size q).
  { induction q; cbn; congruence. }
  rewrite H. destruct p; cbn; lia.
Qed.

(** A positive number between [2 ^ (k - 1)] and [2 ^ k] has [k] digits. *)
Lemma Zdigits2_spec : forall p k,
  2 ^ (k - 1) <= Zpos p < 2 ^ k -> 1 <= k -> Zdigits2 (Zpos p) = k.
Proof.
  intros p k H Hk. rewrite Zdigits2_log2.
  rewrite (Z.log2_unique (Zpos p) (k - 1)); try lia.
  replace (Z.succ (k - 1)) with k by lia. exact H.
Qed.

Lemma Zdigits2_bounds : forall p,
  2 ^ (Zdigits2 (Zpos p) - 1) <= Zpos p < 2 ^ Zdigits2 (Zpos p)
  /\ 1 <= Zdigits2 (Zpos p).
Proof.
  intros p. rewrite Zdigits2_log2.
  pose proof (Z.log2_spec (Zpos p) ltac:(lia)) as H.
  pose proof (Z.log2_nonneg (Zpos p)).
  replace (Z.log2 (Zpos p) + 1 - 1) with (Z.log2 (Zpos p)) by lia.
  replace (Z.log2 (Zpos p) + 1) with (Z.succ (Z.log2 (Zpos p))) by lia.
  split; [exact H | lia].
Qed.

(** ** Right shifts

    One shift to the right turns a record for the quotient by [D] into a
    record for the quotient by [2 * D]: the bit that leaves the mantissa
    becomes the round bit, and the old round bit joins the sticky bit. *)
Lemma shr_1_represents : forall rec D A,
  0 < D -> 0 <= A -> represents rec D A -> represents (shr_1 rec) (2 * D) A.
Proof.
  intros [m r s] D A HD HA [Hm Hl]. cbn [shr_m] in Hm.
  pose proof (Z.div_mod A D ltac:(lia)) as Hdm.
  pose proof (Z.mod_pos_bound A D HD) as Hrem.
  assert (Hq : A / (2 * D) = m / 2).
  { rewrite Hm, Z.mul_comm. symmetry. apply Z.div_div; lia. }
  assert (Hr : A mod (2 * D) = A mod D + D * (m mod 2)).
  { rewrite Hm, (Z.mul_comm 2 D). apply Z.rem_mul_r; lia. }
  assert (Hm0 : 0 <= m) by (rewrite Hm; apply Z.div_pos; lia).
  unfold represents. rewrite Hq, Hr. clear Hq Hr.
  set (rem := A mod D) in *. clearbody rem.
  unfold loc_spec in *. cbn [loc_of_shr_record] in Hl.
  assert (Hcases : (m mod 2 = 0 /\ shr_1 (Build_shr_record m r s)
                      = Build_shr_record (m / 2) false (r || s))
                   \/ (m mod 2 = 1 /\ shr_1 (Build_shr_record m r s)
                      = Build_shr_record (m / 2) true (r || s))).
  { destruct m as [|p|p]; [left; split; reflexivity | | lia].
    destruct p as [p|p|].
    - right. split; [rewrite Pos2Z.inj_xI | cbn [shr_1]; f_equal; rewrite Pos2Z.inj_xI].
      + rewrite Z.add_comm, Z.mul_comm, Z.mod_add; [reflexivity | lia].
      + symmetry. rewrite Z.add_comm, Z.mul_comm, Z.div_add; [reflexivity | lia].
    - left. split; [rewrite Pos2Z.inj_xO | cbn [shr_1]; f_equal; rewrite Pos2Z.inj_xO].
      + rewrite Z.mul_comm. apply Z.mod_mul. lia.
      + symmetry. rewrite Z.mul_comm. apply Z.div_mul. lia.
    - right. split; reflexivity. }
  destruct Hcases as [[Hpar ->] | [Hpar ->]]; rewrite Hpar; cbn [shr_m]; split;
    try reflexivity.
  - rewrite Z.mul_0_r, Z.add_0_r.
    destruct (rem =? 0) eqn:E0.
    + destruct r, s; try discriminate Hl. reflexivity.
    + apply Z.eqb_neq in E0.
      assert ((2 * rem ?= 2 * D) = Lt) as -> by (apply Z.compare_lt_iff; lia).
      destruct r, s; try reflexivity. discriminate Hl.
  - rewrite Z.mul_1_r.
    destruct (rem + D =? 0) eqn:E1; [apply Z.eqb_eq in E1; lia|].
    destruct (rem =? 0) eqn:E0.
    + apply Z.eqb_eq in E0. subst rem.
      assert ((2 * (0 + D) ?= 2 * D) = Eq) as -> by (apply Z.compare_eq_iff; lia).
      destruct r, s; try discriminate Hl. reflexivity.
    + apply Z.eqb_neq in E0.
      assert ((2 * (rem + D) ?= 2 * D) = Gt) as -> by (apply Z.compare_gt_iff; lia).
      destruct r, s; try reflexivity. discriminate Hl.
Qed.

Lemma pow2_xI : forall p, 2 ^ Zpos p~1 = 2 * (2 ^ Zpos p * 2 ^ Zpos p).
Proof.
  intros p. rewrite Pos2Z.inj_xI. rewrite Z.pow_add_r by lia.
  rewrite Z.pow_twice_r, Z.pow_1_r. ring.
Qed.

Lemma pow2_xO : forall p, 2 ^ Zpos p~0 = 2 ^ Zpos p * 2 ^ Zpos p.
Proof.
  intros p. change (Zpos p~0) with (2 * Zpos p). apply Z.pow_twice_r.
Qed.

(** Shifting [p] times divides by [2 ^ p]. *)
Lemma iter_shr_1_represents : forall p rec D A,
  0 < D -> 0 <= A -> represents rec D A ->
  represents (iter_pos shr_1 p rec) (D * 2 ^ Zpos p) A.
Proof.
  induction p as [p IH|p IH|]; intros rec D A HD HA H; cbn [iter_pos].
  - assert (0 < 2 ^ Zpos p) by (apply Z.pow_pos_nonneg; lia).
    apply shr_1_represents in H; try lia.
    apply IH in H; try lia. apply IH in H; try lia; try (apply Z.mul_pos_pos; lia).
    rewrite pow2_xI.
    replace (D * (2 * (2 ^ Zpos p * 2 ^ Zpos p)))
      with (2 * D * 2 ^ Zpos p * 2 ^ Zpos p) by ring.
    exact H.
  - assert (0 < 2 ^ Zpos p) by (apply Z.pow_pos_nonneg; lia).
    apply IH in H; try lia. apply IH in H; try lia; try (apply Z.mul_pos_pos; lia).
    rewrite pow2_xO.
    replace (D * (2 ^ Zpos p * 2 ^ Zpos p)) with (D * 2 ^ Zpos p * 2 ^ Zpos p) by ring.
    exact H.
  - apply shr_1_represents in H; try lia.
    replace (D * 2 ^ 1) with (2 * D) by (rewrite Z.pow_1_r; ring). exact H.
Qed.

Lemma loc_of_shr_record_of_loc : forall m l,
  loc_of_shr_record (shr_record_of_loc m l) = l
  /\ shr_m (shr_record_of_loc m l) = m.
Proof. intros m [|[]]; split; reflexivity. Qed.

(** ** Rounding a quotient

    The rounded quotient is within a half of the quotient, and is the
    quotient itself when the remainder is below the half of the divisor. *)
Lemma round_quotient_bounds : forall A D,
  0 < D -> 0 <= A ->
  A / D <= round_quotient A D <= A / D + 1
  /\ 2 * round_quotient A D * D <= 2 * A + D
  /\ 2 * A <= 2 * round_quotient A D * D + D
  /\ (A mod D = 0 -> round_quotient A D = A / D)
  /\ (2 * (A mod D) < D -> round_quotient A D = A / D).
Proof.
  intros A D HD HA. unfold round_quotient, loc_spec, round_nearest_even.
  pose proof (Z.div_mod A D ltac:(lia)) as Hdm.
  pose proof (Z.mod_pos_bound A D HD) as Hrem.
  set (q := A / D) in *. set (r := A mod D) in *. clearbody q r.
  destruct (r =? 0) eqn:E0.
  - apply Z.eqb_eq in E0. repeat split; intros; try lia; nia.
  - apply Z.eqb_neq in E0.
    destruct (Z.compare_spec (2 * r) D) as [Ec|Ec|Ec].
    + destruct (Z.even q); repeat split; intros; try lia; nia.
    + repeat split; intros; try lia; nia.
    + repeat split; intros; try lia; nia.
Qed.

(** [binary_round_aux] in the normal range: for a mantissa of at least 53
    digits it shifts down to 53 digits, rounds to nearest even, and shifts
    once more when the rounding carries into a 54th digit. *)
Lemma binary_round_aux_normal : forall s A D e,
  0 < D -> 0 < A ->
  53 <= Zdigits2 (A / D) ->
  -1074 <= e + (Zdigits2 (A / D) - 53) ->
  e + (Zdigits2 (A / D) - 53) + 1 <= 971 ->
  let n := Zdigits2 (A / D) - 53 in
  let m2 := round_quotient A (D * 2 ^ n) in
  2 ^ 52 <= A / (D * 2 ^ n) < 2 ^ 53
  /\ binary_round_aux 53 1024 s (A / D) e (loc_spec D (A mod D))
     = if m2 =? 2 ^ 53
       then S754_finite s (Z.to_pos (2 ^ 52)) (e + n + 1)
       else S754_finite s (Z.to_pos m2) (e + n).
Proof.
  intros s A D e HD HA Hk Hlo Hhi n m2.
  assert (Hm0 : 0 <= A / D) by (apply Z.div_pos; lia).
  remember (A / D) as m eqn:Em. symmetry in Em.
  destruct m as [|p|p]; [cbn in Hk; lia | | lia].
  destruct (Zdigits2_bounds p) as [Hb Hk1].
  set (k := Zdigits2 (Zpos p)) in *.
  assert (Hn : 0 <= n) by (unfold n; lia).
  assert (Hlo' : -1074 <= e + n) by (unfold n; lia).
  assert (Hhi' : e + n + 1 <= 971) by (unfold n; lia).
  assert (H2n : 0 < 2 ^ n) by (apply Z.pow_pos_nonneg; lia).
  assert (HD' : 0 < D * 2 ^ n) by (apply Z.mul_pos_pos; lia).
  assert (Hm1 : A / (D * 2 ^ n) = Zpos p / 2 ^ n).
  { rewrite <- Em. symmetry. apply Z.div_div; lia. }
  assert (Hm1b : 2 ^ 52 <= A / (D * 2 ^ n) < 2 ^ 53).
  { rewrite Hm1. replace (k - 1) with (52 + n) in Hb by (unfold n; lia).
    replace k with (53 + n) in Hb by (unfold n; lia).
    rewrite !Z.pow_add_r in Hb by lia. split.
    - apply Z.div_le_lower_bound; lia.
    - apply Z.div_lt_upper_bound; lia. }
  split; [exact Hm1b|].
  unfold binary_round_aux, shr_fexp.
  assert (Hfexp : fexp 53 1024 (Zdigits2 (Zpos p) + e) - e = n).
  { unfold fexp, SpecFloat.emin. fold k. unfold n. lia. }
  rewrite Hfexp.
  assert (Hrep0 : represents (shr_record_of_loc (Zpos p) (loc_spec D (A mod D))) D A).
  { destruct (loc_of_shr_record_of_loc (Zpos p) (loc_spec D (A mod D))) as [H1 H2].
    split; [rewrite H2; now rewrite Em | exact H1]. }
  assert (Hshr : exists rec1,
             shr (shr_record_of_loc (Zpos p) (loc_spec D (A mod D))) e n = (rec1, e + n)
             /\ represents rec1 (D * 2 ^ n) A).
  { unfold shr. destruct n as [|pn|pn] eqn:En; try lia.
    - eexists. split; [f_equal; lia|]. rewrite Z.pow_0_r, Z.mul_1_r. exact Hrep0.
    - eexists. split; [reflexivity|]. apply iter_shr_1_represents; try lia. exact Hrep0. }
  destruct Hshr as (rec1 & -> & [Hr1m Hr1l]).
  rewrite Hr1m, Hr1l. fold (round_quotient A (D * 2 ^ n)). fold m2.
  destruct (round_quotient_bounds A (D * 2 ^ n) HD' ltac:(lia)) as (Hm2 & _).
  fold m2 in Hm2.
  destruct (m2 =? 2 ^ 53) eqn:E53.
  - apply Z.eqb_eq in E53. rewrite E53. clearbody n.
    change (Zdigits2 (2 ^ 53)) with 54.
    replace (fexp 53 1024 (54 + (e + n)) - (e + n)) with 1
      by (unfold fexp, SpecFloat.emin; lia).
    change (shr (shr_record_of_loc (2 ^ 53) loc_Exact) (e + n) 1)
      with (Build_shr_record 4503599627370496 false false, e + n + 1).
    cbn [shr_m].
    replace (e + n + 1 <=? 1024 - 53) with true by (symmetry; apply Z.leb_le; lia).
    reflexivity.
  - apply Z.eqb_neq in E53. clearbody n.
    assert (Hm2p : 0 < m2) by lia.
    destruct m2 as [|p2|p2] eqn:Em2; try lia.
    assert (Hd2 : Zdigits2 (Zpos p2) = 53) by (apply Zdigits2_spec; lia).
    rewrite Hd2.
    replace (fexp 53 1024 (53 + (e + n)) - (e + n)) with 0
      by (unfold fexp, SpecFloat.emin; lia).
    cbn [shr shr_record_of_loc shr_m].
    replace (e + n <=? 1024 - 53) with true by (symmetry; apply Z.leb_le; lia).
    reflexivity.
Qed.

(** ** Powers of two and values *)

Lemma bpow_pos : forall e, (0 < bpow e)%Q.
Proof. intros e. unfold bpow. apply Qpower_0_lt. reflexivity. Qed.

Lemma bpow_add : forall a b, (bpow (a + b) == bpow a * bpow b)%Q.
Proof. intros a b. unfold bpow. apply Qpower_plus. discriminate. Qed.

Lemma bpow_le : forall a b, a <= b -> (bpow a <= bpow b)%Q.
Proof. intros a b H. unfold bpow. apply Qpower_le_compat_l; [exact H | discriminate]. Qed.

Lemma bpow_lt_inv : forall a b, (bpow a < bpow b)%Q -> a < b.
Proof. intros a b H. unfold bpow in H. apply Qpower_lt_compat_l_inv in H; [exact H | reflexivity]. Qed.

Lemma bpow_Z : forall n, 0 <= n -> (inject_Z (2 ^ n) == bpow n)%Q.
Proof. intros n Hn. unfold bpow. now rewrite Zpower_Qpower. Qed.

Lemma bpow_succ : forall e, (bpow (e + 1) == 2 * bpow e)%Q.
Proof. intros e. rewrite bpow_add. unfold bpow at 2. rewrite Qpower_1_r. ring. Qed.

Lemma rounded_normal : forall m2 e1,
  2 ^ 52 <= m2 <= 2 ^ 53 ->
  normal_pos e1 (e1 + 1) (rounded false m2 e1)
  /\ (value (rounded false m2 e1) == F2Q m2 e1)%Q.
Proof.
  intros m2 e1 Hm2. unfold rounded.
  destruct (m2 =? 2 ^ 53) eqn:E.
  - apply Z.eqb_eq in E. subst m2. split.
    + exists (Z.to_pos (2 ^ 52)), (e1 + 1). split; [reflexivity|].
      split; [cbn; lia | lia].
    + unfold value, F2Q. rewrite bpow_succ.
      change (inject_Z (Zpos (Z.to_pos (2 ^ 52)))) with (inject_Z (2 ^ 52)).
      change (inject_Z (2 ^ 53)) with (2 * inject_Z (2 ^ 52))%Q. ring.
  - apply Z.eqb_neq in E. split.
    + exists (Z.to_pos m2), e1. split; [reflexivity|].
      rewrite Z2Pos.id by lia. lia.
    + unfold value, F2Q. rewrite Z2Pos.id by lia. reflexivity.
Qed.

Lemma inject_Z_div_le : forall a d c : Q,
  (0 < d)%Q -> (c * d <= a)%Q -> (c <= a / d)%Q.
Proof. intros a d c Hd H. apply Qle_shift_div_l; assumption. Qed.

Lemma inject_Z_div_ge : forall a d c : Q,
  (0 < d)%Q -> (a <= c * d)%Q -> (a / d <= c)%Q.
Proof. intros a d c Hd H. apply Qle_shift_div_r; assumption. Qed.

Lemma bpow_m53 : (bpow (-53) == 1 # 9007199254740992)%Q.
Proof. reflexivity. Qed.

Lemma bpow_m52 : (bpow (-52) == 1 # 4503599627370496)%Q.
Proof. reflexivity. Qed.

Lemma bpow_m51 : (bpow (-51) == 1 # 2251799813685248)%Q.
Proof. reflexivity. Qed.

(** ** The rounded value

    What [binary_round_aux] returns for the positive number
    [A / D * 2 ^ e], in the normal range: a float with a full mantissa,
    within the relative error [2 ^ -53] and half a unit in the last place
    of the number, at most 1 when the number is below [1 + 2 ^ -53], and
    the number itself when that has 53 digits. *)

Lemma round_Q : forall A D e,
  0 < D -> 0 < A ->
  53 <= Zdigits2 (A / D) ->
  -1074 <= e + (Zdigits2 (A / D) - 53) ->
  e + (Zdigits2 (A / D) - 53) + 1 <= 971 ->
  let n := Zdigits2 (A / D) - 53 in
  let f := binary_round_aux 53 1024 false (A / D) e (loc_spec D (A mod D)) in
  let X := (inject_Z A / inject_Z D * bpow e)%Q in
  normal_pos (e + n) (e + n + 1) f
  /\ (value f <= X * (1 + bpow (-53)))%Q
  /\ (X * (1 - bpow (-53)) <= value f)%Q
  /\ (value f <= X + (1 # 2) * bpow (e + n))%Q
  /\ ((X < 1 + bpow (-53))%Q -> (value f <= 1)%Q)
  /\ (A mod (D * 2 ^ n) = 0 -> (value f == X)%Q).
Proof.
  intros A D e HD HA Hk Hlo Hhi n f X.
  destruct (binary_round_aux_normal false A D e HD HA Hk Hlo Hhi) as [Hm1 Hf].
  fold n in Hm1, Hf, Hlo, Hhi. fold f in Hf.
  assert (Hn : 0 <= n) by (unfold n; lia).
  clearbody n.
  assert (H2n : 0 < 2 ^ n) by (apply Z.pow_pos_nonneg; lia).
  set (D' := D * 2 ^ n) in *.
  assert (HD' : 0 < D') by (apply Z.mul_pos_pos; lia).
  destruct (round_quotient_bounds A D' HD' ltac:(lia)) as (Hm2 & Hup & Hdn & Hex & Hlow).
  set (m2 := round_quotient A D') in *. clearbody m2.
  fold (rounded false m2 (e + n)) in Hf.
  destruct (rounded_normal m2 (e + n) ltac:(lia)) as [Hnice Hval].
  rewrite <- Hf in Hnice, Hval. clear Hf. clearbody f.
  pose proof (Z.mul_div_le A D' HD') as Hfloor.
  set (m1 := A / D') in *.
  (* the facts, over the rationals *)
  set (a := inject_Z A). set (d' := inject_Z D'). set (q2 := inject_Z m2).
  set (b := bpow (e + n)).
  assert (Hb : (0 < b)%Q) by apply bpow_pos.
  assert (Hd' : (0 < d')%Q) by (unfold d'; rewrite <- (Zlt_Qlt 0); exact HD').
  assert (HX : (X == a / d' * b)%Q).
  { unfold X, a, d', b, D'. rewrite inject_Z_mult, bpow_add, (bpow_Z n Hn).
    field. split.
    - pose proof (bpow_pos n). lra.
    - assert (0 < inject_Z D)%Q by (rewrite <- (Zlt_Qlt 0); exact HD). lra. }
  assert (Hq2up : (q2 <= a / d' + (1 # 2))%Q).
  { rewrite Zle_Qle in Hup. rewrite inject_Z_plus, !inject_Z_mult in Hup.
    fold a d' q2 in Hup. change (inject_Z 2) with 2%Q in Hup.
    assert (H : ((q2 - (1 # 2)) * d' <= a)%Q) by lra.
    apply inject_Z_div_le in H; [lra | exact Hd']. }
  assert (HYlo : (inject_Z (2 ^ 52) <= a / d')%Q).
  { apply inject_Z_div_le; [exact Hd'|]. unfold a, d'.
    rewrite <- inject_Z_mult, <- Zle_Qle. nia. }
  change (inject_Z (2 ^ 52)) with 4503599627370496%Q in HYlo.
  set (Y := (a / d')%Q) in *.
  assert (Hq2max : (q2 <= 9007199254740992)%Q).
  { unfold q2. change 9007199254740992%Q with (inject_Z (2 ^ 53)).
    rewrite <- Zle_Qle. lia. }
  assert (Hv : (value f == q2 * b)%Q) by (rewrite Hval; reflexivity).
  pose proof bpow_m53 as Heps.
  assert (Hq2dn : (a / d' <= q2 + (1 # 2))%Q).
  { rewrite Zle_Qle in Hdn. rewrite inject_Z_plus, !inject_Z_mult in Hdn.
    fold a d' q2 in Hdn. change (inject_Z 2) with 2%Q in Hdn.
    apply inject_Z_div_ge; [exact Hd' | lra]. }
  fold Y in Hq2dn.
  assert (H1 : (0 <= (Y + (1 # 2) - q2) * b)%Q)
    by (apply Qmult_le_0_compat; lra).
  assert (H2 : (0 <= (Y - 4503599627370496) * b)%Q)
    by (apply Qmult_le_0_compat; lra).
  assert (H1' : (0 <= (q2 + (1 # 2) - Y) * b)%Q)
    by (apply Qmult_le_0_compat; lra).
  split; [exact Hnice|]. split; [|split; [|split; [|split]]].
  - rewrite Hv, HX, Heps. lra.
  - rewrite Hv, HX, Heps. lra.
  - rewrite Hv, HX. fold b. lra.
  - intros HX1. rewrite HX, Heps in HX1. rewrite Hv.
    assert (He1 : e + n <= -52).
    { assert (Hlt : (b < bpow (-51))%Q).
      { rewrite bpow_m51. lra. }
      apply bpow_lt_inv in Hlt. lia. }
    destruct (Z_le_gt_dec (e + n) (-53)) as [Hsmall | Hbig].
    + assert (Hb53 : (b <= bpow (-53))%Q) by (apply bpow_le; lia).
      rewrite Heps in Hb53.
      assert (H3 : (0 <= (9007199254740992 - q2) * b)%Q)
        by (apply Qmult_le_0_compat; lra).
      lra.
    + assert (He : e + n = -52) by lia.
      assert (Hb52 : (b == 1 # 4503599627370496)%Q)
        by (unfold b; rewrite He; apply bpow_m52).
      rewrite Hb52 in HX1 |- *.
      assert (HYup : (Y < 4503599627370496 + (1 # 2))%Q) by lra.
      assert (HA2 : 2 * A < (2 ^ 53 + 1) * D').
      { rewrite Zlt_Qlt. rewrite !inject_Z_mult, inject_Z_plus. fold a d'.
        change (inject_Z 2) with 2%Q.
        change (inject_Z (2 ^ 53)) with 9007199254740992%Q.
        change (inject_Z 1) with 1%Q.
        assert (Ha : (a == Y * d')%Q) by (unfold Y; field; lra).
        assert (H : (0 < (4503599627370496 + (1 # 2) - Y) * d')%Q)
          by (apply Qmult_lt_0_compat; lra).
        lra. }
      assert (Hm1eq : m1 = 2 ^ 52) by nia.
      assert (Hm2eq : m2 = 2 ^ 52).
      { rewrite <- Hm1eq. apply Hlow. rewrite Z.mod_eq by lia. fold m1. nia. }
      unfold q2. rewrite Hm2eq.
      change (inject_Z (2 ^ 52)) with 4503599627370496%Q. lra.
  - intros Hmod. rewrite Hv, HX.
    assert (Hm2eq : m2 = m1) by (apply Hex; exact Hmod).
    assert (HAeq : A = D' * m2).
    { rewrite Hm2eq. unfold m1. rewrite Z.mod_eq in Hmod by lia. lia. }
    assert (HYeq : (Y == q2)%Q).
    { unfold Y, a, q2, d'. rewrite HAeq, inject_Z_mult. field.
      fold d'. lra. }
    rewrite HYeq. reflexivity.
Qed.

(** ** The operations on floats in the normal range *)

Lemma Zdigits2_range : forall A lo hi,
  0 <= lo -> 2 ^ lo <= A < 2 ^ hi -> lo < Zdigits2 A <= hi.
Proof.
  intros A lo hi Hlo [H1 H2].
  assert (HA : 0 < A) by (pose proof (Z.pow_pos_nonneg 2 lo); lia).
  destruct A as [|p|p]; try lia.
  destruct (Zdigits2_bounds p) as [[Hb1 Hb2] Hk].
  set (k := Zdigits2 (Zpos p)) in *. clearbody k.
  split.
  - apply (Z.pow_lt_mono_r_iff 2); lia.
  - assert (k - 1 < hi); [|lia].
    apply (Z.pow_lt_mono_r_iff 2); try lia.
    destruct (Z_lt_le_dec hi 0) as [Hneg|]; [|lia].
    rewrite Z.pow_neg_r in H2 by lia. lia.
Qed.

Lemma normal_pos_value : forall lo hi f,
  normal_pos lo hi f ->
  exists m e, f = S754_finite false m e /\ 2 ^ 52 <= Zpos m < 2 ^ 53
              /\ lo <= e <= hi /\ (value f == inject_Z (Zpos m) * bpow e)%Q
              /\ (0 < value f)%Q.
Proof.
  intros lo hi f (m & e & -> & Hm & He). exists m, e.
  repeat split; try lia; try reflexivity.
  unfold value, F2Q. apply Qmult_lt_0_compat; [|apply bpow_pos].
  rewrite <- (Zlt_Qlt 0). lia.
Qed.

Lemma normal_pos_weaken : forall lo hi lo' hi' f,
  normal_pos lo hi f -> lo' <= lo -> hi <= hi' -> normal_pos lo' hi' f.
Proof.
  intros lo hi lo' hi' f (m & e & -> & Hm & He) H1 H2.
  exists m, e. repeat split; lia.
Qed.

(** The product of two floats in the normal range. *)
Lemma SFmul_normal : forall lo1 hi1 lo2 hi2 x y,
  normal_pos lo1 hi1 x -> normal_pos lo2 hi2 y ->
  -1074 <= lo1 + lo2 + 52 -> hi1 + hi2 + 54 <= 971 ->
  normal_pos (lo1 + lo2 + 52) (hi1 + hi2 + 54) (SFmul 53 1024 x y)
  /\ (value (SFmul 53 1024 x y) <= value x * value y * (1 + bpow (-53)))%Q
  /\ ((value x * value y < 1 + bpow (-53))%Q -> (value (SFmul 53 1024 x y) <= 1)%Q).
Proof.
  intros lo1 hi1 lo2 hi2 x y Hx Hy Hlo Hhi.
  destruct (normal_pos_value _ _ _ Hx) as (mx & ex & -> & Hmx & Hex & Hvx & _).
  destruct (normal_pos_value _ _ _ Hy) as (my & ey & -> & Hmy & Hey & Hvy & _).
  cbn [SFmul xorb].
  set (A := Zpos mx * Zpos my).
  assert (HA : 2 ^ 104 <= A < 2 ^ 106).
  { unfold A. change (2 ^ 104) with (2 ^ 52 * 2 ^ 52).
    change (2 ^ 106) with (2 ^ 53 * 2 ^ 53). nia. }
  assert (HA0 : 0 < A) by (change (2 ^ 104) with 20282409603651670423947251286016 in HA; lia).
  destruct (Zdigits2_range A 104 106 ltac:(lia) HA) as [Hk1 Hk2].
  replace (Zpos (mx * my)) with (A / 1) by (rewrite Z.div_1_r; reflexivity).
  replace loc_Exact with (loc_spec 1 (A mod 1))
    by (rewrite Z.mod_1_r; reflexivity).
  assert (Hd : Zdigits2 (A / 1) = Zdigits2 A) by (now rewrite Z.div_1_r).
  destruct (round_Q A 1 (ex + ey) ltac:(lia) HA0) as (Hn & Hup & _ & _ & Hone & _);
    try (rewrite Hd; lia).
  rewrite Hd in Hn.
  assert (HX : (inject_Z A / inject_Z 1 * bpow (ex + ey) == value (S754_finite false mx ex) * value (S754_finite false my ey))%Q).
  { rewrite Hvx, Hvy. unfold A. rewrite inject_Z_mult, bpow_add.
    change (inject_Z 1) with 1%Q. field. }
  rewrite HX in Hup, Hone.
  split; [|split; [exact Hup | exact Hone]].
  eapply normal_pos_weaken; [exact Hn | lia | lia].
Qed.

Lemma iter_xO_pow : forall d m, Zpos (Pos.iter xO m d) = Zpos m * 2 ^ Zpos d.
Proof.
  intros d m. induction d as [|d IH] using Pos.peano_ind.
  - cbn [Pos.iter]. rewrite Z.pow_1_r. lia.
  - rewrite Pos.iter_succ, Pos2Z.inj_xO, IH, Pos2Z.inj_succ, Z.pow_succ_r by lia.
    ring.
Qed.

(** [shl_align] brings a mantissa to the smaller of two exponents. *)
Lemma shl_align_spec : forall mx ex ex',
  snd (shl_align mx ex ex') = Z.min ex ex'
  /\ Zpos (fst (shl_align mx ex ex')) = Zpos mx * 2 ^ (ex - Z.min ex ex').
Proof.
  intros mx ex ex'. unfold shl_align.
  destruct (ex' - ex) as [|d|d] eqn:E; cbn [fst snd].
  - replace (Z.min ex ex') with ex by lia. rewrite Z.sub_diag. cbn. lia.
  - replace (Z.min ex ex') with ex by lia. rewrite Z.sub_diag. cbn. lia.
  - replace (Z.min ex ex') with ex' by lia.
    replace (ex - ex') with (Zpos d) by lia. split; [reflexivity | apply iter_xO_pow].
Qed.

(** The same for an integer mantissa. *)
Lemma round_Q_int : forall A e,
  0 < A -> 53 <= Zdigits2 A ->
  -1074 <= e + (Zdigits2 A - 53) ->
  e + (Zdigits2 A - 53) + 1 <= 971 ->
  let n := Zdigits2 A - 53 in
  let f := binary_round_aux 53 1024 false A e loc_Exact in
  let X := (inject_Z A * bpow e)%Q in
  normal_pos (e + n) (e + n + 1) f
  /\ (value f <= X * (1 + bpow (-53)))%Q
  /\ ((X < 1 + bpow (-53))%Q -> (value f <= 1)%Q)
  /\ (A mod 2 ^ n = 0 -> (value f == X)%Q).
Proof.
  intros A e HA Hk Hlo Hhi n f X.
  pose proof (round_Q A 1 e ltac:(lia) HA) as H.
  rewrite Z.div_1_r, Z.mod_1_r in H.
  change (loc_spec 1 0) with loc_Exact in H.
  specialize (H Hk Hlo Hhi). cbv zeta in H. fold n f in H.
  destruct H as (Hn & Hup & _ & _ & Hone & Hex).
  assert (HX : (inject_Z A / inject_Z 1 * bpow e == X)%Q)
    by (unfold X; change (inject_Z 1) with 1%Q; field).
  rewrite HX in Hup, Hone, Hex. rewrite Z.mul_1_l in Hex. auto.
Qed.

(** The conversion of a positive integer below [2 ^ 53] is exact. *)
Lemma of_int_normal : forall n,
  1 <= n < 2 ^ 53 ->
  normal_pos (-52) 1 (Float.of_int n) /\ (value (Float.of_int n) == inject_Z n)%Q.
Proof.
  intros n Hn. destruct n as [|p|p]; try lia.
  unfold Float.of_int, Float.prec, Float.emax, binary_normalize, binary_round.
  destruct (Zdigits2_bounds p) as [Hb Hk1].
  change (Zpos (digits2_pos p)) with (Zdigits2 (Zpos p)).
  set (k := Zdigits2 (Zpos p)) in *.
  assert (Hk : k <= 53).
  { destruct (Zdigits2_range (Zpos p) 0 53 ltac:(lia)) as [_ H]; [|exact H].
    change (2 ^ 0) with 1. lia. }
  clearbody k.
  assert (Hfexp : fexp 53 1024 (k + 0) = k - 53)
    by (unfold fexp, SpecFloat.emin; lia).
  rewrite Hfexp.
  destruct (shl_align_spec p 0 (k - 53)) as [He Hm].
  destruct (shl_align p 0 (k - 53)) as [mz ez]. cbn [fst snd] in He, Hm.
  replace (Z.min 0 (k - 53)) with (k - 53) in * by lia. subst ez.
  replace (0 - (k - 53)) with (53 - k) in Hm by lia.
  assert (Hmz : 2 ^ 52 <= Zpos mz < 2 ^ 53).
  { assert (E52 : 2 ^ 52 = 2 ^ (k - 1) * 2 ^ (53 - k))
      by (rewrite <- Z.pow_add_r by lia; f_equal; lia).
    assert (E53 : 2 ^ 53 = 2 ^ k * 2 ^ (53 - k))
      by (rewrite <- Z.pow_add_r by lia; f_equal; lia).
    assert (0 < 2 ^ (53 - k)) by (apply Z.pow_pos_nonneg; lia).
    rewrite Hm, E52, E53. nia. }
  assert (Hd : Zdigits2 (Zpos mz) = 53) by (apply Zdigits2_spec; [exact Hmz | lia]).
  destruct (round_Q_int (Zpos mz) (k - 53) ltac:(lia))
    as (Hnice & _ & _ & Hex); try (rewrite Hd; lia).
  rewrite Hd in Hnice, Hex. split.
  - eapply normal_pos_weaken; [exact Hnice | lia | lia].
  - rewrite Hex by (rewrite Z.sub_diag, Z.pow_0_r; apply Z.mod_1_r).
    rewrite Hm, inject_Z_mult.
    rewrite (bpow_Z (53 - k)) by lia.
    assert (Hb1 : (bpow (53 - k) * bpow (k - 53) == 1)%Q).
    { rewrite <- bpow_add. replace (53 - k + (k - 53)) with 0 by lia. reflexivity. }
    transitivity (inject_Z (Zpos p) * (bpow (53 - k) * bpow (k - 53)))%Q.
    + ring.
    + rewrite Hb1. ring.
Qed.

(** The sum of two floats in the normal range. *)
Lemma SFadd_normal : forall lo1 hi1 lo2 hi2 x y,
  normal_pos lo1 hi1 x -> normal_pos lo2 hi2 y ->
  -1074 <= Z.min lo1 lo2 -> Z.max hi1 hi2 + 2 <= 971 ->
  normal_pos (Z.min lo1 lo2) (Z.max hi1 hi2 + 2) (SFadd 53 1024 x y)
  /\ ((value x + value y < 1 + bpow (-53))%Q -> (value (SFadd 53 1024 x y) <= 1)%Q).
Proof.
  intros lo1 hi1 lo2 hi2 x y Hx Hy Hlo Hhi.
  destruct (normal_pos_value _ _ _ Hx) as (mx & ex & -> & Hmx & Hex & Hvx & _).
  destruct (normal_pos_value _ _ _ Hy) as (my & ey & -> & Hmy & Hey & Hvy & _).
  cbn [SFadd cond_Zopp].
  set (ez := Z.min ex ey).
  destruct (shl_align_spec mx ex ez) as [_ Hax].
  destruct (shl_align_spec my ey ez) as [_ Hay].
  replace (Z.min ex ez) with ez in Hax by (unfold ez; lia).
  replace (Z.min ey ez) with ez in Hay by (unfold ez; lia).
  set (ax := fst (shl_align mx ex ez)) in *.
  set (ay := fst (shl_align my ey ez)) in *.
  clearbody ax ay.
  assert (Hpx : 1 <= 2 ^ (ex - ez)) by (apply Z.lt_pred_le, Z.pow_pos_nonneg; unfold ez; lia).
  assert (Hpy : 1 <= 2 ^ (ey - ez)) by (apply Z.lt_pred_le, Z.pow_pos_nonneg; unfold ez; lia).
  set (w := Z.max ex ey - ez).
  assert (Hw : 0 <= w) by (unfold w, ez; lia).
  assert (Hpxw : 2 ^ (ex - ez) <= 2 ^ w) by (apply Z.pow_le_mono_r; unfold w, ez; lia).
  assert (Hpyw : 2 ^ (ey - ez) <= 2 ^ w) by (apply Z.pow_le_mono_r; unfold w, ez; lia).
  assert (Hsum : Zpos ax + Zpos ay = Zpos (ax + ay)) by reflexivity.
  rewrite Hsum. cbn [binary_normalize]. unfold binary_round.
  set (sm := Zpos (ax + ay)) in *.
  assert (HS : 2 ^ 53 <= sm < 2 ^ (54 + w)).
  { rewrite <- Hsum, Hax, Hay.
    replace (54 + w) with (1 + 53 + w) by lia.
    rewrite !Z.pow_add_r by lia. change (2 ^ 1) with 2.
    change (2 ^ 53) with (2 * 2 ^ 52) at 1. nia. }
  destruct (Zdigits2_range sm 53 (54 + w) ltac:(lia) HS) as [Hk1 Hk2].
  change (Zpos (digits2_pos (ax + ay))) with (Zdigits2 sm).
  pose proof (round_Q_int sm ez) as HR. cbv zeta in HR.
  set (k := Zdigits2 sm) in *. clearbody k.
  assert (Hfexp : fexp 53 1024 (k + ez) = k + ez - 53).
  { unfold fexp, SpecFloat.emin. unfold ez. lia. }
  rewrite Hfexp.
  assert (Hsh : shl_align (ax + ay) ez (k + ez - 53) = ((ax + ay)%positive, ez)).
  { unfold shl_align. destruct (k + ez - 53 - ez) eqn:E; try reflexivity. lia. }
  rewrite Hsh. fold sm.
  destruct HR as (Hn & _ & Hone & _); try (unfold sm, w, ez in *; lia).
  split.
  - eapply normal_pos_weaken; [exact Hn | unfold ez; lia | unfold w, ez in *; lia].
  - intros Hlt. apply Hone.
    assert (HX : (inject_Z sm * bpow ez
                  == value (S754_finite false mx ex) + value (S754_finite false my ey))%Q).
    { rewrite Hvx, Hvy. rewrite <- Hsum, inject_Z_plus, Hax, Hay.
      rewrite !inject_Z_mult, (bpow_Z (ex - ez)), (bpow_Z (ey - ez))
        by (unfold ez; lia).
      assert (E1 : (bpow (ex - ez) * bpow ez == bpow ex)%Q)
        by (rewrite <- bpow_add; replace (ex - ez + ez) with ex by lia; reflexivity).
      assert (E2 : (bpow (ey - ez) * bpow ez == bpow ey)%Q)
        by (rewrite <- bpow_add; replace (ey - ez + ez) with ey by lia; reflexivity).
      rewrite <- E1, <- E2. ring. }
    rewrite HX. exact Hlt.
Qed.

(** The location that the division computes is the location of its
    remainder. *)
Lemma new_location_spec : forall D r,
  0 < D -> new_location D r = loc_spec D r.
Proof.
  intros D r HD. unfold new_location, new_location_even, new_location_odd, loc_spec.
  destruct (Z.even D) eqn:Ev; [reflexivity|].
  destruct (r =? 0); [reflexivity|]. f_equal.
  assert (Hodd : Z.odd D = true) by (rewrite <- Z.negb_even, Ev; reflexivity).
  apply Z.odd_spec in Hodd. destruct Hodd as [q Hq].
  destruct (Z.compare_spec (2 * r + 1) D), (Z.compare_spec (2 * r) D);
    try reflexivity; lia.
Qed.

(** The quotient of 1 by a float in the normal range; its product with
    the divisor stays below [1 + 2 ^ -53]. *)
Lemma SFdiv_one_normal : forall lo hi y,
  normal_pos lo hi y -> -900 <= lo -> hi <= 900 ->
  normal_pos (-105 - hi) (-103 - lo) (SFdiv 53 1024 Float.one y)
  /\ (value (SFdiv 53 1024 Float.one y) * value y < 1 + bpow (-53))%Q
  /\ (1 - bpow (-53) <= value (SFdiv 53 1024 Float.one y) * value y)%Q.
Proof.
  intros lo hi y Hy Hlo Hhi.
  destruct (normal_pos_value _ _ _ Hy) as (my & ey & -> & Hmy & Hey & Hvy & Hypos).
  unfold Float.one. cbn [SFdiv xorb]. unfold SFdiv_core_binary.
  change (Zdigits2 (Zpos 4503599627370496)) with 53.
  rewrite (Zdigits2_spec my 53) by lia.
  assert (He' : Z.min (fexp 53 1024 (53 + -52 - (53 + ey))) (-52 - ey) = -105 - ey)
    by (unfold fexp, SpecFloat.emin; lia).
  rewrite He'.
  replace (-52 - ey - (-105 - ey)) with 53 by lia.
  change (Z.shiftl (Zpos 4503599627370496) 53) with (2 ^ 105).
  set (A := 2 ^ 105). set (D := Zpos my) in *.
  assert (Hdiv : Z.div_eucl A D = (A / D, A mod D)).
  { unfold Z.div, Z.modulo. destruct (Z.div_eucl A D). reflexivity. }
  rewrite Hdiv, new_location_spec by (unfold D; lia).
  assert (HA0 : 0 < A) by reflexivity.
  assert (HD0 : 0 < D) by (unfold D; lia).
  assert (Hq : 2 ^ 52 <= A / D <= 2 ^ 53).
  { split.
    - apply Z.div_le_lower_bound; [lia|]. unfold A.
      change (2 ^ 105) with (2 ^ 52 * 2 ^ 53). nia.
    - apply Z.div_le_upper_bound; [lia|]. unfold A.
      change (2 ^ 105) with (2 ^ 52 * 2 ^ 53). nia. }
  destruct (Zdigits2_range (A / D) 52 54 ltac:(lia)) as [Hk1 Hk2].
  { change (2 ^ 54) with (2 * 2 ^ 53). lia. }
  pose proof (round_Q A D (-105 - ey) HD0 HA0) as HR. cbv zeta in HR.
  set (k := Zdigits2 (A / D)) in *.
  destruct HR as (Hn & _ & Hlow & Habs & _ & Hex); try lia.
  set (d := binary_round_aux 53 1024 false (A / D) (-105 - ey) (loc_spec D (A mod D))) in *.
  clearbody d.
  set (X := (inject_Z A / inject_Z D * bpow (-105 - ey))%Q) in *.
  assert (HDq : (0 < inject_Z D)%Q) by (rewrite <- (Zlt_Qlt 0); exact HD0).
  assert (HXy : (X * value (S754_finite false my ey) == 1)%Q).
  { rewrite Hvy. unfold X. fold D.
    assert (E : (inject_Z A * (bpow (-105 - ey) * bpow ey) == 1)%Q).
    { rewrite <- bpow_add. replace (-105 - ey + ey) with (-105) by lia.
      unfold A. reflexivity. }
    transitivity (inject_Z A * (bpow (-105 - ey) * bpow ey))%Q; [|exact E].
    field. lra. }
  set (vy := value (S754_finite false my ey)) in *.
  pose proof bpow_m53 as Heps.
  assert (Hlow' : (0 <= (value d - X * (1 - bpow (-53))) * vy)%Q)
    by (apply Qmult_le_0_compat; lra).
  split; [|split].
  - eapply normal_pos_weaken; [exact Hn | lia | lia].
  - destruct (Z.eq_dec D (2 ^ 52)) as [Hpow | Hnpow].
    + assert (Hk : k = 54) by (unfold k; rewrite Hpow; reflexivity).
      rewrite Hex.
      * rewrite HXy, Heps. lra.
      * rewrite Hk, Hpow. reflexivity.
    + assert (Hk : k = 53).
      { assert (Hlt : A / D < 2 ^ 53).
        { apply Z.div_lt_upper_bound; [lia|]. unfold A.
          change (2 ^ 105) with (2 ^ 53 * 2 ^ 52). nia. }
        destruct (Zdigits2_range (A / D) 52 53 ltac:(lia) ltac:(lia)) as [Hd1 Hd2].
        fold k in Hd1, Hd2. lia. }
      rewrite Hk in Habs.
      replace (-105 - ey + (53 - 53)) with (-105 - ey) in Habs by lia.
      assert (Hhalf : ((1 # 2) * bpow (-105 - ey) * vy < bpow (-53))%Q).
      { rewrite Hvy.
        assert (E : (bpow (-105 - ey) * bpow ey == 1 # 40564819207303340847894502572032)%Q).
        { rewrite <- bpow_add. replace (-105 - ey + ey) with (-105) by lia. reflexivity. }
        assert (HD53 : (inject_Z D < 9007199254740992)%Q).
        { change 9007199254740992%Q with (inject_Z (2 ^ 53)). rewrite <- Zlt_Qlt.
          unfold D. lia. }
        assert (E2 : ((1 # 2) * bpow (-105 - ey) * (inject_Z D * bpow ey)
                      == (1 # 2) * inject_Z D * (bpow (-105 - ey) * bpow ey))%Q) by ring.
        rewrite E2, E, Heps. lra. }
      assert (Habs' : (0 <= (X + (1 # 2) * bpow (-105 - ey) - value d) * vy)%Q)
        by (apply Qmult_le_0_compat; lra).
      lra.
  - rewrite Heps in *. lra.
Qed.

(** Comparison with 1 and with 0. *)
Lemma SFleb_one : forall lo hi f,
  normal_pos lo hi f -> (value f <= 1)%Q -> SFleb f Float.one = true.
Proof.
  intros lo hi f Hf Hv.
  destruct (normal_pos_value _ _ _ Hf) as (m & e & -> & Hm & _ & Hval & _).
  rewrite Hval in Hv.
  assert (Hmq : (4503599627370496 <= inject_Z (Zpos m))%Q).
  { change 4503599627370496%Q with (inject_Z (2 ^ 52)). rewrite <- Zle_Qle. lia. }
  pose proof (bpow_pos e) as Hb.
  assert (He : e <= -52).
  { destruct (Z_le_gt_dec e (-52)) as [|Hgt]; [assumption|].
    assert (Hb51 : (bpow (-51) <= bpow e)%Q) by (apply bpow_le; lia).
    rewrite bpow_m51 in Hb51.
    assert (H : (0 <= (inject_Z (Zpos m) - 4503599627370496) * bpow e)%Q)
      by (apply Qmult_le_0_compat; lra).
    lra. }
  unfold SFleb, SFcompare, Float.one.
  destruct (Z.compare_spec e (-52)) as [Heq | Hlt | Hgt]; try reflexivity; try lia.
  subst e. rewrite bpow_m52 in Hv.
  assert (Hm52 : Zpos m <= 2 ^ 52).
  { rewrite Zle_Qle. change (inject_Z (2 ^ 52)) with 4503599627370496%Q. lra. }
  assert (Hmeq : m = 4503599627370496%positive) by lia.
  subst m. reflexivity.
Qed.

Lemma SFleb_zero : forall lo hi f,
  normal_pos lo hi f -> SFleb (S754_zero false) f = true.
Proof. intros lo hi f (m & e & -> & _). reflexivity. Qed.

Lemma half_normal : normal_pos (-53) (-53) Float.half /\ (value Float.half == 1 # 2)%Q.
Proof.
  split; [|reflexivity].
  exists 4503599627370496%positive, (-53). repeat split; cbn; lia.
Qed.

(** ** The fraction of a place

    With [m + 1] items in the base row, the fraction of place [i] of row
    [r], [i + r <= m], lies between 0 and 1. *)
Lemma fraction_bounds : forall m r i,
  1 <= m < 2 ^ 31 -> 0 <= r -> 0 <= i -> i + r <= m ->
  let d := SFdiv 53 1024 Float.one (Float.of_int m) in
  let u := SFadd 53 1024 (SFmul 53 1024 d (Float.of_int i))
                 (SFmul 53 1024 (SFmul 53 1024 d Float.half) (Float.of_int r)) in
  SFleb (S754_zero false) u = true /\ SFleb u Float.one = true.
Proof.
  intros m r i Hm Hr Hi Hir d u.
  assert (H231 : 2 ^ 31 < 2 ^ 53) by reflexivity.
  destruct (of_int_normal m ltac:(lia)) as [Hym Hvm].
  destruct (SFdiv_one_normal (-52) 1 (Float.of_int m) Hym ltac:(lia) ltac:(lia))
    as (Hd & Hdm_up & Hdm_lo).
  fold d in Hd, Hdm_up, Hdm_lo. rewrite Hvm in Hdm_up, Hdm_lo.
  destruct half_normal as [Hhalf Hvhalf].
  destruct (SFmul_normal _ _ _ _ d Float.half Hd Hhalf ltac:(lia) ltac:(lia))
    as (Hh & Hh_up & _).
  rewrite Hvhalf in Hh_up.
  set (h := SFmul 53 1024 d Float.half) in *.
  destruct (normal_pos_value _ _ _ Hd) as (md & ed & Hdeq & _ & _ & _ & Hdpos).
  destruct (normal_pos_value _ _ _ Hh) as (mh & eh & Hheq & _ & _ & _ & Hhpos).
  pose proof bpow_m53 as Heps. rewrite Heps in *.
  set (dq := value d) in *. set (hq := value h) in *.
  set (mq := inject_Z m) in *.
  assert (Hmq : (1 <= mq <= 2147483647)%Q).
  { unfold mq. split.
    - change 1%Q with (inject_Z 1). rewrite <- Zle_Qle. lia.
    - change 2147483647%Q with (inject_Z (2 ^ 31 - 1)). rewrite <- Zle_Qle. lia. }
  assert (Hof0 : Float.of_int 0 = S754_zero false) by reflexivity.
  destruct (Z.eq_dec i 0) as [Hi0 | Hi0]; destruct (Z.eq_dec r 0) as [Hr0 | Hr0].
  - (* no item offset, no row offset *)
    subst i r. unfold u. rewrite Hof0. fold h. rewrite Hdeq, Hheq.
    split; reflexivity.
  - (* first place of a higher row *)
    subst i. unfold u. rewrite Hof0. fold h.
    destruct (of_int_normal r ltac:(lia)) as [Hyr Hvr].
    destruct (SFmul_normal _ _ _ _ h (Float.of_int r) Hh Hyr ltac:(lia) ltac:(lia))
      as (Ht2 & _ & Ht2_one).
    rewrite Hvr in Ht2_one. fold hq in Ht2_one. rewrite Heps in Ht2_one.
    set (t2 := SFmul 53 1024 h (Float.of_int r)) in *.
    assert (Hu : SFadd 53 1024 (SFmul 53 1024 d (S754_zero false)) t2 = t2).
    { destruct Ht2 as (m2 & e2 & -> & _). rewrite Hdeq. reflexivity. }
    rewrite Hu. split; [eapply SFleb_zero; exact Ht2|].
    eapply SFleb_one; [exact Ht2|]. apply Ht2_one.
    set (rq := inject_Z r) in *.
    assert (Hrq : (rq <= mq)%Q) by (unfold rq, mq; rewrite <- Zle_Qle; lia).
    assert (Hrq0 : (0 <= rq)%Q)
      by (unfold rq; change 0%Q with (inject_Z 0); rewrite <- Zle_Qle; lia).
    assert (P1 : (0 <= (dq * (1 # 2) * (1 + (1 # 9007199254740992)) - hq) * rq)%Q)
      by (apply Qmult_le_0_compat; lra).
    assert (P2 : (0 <= dq * (mq - rq))%Q) by (apply Qmult_le_0_compat; lra).
    lra.
  - (* a place of the base row *)
    subst r. unfold u. rewrite Hof0. fold h.
    destruct (of_int_normal i ltac:(lia)) as [Hyi Hvi].
    destruct (SFmul_normal _ _ _ _ d (Float.of_int i) Hd Hyi ltac:(lia) ltac:(lia))
      as (Ht1 & _ & Ht1_one).
    rewrite Hvi in Ht1_one. fold dq in Ht1_one. rewrite Heps in Ht1_one.
    set (t1 := SFmul 53 1024 d (Float.of_int i)) in *.
    assert (Hu : SFadd 53 1024 t1 (SFmul 53 1024 h (S754_zero false)) = t1).
    { destruct Ht1 as (m1 & e1 & -> & _). rewrite Hheq. reflexivity. }
    rewrite Hu. split; [eapply SFleb_zero; exact Ht1|].
    eapply SFleb_one; [exact Ht1|]. apply Ht1_one.
    set (iq := inject_Z i) in *.
    assert (Hiq : (iq <= mq)%Q) by (unfold iq, mq; rewrite <- Zle_Qle; lia).
    assert (P2 : (0 <= dq * (mq - iq))%Q) by (apply Qmult_le_0_compat; lra).
    lra.
  - (* the general place *)
    unfold u. fold h.
    destruct (of_int_normal i ltac:(lia)) as [Hyi Hvi].
    destruct (of_int_normal r ltac:(lia)) as [Hyr Hvr].
    destruct (SFmul_normal _ _ _ _ d (Float.of_int i) Hd Hyi ltac:(lia) ltac:(lia))
      as (Ht1 & Ht1_up & _).
    destruct (SFmul_normal _ _ _ _ h (Float.of_int r) Hh Hyr ltac:(lia) ltac:(lia))
      as (Ht2 & Ht2_up & _).
    rewrite Hvi in Ht1_up. rewrite Hvr in Ht2_up.
    fold dq in Ht1_up. fold hq in Ht2_up. rewrite Heps in Ht1_up, Ht2_up.
    set (t1 := SFmul 53 1024 d (Float.of_int i)) in *.
    set (t2 := SFmul 53 1024 h (Float.of_int r)) in *.
    destruct (SFadd_normal _ _ _ _ t1 t2 Ht1 Ht2 ltac:(lia) ltac:(lia))
      as (Hu & Hu_one).
    split; [eapply SFleb_zero; exact Hu|].
    eapply SFleb_one; [exact Hu|]. apply Hu_one. rewrite Heps.
    set (iq := inject_Z i) in *. set (rq := inject_Z r) in *.
    assert (Hrq1 : (1 <= rq)%Q)
      by (unfold rq; change 1%Q with (inject_Z 1); rewrite <- Zle_Qle; lia).
    assert (Hiq0 : (0 <= iq)%Q)
      by (unfold iq; change 0%Q with (inject_Z 0); rewrite <- Zle_Qle; lia).
    assert (Hsum : (iq + rq <= mq)%Q)
      by (unfold iq, rq, mq; rewrite <- inject_Z_plus, <- Zle_Qle; lia).
    assert (P1 : (0 <= (dq * (1 # 2) * (1 + (1 # 9007199254740992)) - hq) * rq)%Q)
      by (apply Qmult_le_0_compat; lra).
    assert (P2 : (0 <= dq * (mq - iq - rq))%Q) by (apply Qmult_le_0_compat; lra).
    assert (P3 : (0 <= dq * (rq - 1))%Q) by (apply Qmult_le_0_compat; lra).
    assert (P4 : (0 <= dq * (2147483647 - mq))%Q) by (apply Qmult_le_0_compat; lra).
    lra.
Qed.

(* ================================================================= *)
(** * The fraction handed to [UniformToNatural] *)

(** For a base of at least two items the fraction of every place of the
    triangular grid lies between 0 and 1. *)
Lemma spline_fraction_bounds : forall baseCount r i,
  2 <= baseCount <= Int32.max_signed -> 0 <= r -> 0 <= i -> i < baseCount - r ->
  let relDistance :=
    Float.div Float.one (Float.of_int (Int32.sub baseCount 1)) in
  Float.leb Float.zero (spline_fraction relDistance r i) = true
  /\ Float.leb (spline_fraction relDistance r i) Float.one = true.
Proof.
  intros b r i Hb Hr Hi Hir relDistance. subst relDistance.
  unfold Int32.max_signed in Hb. change (2 ^ 31) with 2147483648 in Hb.
  rewrite Int32_sub_id.
  - apply (fraction_bounds (b - 1) r i); lia.
  - unfold Int32.in_range, Int32.min_signed, Int32.max_signed.
    change (2 ^ 31) with 2147483648. lia.
Qed.

(** C10, as the code has it.  On a path spline with a base of at least two
    items, the fraction [relDistance * itemIndex + relDistance * 0.5 * rowIndex]
    that [GenerateStack] hands to [UniformToNatural] lies between 0 and 1
    for every item of the grid: the offset of the higher rows never takes
    it past the end of the spline. *)
Theorem GenerateStack_fractions_in_unit_interval :
  forall {sdk : Sdk} (g : CanStackGenerator) (basePath : SplinePtr)
         (splineMg : Matrix) (lengthData : SplineLengthData) (relDistance : Float),
    Reachable g -> _initialized g = true ->
    2 <= _baseCount (_params g) ->
    fst (prepare g) = Some (OnSpline basePath splineMg lengthData relDistance) ->
    forall (r i : nat) (m : Matrix),
      cell (_array g) r i = Some m ->
      Float.leb Float.zero (spline_fraction relDistance (Z.of_nat r) (Z.of_nat i)) = true
      /\ Float.leb (spline_fraction relDistance (Z.of_nat r) (Z.of_nat i)) Float.one
         = true.
Proof.
  intros sdk g basePath splineMg lengthData relDistance Hreach Hinit Hb Hprep r i m Hcell.
  destruct (Reachable_inv g Hreach) as ((Hrange & _) & Hi & Hs).
  destruct (Hi Hinit) as [Hb1 Hr0]. destruct (Hs Hb1 Hr0) as [_ Hshape].
  assert (Hrel : relDistance
                 = Float.div Float.one
                     (Float.of_int (Int32.sub (_baseCount (_params g)) 1))).
  { unfold prepare in Hprep. destruct (_basePath (_params g)); [|discriminate].
    destruct (SplineLengthData_Init _ _) as [ok d']. destruct ok; [|discriminate].
    cbn in Hprep. now injection Hprep as _ _ _ <-. }
  rewrite Hrel.
  unfold cell in Hcell. destruct (nth_error (_array g) r) as [row|] eqn:Hrow;
    [|discriminate].
  assert (Hlen : BaseArray.GetCount row = _baseCount (_params g) - Z.of_nat r).
  { apply (map_nth_error BaseArray.GetCount) in Hrow. fold (row_sizes (_array g)) in Hrow.
    rewrite Hshape in Hrow. unfold stack_shape in Hrow. now apply triangle_nth in Hrow. }
  assert (Hi' : (i < length row)%nat) by (apply nth_error_Some; congruence).
  unfold BaseArray.GetCount in Hlen. unfold Int32.in_range in Hrange.
  apply spline_fraction_bounds; lia.
Qed.

Lemma GenerateStack_fractions_in_unit_interval_witness :
  Float.leb Float.zero (spline_fraction Float.half (Z.of_nat 1) (Z.of_nat 1)) = true
  /\ Float.leb (spline_fraction Float.half (Z.of_nat 1) (Z.of_nat 1)) Float.one = true.
Proof.
  refine (@GenerateStack_fractions_in_unit_interval Example.sdk
            Example.configured_path 1%positive Matrix_default tt Float.half
            _ _ _ _ 1%nat 1%nat Matrix_default _).
  - apply reach_InitStack; [apply reach_new|].
    unfold params_typed, Int32.in_range, UInt32.in_range,
      Int32.min_signed, Int32.max_signed; cbn; lia.
  - reflexivity.
  - change (2 <= 3). lia.
  - reflexivity.
  - reflexivity.
Defined.

(** C10, as the specification words it, fails: there are no parameters
    with a base of at least two items and no place of the grid for which
    the fraction lies outside the interval from 0 to 1. *)
Lemma no_fraction_outside_unit_interval :
  ~ exists (params : StackParameters) (r i : Z),
      params_typed params
      /\ 2 <= _baseCount params
      /\ 0 <= r < Int32.Min (_baseCount params) (_rowCount params)
      /\ 0 <= i < _baseCount params - r
      /\ (let relDistance :=
            Float.div Float.one
                      (Float.of_int (Int32.sub (_baseCount params) 1)) in
          Float.leb Float.zero (spline_fraction relDistance r i)
          && Float.leb (spline_fraction relDistance r i) Float.one) = false.
Proof.
  intros (params & r & i & ((_ & Hmax) & _) & Hb & Hr & Hi & Hout).
  destruct (spline_fraction_bounds (_baseCount params) r i) as [H0 H1]; try lia.
  cbv zeta in Hout. rewrite H0, H1 in Hout. discriminate.
Qed.

(* ================================================================= *)
(** * What every call of [InitStack] does *)

(** The ways out of [InitStack] all leave the random number generator
    seeded and the length data as it was. *)
Lemma InitStack_random_lengthData :
  forall {sdk : Sdk} (params : StackParameters) (g : CanStackGenerator),
    _random (snd (InitStack params g)) = Random_Init (_randomSeed params)
    /\ _splineLengthData (snd (InitStack params g)) = _splineLengthData g.
Proof.
  intros sdk params g. unfold InitStack. cbn [_params set_random].
  destruct (StackParameters_eqb params (_params g)); [split; reflexivity|].
  destruct (_baseCount params <? 1); [split; reflexivity|].
  cbn [_params set_params].
  match goal with
  | |- context [ResizeStack ?b ?r ?g0] =>
      rewrite (ResizeStack_array g0 b r);
      destruct (fst (ResizeStack b r g0))
  end; split; reflexivity.
Qed.

(** X1. Whatever way [InitStack] returns -- the parameters taken for the
    stored ones, refused, stored, or the grid not resized -- the random
    number generator is left in the state of the seed of the given
    parameters, also when the call fails, and the length data is never
    touched. *)
Theorem InitStack_always_seeds :
  forall {sdk : Sdk} (params : StackParameters) (g : CanStackGenerator),
    let g' := snd (InitStack params g) in
    _random g' = Random_Init (_randomSeed params)
    /\ _splineLengthData g' = _splineLengthData g
    /\ (forall rnd, snd (InitStack params (set_random g rnd)) = g').
Proof.
  intros sdk params g g'. subst g'.
  destruct (InitStack_random_lengthData params g) as [Hr Hd].
  split; [exact Hr|]. split; [exact Hd|].
  intros rnd. unfold InitStack. cbn [_params set_random].
  destruct g as [d a p r i]. reflexivity.
Qed.

Section Outcome.

Context {sdk : Sdk}.

(** A reachable generator that is not configured holds the default
    parameters. *)
Lemma Reachable_default : forall g,
  Reachable g -> _initialized g = false -> _params g = StackParameters_default.
Proof.
  induction 1 as [| params g Hreach IH Hp | g Hreach IH]; intros Hflag.
  - reflexivity.
  - pose proof (Reachable_inv g Hreach) as Hinv.
    unfold InitStack in *. cbn [_params set_random] in *.
    destruct (StackParameters_eqb params (_params g)) eqn:E.
    + apply IH. exact Hflag.
    + destruct (_baseCount params <? 1) eqn:Eb; [reflexivity|].
      apply Z.ltb_ge in Eb. cbn [_params set_params] in *.
      destruct Hp as (Hb & Hr & Hseed & Hr0).
      match type of Hflag with
      | context [ResizeStack ?b ?r ?g0] =>
          destruct (ResizeStack_shape g0 b r) as (a & Ha & _);
            [cbn [_baseCount _params set_params set_initialized set_random];
             unfold Int32.in_range in *; lia
            | cbn [_rowCount _params set_params set_initialized set_random]; lia
            | reflexivity |]
      end.
      rewrite Ha in Hflag. discriminate Hflag.
  - destruct (GenerateStack_keeps g) as (Hp & Hin & _).
    rewrite Hp. apply IH. now rewrite <- Hin.
Qed.

(** The flag of a reachable generator tells whether the stored base count
    is usable. *)
Lemma Reachable_flag : forall g,
  Reachable g -> _initialized g = (1 <=? _baseCount (_params g)).
Proof.
  intros g Hreach. destruct (Reachable_inv g Hreach) as ((_ & _ & _ & Hr0) & Hi & Hs).
  destruct (_initialized g) eqn:Hflag.
  - symmetry. apply Z.leb_le. now apply Hi.
  - symmetry. apply Z.leb_gt.
    destruct (Z_lt_ge_dec (_baseCount (_params g)) 1) as [Hlt | Hge]; [exact Hlt|].
    destruct (Hs ltac:(lia) Hr0) as [Hcontra _]. discriminate.
Qed.

End Outcome.

(** X2. For parameters in the ranges of their types whose row count is not
    negative, on a generator that calls of [InitStack] with such
    parameters and calls of [GenerateStack] have left (allocation taken to
    succeed): [InitStack] returns true exactly when the parameters compare
    equal to the stored ones or have a base count of at least 1, and it
    leaves the generator configured exactly when the base count is at
    least 1.  So a call can return true and leave the
    generator not configured (parameters with a base count below 1 that
    compare equal to the stored ones); [GenerateStack] fails after it. *)
Theorem InitStack_outcome :
  forall {sdk : Sdk} (g : CanStackGenerator) (params : StackParameters),
    Reachable g -> params_typed params ->
    fst (InitStack params g)
    = StackParameters_eqb params (_params g) || (1 <=? _baseCount params)
    /\ _initialized (snd (InitStack params g)) = (1 <=? _baseCount params)
    /\ (_baseCount params < 1 ->
        fst (GenerateStack (snd (InitStack params g))) = false).
Proof.
  intros sdk g params Hreach Hp.
  assert (Hflag : _initialized (snd (InitStack params g)) = (1 <=? _baseCount params)).
  { pose proof (Reachable_flag _ (reach_InitStack params g Hreach Hp)) as Hf.
    rewrite Hf. unfold InitStack. cbn [_params set_random].
    destruct (StackParameters_eqb params (_params g)) eqn:E.
    - apply StackParameters_eqb_counts in E. destruct E as (-> & _). reflexivity.
    - destruct (_baseCount params <? 1) eqn:Eb.
      + apply Z.ltb_lt in Eb. cbn. symmetry. apply Z.leb_gt. exact Eb.
      + cbn [_params set_params].
        match goal with
        | |- context [ResizeStack ?b ?r ?g0] =>
            rewrite (ResizeStack_array g0 b r);
            destruct (fst (ResizeStack b r g0))
        end; reflexivity. }
  split; [|split; [exact Hflag|]].
  - pose proof (Reachable_inv g Hreach) as Hinv.
    destruct (1 <=? _baseCount params) eqn:Eb.
    + apply Z.leb_le in Eb. rewrite orb_true_r.
      apply (InitStack_shape params g Hinv Hp Eb). apply Hp.
    + rewrite orb_false_r. apply Z.leb_gt in Eb. unfold InitStack.
      cbn [_params set_random].
      destruct (StackParameters_eqb params (_params g)); [reflexivity|].
      destruct (_baseCount params <? 1) eqn:Eb'; [reflexivity|].
      apply Z.ltb_ge in Eb'. lia.
  - intros Hlt. unfold GenerateStack. rewrite Hflag.
    destruct (1 <=? _baseCount params) eqn:Eb; [apply Z.leb_le in Eb; lia|].
    reflexivity.
Qed.

(** The default parameters on a new generator: the call returns true and
    the generator is not configured. *)
Lemma InitStack_outcome_witness :
  fst (InitStack StackParameters_default (@Generator_new Example.sdk))
  = StackParameters_eqb StackParameters_default (_params (@Generator_new Example.sdk))
    || (1 <=? _baseCount StackParameters_default)
  /\ _initialized (snd (InitStack StackParameters_default (@Generator_new Example.sdk)))
     = (1 <=? _baseCount StackParameters_default)
  /\ (_baseCount StackParameters_default < 1 ->
      fst (GenerateStack (snd (InitStack StackParameters_default
                                 (@Generator_new Example.sdk)))) = false).
Proof.
  apply (@InitStack_outcome Example.sdk Generator_new StackParameters_default).
  - apply reach_new.
  - unfold params_typed, Int32.in_range, UInt32.in_range,
      Int32.min_signed, Int32.max_signed; cbn; lia.
Defined.

(** X3. What calls of [InitStack] with parameters in the ranges of their
    types and a row count that is not negative, and calls of
    [GenerateStack], keep in any order (allocation taken to succeed): a
    generator is either configured, and then the stored base count is at
    least 1 and the grid has the triangular shape of the stored
    parameters, no row empty; or it is not configured, and then it holds
    the default parameters. *)
Theorem Reachable_configured_or_default :
  forall {sdk : Sdk} (g : CanStackGenerator),
    Reachable g ->
    if _initialized g
    then 1 <= _baseCount (_params g)
         /\ row_sizes (_array g) = stack_shape (_params g)
         /\ Forall (fun row => 0 < BaseArray.GetCount row) (_array g)
    else _params g = StackParameters_default.
Proof.
  intros sdk g Hreach.
  destruct (_initialized g) eqn:Hflag; [|now apply Reachable_default].
  destruct (Reachable_inv g Hreach) as (_ & Hi & Hs).
  destruct (Hi Hflag) as [Hb Hr]. destruct (Hs Hb Hr) as [_ Hshape].
  split; [exact Hb|]. split; [exact Hshape|].
  apply Forall_forall. intros row Hin.
  apply (in_map BaseArray.GetCount) in Hin. fold (row_sizes (_array g)) in Hin.
  rewrite Hshape in Hin. unfold stack_shape in Hin.
  eapply triangle_positive; [|exact Hin]. lia.
Qed.

Lemma Reachable_configured_or_default_witness :
  if _initialized Example.configured
  then 1 <= _baseCount (_params Example.configured)
       /\ row_sizes (_array Example.configured) = stack_shape (_params Example.configured)
       /\ Forall (fun row => 0 < BaseArray.GetCount row) (_array Example.configured)
  else _params Example.configured = StackParameters_default.
Proof.
  apply (@Reachable_configured_or_default Example.sdk Example.configured).
  apply reach_InitStack; [apply reach_new|].
  unfold params_typed, Int32.in_range, UInt32.in_range,
    Int32.min_signed, Int32.max_signed; cbn; lia.
Defined.

(** X4. The number of items of the grid, whatever the two counts: with
    [n = min(baseCount, rowCount)] rows the grid [InitStack] leaves holds
    [n * (2 * baseCount - n + 1) / 2] items, which is at most
    [baseCount * (baseCount + 1) / 2]. *)
Theorem InitStack_item_count :
  forall {sdk : Sdk} (g : CanStackGenerator) (params : StackParameters),
    Reachable g -> params_typed params -> 1 <= _baseCount params ->
    let n := Z.min (_baseCount params) (_rowCount params) in
    let N := total_items (_array (snd (InitStack params g))) in
    2 * N = n * (2 * _baseCount params - n + 1)
    /\ 2 * N <= _baseCount params * (_baseCount params + 1).
Proof.
  intros sdk g params Hreach Hp Hb n N.
  assert (Hr : 0 <= _rowCount params) by apply Hp.
  destruct (InitStack_shape params g (Reachable_inv g Hreach) Hp Hb Hr)
    as (_ & _ & Hshape).
  assert (HN : 2 * N = n * (2 * _baseCount params - n + 1)).
  { subst N. rewrite total_items_sum, Hshape. unfold stack_shape.
    rewrite triangle_sum. fold n. rewrite Z2Nat.id by (subst n; lia). reflexivity. }
  split; [exact HN|]. rewrite HN.
  assert (0 <= n <= _baseCount params) by (subst n; lia). nia.
Qed.

Lemma InitStack_item_count_witness :
  let n := Z.min (_baseCount Example.params_5_2) (_rowCount Example.params_5_2) in
  let N := total_items (_array (snd (InitStack Example.params_5_2 Generator_new))) in
  2 * N = n * (2 * _baseCount Example.params_5_2 - n + 1)
  /\ 2 * N <= _baseCount Example.params_5_2 * (_baseCount Example.params_5_2 + 1).
Proof.
  apply (@InitStack_item_count Example.sdk Generator_new Example.params_5_2).
  - apply reach_new.
  - unfold params_typed, Int32.in_range, UInt32.in_range,
      Int32.min_signed, Int32.max_signed; cbn; lia.
  - cbn; lia.
Defined.

(* ================================================================= *)
(** * The comparison operator, member by member *)

Lemma Float_eqb_refl : forall a : Float, a <> S754_nan -> Float.eqb a a = true.
Proof.
  intros a Ha. unfold Float.eqb, SFeqb.
  destruct a as [s|s| |s m e]; cbn; try reflexivity; try congruence.
  - destruct s; reflexivity.
  - destruct s; rewrite Z.compare_refl;
      change (Pos.compare_cont Eq m m) with (Pos.compare m m);
      rewrite Pos.compare_refl; reflexivity.
Qed.

Lemma Float_eqb_spec : forall a b : Float,
  Float.eqb a b = true <-> equal_numbers a b.
Proof.
  intros a b. unfold equal_numbers, Float.same_value. split.
  - unfold Float.eqb, SFeqb. intros H.
    destruct a as [sa|sa| |sa ma ea], b as [sb|sb| |sb mb eb]; cbn in H;
      try discriminate H.
    + split; [discriminate | right; split; reflexivity].
    + destruct sb; discriminate H.
    + destruct sb; discriminate H.
    + destruct sa; discriminate H.
    + split; [discriminate|]. left. destruct sa, sb; try discriminate H; reflexivity.
    + destruct sa; discriminate H.
    + destruct sa; discriminate H.
    + destruct sb; discriminate H.
    + split; [discriminate|]. left.
      destruct sa, sb; try discriminate H;
        destruct (Z.compare_spec ea eb) as [He|He|He]; try discriminate H;
        subst eb;
        destruct (Pos.compare_cont Eq ma mb) eqn:Ec; try discriminate H;
        apply Pos.compare_eq in Ec; subst mb; reflexivity.
  - intros [Hnan [-> | [Ha Hb]]].
    + now apply Float_eqb_refl.
    + destruct a, b; try discriminate; reflexivity.
Qed.

Lemma equal_numbers_sym : forall a b, equal_numbers a b -> equal_numbers b a.
Proof.
  intros a b [Ha [-> | [Hza Hzb]]].
  - split; [exact Ha | left; reflexivity].
  - split; [destruct b; try discriminate; discriminate | right; split; assumption].
Qed.

Lemma equal_numbers_trans : forall a b c,
  equal_numbers a b -> equal_numbers b c -> equal_numbers a c.
Proof.
  intros a b c [Ha Hab] [Hb Hbc]. split; [exact Ha|].
  destruct Hab as [-> | [Hza Hzb]]; [exact Hbc|].
  destruct Hbc as [<- | [_ Hzc]]; right; split; assumption.
Qed.

(** [operator ==], member by member: a NaN equals nothing, a zero equals
    the zero of the other sign. *)
Lemma StackParameters_eqb_members : forall x1 x2 : StackParameters,
  StackParameters_eqb x1 x2 = true <->
  _baseCount x1 = _baseCount x2
  /\ equal_numbers (_baseLength x1) (_baseLength x2)
  /\ _rowCount x1 = _rowCount x2
  /\ equal_numbers (_rowHeight x1) (_rowHeight x2)
  /\ _randomSeed x1 = _randomSeed x2
  /\ equal_numbers (_randomPos x1) (_randomPos x2)
  /\ equal_numbers (_randomRot x1) (_randomRot x2).
Proof.
  intros x1 x2. unfold StackParameters_eqb.
  rewrite !andb_true_iff, !Z.eqb_eq, !Float_eqb_spec. tauto.
Qed.

(** X6. [operator ==] is symmetric and transitive.  It is not reflexive:
    parameters compare equal to themselves exactly when none of the four
    floats compared is a NaN. *)
Theorem StackParameters_eqb_partial_equivalence :
  forall x1 x2 x3 : StackParameters,
    StackParameters_eqb x1 x2 = StackParameters_eqb x2 x1
    /\ (StackParameters_eqb x1 x2 = true -> StackParameters_eqb x2 x3 = true ->
        StackParameters_eqb x1 x3 = true)
    /\ (StackParameters_eqb x1 x1 = true <->
        _baseLength x1 <> S754_nan /\ _rowHeight x1 <> S754_nan
        /\ _randomPos x1 <> S754_nan /\ _randomRot x1 <> S754_nan).
Proof.
  intros x1 x2 x3.
  assert (Hsym : forall a b, StackParameters_eqb a b = true ->
                             StackParameters_eqb b a = true).
  { intros a b H. apply StackParameters_eqb_members in H.
    apply StackParameters_eqb_members.
    destruct H as (H1 & H2 & H3 & H4 & H5 & H6 & H7).
    split; [congruence|]. split; [now apply equal_numbers_sym|].
    split; [congruence|]. split; [now apply equal_numbers_sym|].
    split; [congruence|]. split; now apply equal_numbers_sym. }
  split; [|split].
  - destruct (StackParameters_eqb x1 x2) eqn:E12.
    + symmetry. now apply Hsym.
    + destruct (StackParameters_eqb x2 x1) eqn:E21; [|reflexivity].
      apply Hsym in E21. congruence.
  - intros H12 H23. apply StackParameters_eqb_members in H12, H23.
    apply StackParameters_eqb_members.
    destruct H12 as (A1 & A2 & A3 & A4 & A5 & A6 & A7).
    destruct H23 as (B1 & B2 & B3 & B4 & B5 & B6 & B7).
    split; [congruence|]. split; [eapply equal_numbers_trans; eassumption|].
    split; [congruence|]. split; [eapply equal_numbers_trans; eassumption|].
    split; [congruence|]. split; eapply equal_numbers_trans; eassumption.
  - rewrite StackParameters_eqb_members. unfold equal_numbers, Float.same_value.
    intuition.
Qed.

(* ================================================================= *)
(** * The parameters [InitStack] leaves *)

(** X7. After a successful [InitStack] the generator holds the given
    parameters, or -- when the given ones compared equal to the stored
    ones -- the stored ones unchanged.  With a NaN among the four floats
    that the comparison reads, it always holds the given ones. *)
Theorem InitStack_stored_parameters :
  forall {sdk : Sdk} (g : CanStackGenerator) (params : StackParameters),
    fst (InitStack params g) = true ->
    let stored := _params (snd (InitStack params g)) in
    (stored = params
     \/ StackParameters_eqb params (_params g) = true /\ stored = _params g)
    /\ (_baseLength params = S754_nan \/ _rowHeight params = S754_nan
        \/ _randomPos params = S754_nan \/ _randomRot params = S754_nan ->
        stored = params).
Proof.
  intros sdk g params Hok stored.
  assert (H : stored = params
              \/ StackParameters_eqb params (_params g) = true /\ stored = _params g).
  { subst stored. unfold InitStack in *. cbn [_params set_random] in *.
    destruct (StackParameters_eqb params (_params g)) eqn:E.
    - right. split; reflexivity.
    - left. destruct (_baseCount params <? 1); [discriminate|].
      cbn [_params set_params] in *.
      match goal with
      | |- context [ResizeStack ?b ?r ?g0] =>
          rewrite (ResizeStack_array g0 b r) in *;
          destruct (fst (ResizeStack b r g0))
      end; [reflexivity | discriminate]. }
  split; [exact H|]. intros Hnan.
  destruct H as [H | [E _]]; [exact H|].
  apply StackParameters_eqb_members in E.
  destruct E as (_ & (N1 & _) & _ & (N2 & _) & _ & (N3 & _) & (N4 & _)).
  destruct Hnan as [Hn | [Hn | [Hn | Hn]]]; congruence.
Qed.

Lemma InitStack_stored_parameters_witness :
  let stored := _params (snd (InitStack Example.params_3_3 (@Generator_new Example.sdk))) in
  (stored = Example.params_3_3
   \/ StackParameters_eqb Example.params_3_3 (_params (@Generator_new Example.sdk)) = true
      /\ stored = _params (@Generator_new Example.sdk))
  /\ (_baseLength Example.params_3_3 = S754_nan \/ _rowHeight Example.params_3_3 = S754_nan
      \/ _randomPos Example.params_3_3 = S754_nan
      \/ _randomRot Example.params_3_3 = S754_nan ->
      stored = Example.params_3_3).
Proof.
  apply (@InitStack_stored_parameters Example.sdk Generator_new Example.params_3_3).
  reflexivity.
Defined.

(* ================================================================= *)
(** * What [GenerateStack] reads and writes *)

Section Generated.

Context {sdk : Sdk}.

(** The loops draw three times for each item, whatever the indices. *)
Lemma generate_items_draws : forall p pl r row i rnd,
  snd (generate_items p pl r row i rnd) = draws (3 * length row) rnd.
Proof.
  induction row as [|m row IH]; intros i rnd; [reflexivity|].
  cbn [generate_items].
  pose proof (generate_item_draws p pl r i rnd) as Hd.
  destruct (generate_item p pl r i rnd) as [mg rnd1]. cbn [snd] in Hd. subst rnd1.
  specialize (IH (Int32.succ i) (draws 3 rnd)).
  destruct (generate_items p pl r row (Int32.succ i) (draws 3 rnd)) as [rest rnd2].
  cbn [snd] in *. subst rnd2.
  replace (3 * length (m :: row))%nat with (3 + 3 * length row)%nat
    by (cbn [length]; lia).
  now rewrite draws_add.
Qed.

Lemma generate_rows_draws : forall p pl rows k rnd,
  snd (generate_rows p pl rows k rnd) = draws (3 * length (layout_items rows)) rnd.
Proof.
  induction rows as [|row rows IH]; intros k rnd; [reflexivity|].
  cbn [generate_rows].
  pose proof (generate_items_draws p pl k row 0 rnd) as Hd.
  destruct (generate_items p pl k row 0 rnd) as [row' rnd1]. cbn [snd] in Hd.
  subst rnd1.
  specialize (IH (Int32.succ k) (draws (3 * length row) rnd)).
  destruct (generate_rows p pl rows (Int32.succ k) _) as [rest rnd2].
  cbn [snd] in *. subst rnd2.
  unfold layout_items. cbn [concat]. rewrite length_app, Nat.mul_add_distr_l.
  now rewrite draws_add.
Qed.

(** The length data the prologue works on: the one the generator holds,
    or a newly allocated one. *)
Lemma prepare_lengthData : forall g,
  _splineLengthData (snd (prepare g))
  = match _basePath (_params g) with
    | Some basePath =>
        Some (snd (SplineLengthData_Init
                     match _splineLengthData g with
                     | Some d => d
                     | None => SplineLengthData_Alloc
                     end basePath))
    | None => _splineLengthData g
    end.
Proof.
  intros g. unfold prepare. destruct (_basePath (_params g)); [|reflexivity].
  destruct (SplineLengthData_Init _ _) as [ok d]. destruct ok; reflexivity.
Qed.

End Generated.

(** X8. Allocation taken to succeed, [GenerateStack] fails in two cases
    only: the generator is not configured, or there is a path spline and
    the initialisation of the length data for it fails.  A failing call
    leaves the grid, the random number generator, the stored parameters
    and the flag as they were: no partly generated layout is left behind. *)
Theorem GenerateStack_fails_cleanly :
  forall {sdk : Sdk} (g : CanStackGenerator),
    let g' := snd (GenerateStack g) in
    (fst (GenerateStack g) = false <->
     _initialized g = false
     \/ exists basePath,
          _basePath (_params g) = Some basePath
          /\ fst (SplineLengthData_Init
                    match _splineLengthData g with
                    | Some d => d
                    | None => SplineLengthData_Alloc
                    end basePath) = false)
    /\ (fst (GenerateStack g) = false ->
        _array g' = _array g /\ _random g' = _random g
        /\ _params g' = _params g /\ _initialized g' = _initialized g).
Proof.
  intros sdk g g'. subst g'. unfold GenerateStack.
  destruct (_initialized g) eqn:Hflag; cbn [negb].
  - destruct (prepare_keeps g) as (Hp & Ha & Hin & Hr).
    unfold prepare in *.
    destruct (_basePath (_params g)) as [basePath|] eqn:Hpath.
    + destruct (SplineLengthData_Init _ basePath) as [ok d] eqn:Hinit.
      destruct ok; cbn [negb fst snd] in *.
      * unfold run_loops. destruct (generate_rows _ _ _ _ _) as [a rnd].
        cbn [fst]. split; [|discriminate]. split; [discriminate|].
        intros [Hcontra | (basePath' & Heq & Hfail)]; [discriminate|].
        injection Heq as <-. rewrite Hinit in Hfail. discriminate.
      * split; [|intros _; rewrite Hflag in Hin; auto].
        split; [|reflexivity]. intros _. right. exists basePath.
        split; [reflexivity|]. rewrite Hinit. reflexivity.
    + cbn [fst snd] in *. unfold run_loops.
      destruct (generate_rows _ _ _ _ _) as [a rnd]. cbn [fst].
      split; [|discriminate]. split; [discriminate|].
      intros [Hcontra | (basePath' & Heq & _)]; discriminate.
  - cbn [fst snd]. split; [|auto]. split; [auto | reflexivity].
Qed.

(** X9. A successful [GenerateStack] draws exactly three random numbers
    for each item of the grid, with or without a path spline: the random
    number generator ends [3 * N] draws past the state it started in. *)
Theorem GenerateStack_draws :
  forall {sdk : Sdk} (g g' : CanStackGenerator),
    GenerateStack g = (true, g') ->
    _random g' = draws (3 * length (layout_items (_array g))) (_random g).
Proof.
  intros sdk g g' Hgen. unfold GenerateStack in Hgen.
  destruct (_initialized g); cbn [negb] in Hgen; [|discriminate].
  destruct (prepare_keeps g) as (Hp & Ha & _ & Hr).
  destruct (prepare g) as [[pl|] g1]; [|discriminate]. cbn [snd] in *.
  unfold run_loops in Hgen.
  pose proof (generate_rows_draws (_params g1) pl (_array g1) 0 (_random g1)) as Hd.
  destruct (generate_rows _ _ _ _ _) as [a rnd]. cbn [snd] in Hd.
  injection Hgen as <-. cbn [_random set_random]. now rewrite Hd, Ha, Hr.
Qed.

Lemma GenerateStack_draws_witness :
  _random Example.generated
  = draws (3 * length (layout_items (_array Example.configured)))
          (_random Example.configured).
Proof.
  apply (@GenerateStack_draws Example.sdk Example.configured Example.generated).
  reflexivity.
Defined.

(** X10. The length data is allocated once and never released.
    [GenerateStack] without a path spline leaves it as it is; with a path
    spline a configured generator holds a length data afterwards, also
    when its initialisation failed; and once the generator holds one,
    neither [InitStack] nor [GenerateStack] takes it away. *)
Theorem splineLengthData_kept :
  forall {sdk : Sdk} (g : CanStackGenerator) (params : StackParameters),
    (_basePath (_params g) = None ->
     _splineLengthData (snd (GenerateStack g)) = _splineLengthData g)
    /\ (_initialized g = true -> _basePath (_params g) <> None ->
        _splineLengthData (snd (GenerateStack g)) <> None)
    /\ (_splineLengthData g <> None ->
        _splineLengthData (snd (GenerateStack g)) <> None
        /\ _splineLengthData (snd (InitStack params g)) <> None).
Proof.
  intros sdk g params.
  assert (Hgen : _splineLengthData (snd (GenerateStack g))
                 = if _initialized g then _splineLengthData (snd (prepare g))
                   else _splineLengthData g).
  { unfold GenerateStack. destruct (_initialized g); cbn [negb]; [|reflexivity].
    destruct (prepare g) as [[pl|] g1]; cbn [snd]; [|reflexivity].
    unfold run_loops. destruct (generate_rows _ _ _ _ _). reflexivity. }
  rewrite Hgen, prepare_lengthData.
  split; [|split].
  - intros ->. now destruct (_initialized g).
  - intros -> Hpath. destruct (_basePath (_params g)); [discriminate | congruence].
  - intros Hsome. split.
    + destruct (_initialized g); [|exact Hsome].
      destruct (_basePath (_params g)); [discriminate | exact Hsome].
    + destruct (InitStack_random_lengthData params g) as [_ ->]. exact Hsome.
Qed.

(* ================================================================= *)
(** * What [GenerateStack] reads of the grid *)

Section Overwrites.

Context {sdk : Sdk}.

(** The loops read the sizes of the rows and never an item. *)
Lemma generate_items_shape : forall p pl r (row1 row2 : MatrixArray) i rnd,
  length row1 = length row2 ->
  generate_items p pl r row1 i rnd = generate_items p pl r row2 i rnd.
Proof.
  induction row1 as [|m1 row1 IH]; intros [|m2 row2] i rnd Hlen;
    try discriminate; [reflexivity|].
  cbn [generate_items]. destruct (generate_item p pl r i rnd) as [mg rnd1].
  rewrite (IH row2) by (cbn in Hlen; lia). reflexivity.
Qed.

Lemma generate_rows_shape : forall p pl (rows1 rows2 : StackRowArray) k rnd,
  row_sizes rows1 = row_sizes rows2 ->
  generate_rows p pl rows1 k rnd = generate_rows p pl rows2 k rnd.
Proof.
  induction rows1 as [|row1 rows1 IH]; intros [|row2 rows2] k rnd Hs;
    try discriminate; [reflexivity|].
  cbn [row_sizes map] in Hs. injection Hs as Hrow Hrows.
  cbn [generate_rows].
  rewrite (generate_items_shape p pl k row1 row2)
    by (unfold BaseArray.GetCount in Hrow; lia).
  destruct (generate_items p pl k row2 0 rnd) as [row' rnd1].
  rewrite (IH rows2) by exact Hrows. reflexivity.
Qed.

End Overwrites.

(** X11. [GenerateStack] overwrites every item and reads none: two
    generators that agree in everything but the matrices their grids hold
    (the grids having rows of the same sizes) succeed or fail alike, and
    when they succeed they end as the very same generator.  No matrix of
    an earlier layout survives. *)
Theorem GenerateStack_overwrites :
  forall {sdk : Sdk} (g1 g2 : CanStackGenerator),
    _params g1 = _params g2 -> _random g1 = _random g2 ->
    _initialized g1 = _initialized g2 ->
    _splineLengthData g1 = _splineLengthData g2 ->
    row_sizes (_array g1) = row_sizes (_array g2) ->
    fst (GenerateStack g1) = fst (GenerateStack g2)
    /\ (fst (GenerateStack g1) = true ->
        snd (GenerateStack g1) = snd (GenerateStack g2)).
Proof.
  intros sdk [d1 a1 p1 r1 i1] [d2 a2 p2 r2 i2]. cbn.
  intros <- <- <- <- Hsizes.
  unfold GenerateStack. cbn [_initialized].
  destruct i1; cbn [negb]; [|split; [reflexivity | discriminate]].
  unfold prepare. cbn [_params _splineLengthData].
  destruct (_basePath p1) as [basePath|].
  - destruct (SplineLengthData_Init _ basePath) as [ok d].
    destruct ok; cbn [negb].
    + unfold run_loops, set_splineLengthData.
      cbn [_params _array _random _splineLengthData _initialized].
      rewrite (generate_rows_shape _ _ a1 a2) by exact Hsizes.
      destruct (generate_rows _ _ a2 _ _) as [a rnd]. split; reflexivity.
    + split; [reflexivity | discriminate].
  - unfold run_loops. cbn [_params _array _random].
    rewrite (generate_rows_shape _ _ a1 a2) by exact Hsizes.
    destruct (generate_rows _ _ a2 _ _) as [a rnd]. split; reflexivity.
Qed.

Lemma GenerateStack_overwrites_witness :
  fst (GenerateStack Example.configured)
  = fst (GenerateStack Example.configured_stale)
  /\ (fst (GenerateStack Example.configured) = true ->
      snd (GenerateStack Example.configured)
      = snd (GenerateStack Example.configured_stale)).
Proof.
  apply (@GenerateStack_overwrites Example.sdk Example.configured
           Example.configured_stale); reflexivity.
Defined.

(* ================================================================= *)
(** * Two-sided bounds for the operations in the normal range *)

(** The product, within the relative error [2 ^ -53] on both sides. *)
Lemma SFmul_normal_bounds : forall lo1 hi1 lo2 hi2 x y,
  normal_pos lo1 hi1 x -> normal_pos lo2 hi2 y ->
  -1074 <= lo1 + lo2 + 52 -> hi1 + hi2 + 54 <= 971 ->
  normal_pos (lo1 + lo2 + 52) (hi1 + hi2 + 54) (SFmul 53 1024 x y)
  /\ (value x * value y * (1 - bpow (-53)) <= value (SFmul 53 1024 x y))%Q
  /\ (value (SFmul 53 1024 x y) <= value x * value y * (1 + bpow (-53)))%Q.
Proof.
  intros lo1 hi1 lo2 hi2 x y Hx Hy Hlo Hhi.
  destruct (normal_pos_value _ _ _ Hx) as (mx & ex & -> & Hmx & Hex & Hvx & _).
  destruct (normal_pos_value _ _ _ Hy) as (my & ey & -> & Hmy & Hey & Hvy & _).
  cbn [SFmul xorb].
  set (A := Zpos mx * Zpos my).
  assert (HA : 2 ^ 104 <= A < 2 ^ 106).
  { unfold A. change (2 ^ 104) with (2 ^ 52 * 2 ^ 52).
    change (2 ^ 106) with (2 ^ 53 * 2 ^ 53). nia. }
  assert (HA0 : 0 < A) by (change (2 ^ 104) with 20282409603651670423947251286016 in HA; lia).
  destruct (Zdigits2_range A 104 106 ltac:(lia) HA) as [Hk1 Hk2].
  replace (Zpos (mx * my)) with (A / 1) by (rewrite Z.div_1_r; reflexivity).
  replace loc_Exact with (loc_spec 1 (A mod 1))
    by (rewrite Z.mod_1_r; reflexivity).
  assert (Hd : Zdigits2 (A / 1) = Zdigits2 A) by (now rewrite Z.div_1_r).
  destruct (round_Q A 1 (ex + ey) ltac:(lia) HA0) as (Hn & Hup & Hlow & _);
    try (rewrite Hd; lia).
  rewrite Hd in Hn.
  assert (HX : (inject_Z A / inject_Z 1 * bpow (ex + ey) == value (S754_finite false mx ex) * value (S754_finite false my ey))%Q).
  { rewrite Hvx, Hvy. unfold A. rewrite inject_Z_mult, bpow_add.
    change (inject_Z 1) with 1%Q. field. }
  rewrite HX in Hup, Hlow.
  split; [|split; [exact Hlow | exact Hup]].
  eapply normal_pos_weaken; [exact Hn | lia | lia].
Qed.

(** The sum, within the relative error [2 ^ -53] on both sides. *)
Lemma SFadd_normal_bounds : forall lo1 hi1 lo2 hi2 x y,
  normal_pos lo1 hi1 x -> normal_pos lo2 hi2 y ->
  -1074 <= Z.min lo1 lo2 -> Z.max hi1 hi2 + 2 <= 971 ->
  normal_pos (Z.min lo1 lo2) (Z.max hi1 hi2 + 2) (SFadd 53 1024 x y)
  /\ ((value x + value y) * (1 - bpow (-53)) <= value (SFadd 53 1024 x y))%Q
  /\ (value (SFadd 53 1024 x y) <= (value x + value y) * (1 + bpow (-53)))%Q.
Proof.
  intros lo1 hi1 lo2 hi2 x y Hx Hy Hlo Hhi.
  destruct (normal_pos_value _ _ _ Hx) as (mx & ex & -> & Hmx & Hex & Hvx & _).
  destruct (normal_pos_value _ _ _ Hy) as (my & ey & -> & Hmy & Hey & Hvy & _).
  cbn [SFadd cond_Zopp].
  set (ez := Z.min ex ey).
  destruct (shl_align_spec mx ex ez) as [_ Hax].
  destruct (shl_align_spec my ey ez) as [_ Hay].
  replace (Z.min ex ez) with ez in Hax by (unfold ez; lia).
  replace (Z.min ey ez) with ez in Hay by (unfold ez; lia).
  set (ax := fst (shl_align mx ex ez)) in *.
  set (ay := fst (shl_align my ey ez)) in *.
  clearbody ax ay.
  assert (Hpx : 1 <= 2 ^ (ex - ez)) by (apply Z.lt_pred_le, Z.pow_pos_nonneg; unfold ez; lia).
  assert (Hpy : 1 <= 2 ^ (ey - ez)) by (apply Z.lt_pred_le, Z.pow_pos_nonneg; unfold ez; lia).
  set (w := Z.max ex ey - ez).
  assert (Hw : 0 <= w) by (unfold w, ez; lia).
  assert (Hpxw : 2 ^ (ex - ez) <= 2 ^ w) by (apply Z.pow_le_mono_r; unfold w, ez; lia).
  assert (Hpyw : 2 ^ (ey - ez) <= 2 ^ w) by (apply Z.pow_le_mono_r; unfold w, ez; lia).
  assert (Hsum : Zpos ax + Zpos ay = Zpos (ax + ay)) by reflexivity.
  rewrite Hsum. cbn [binary_normalize]. unfold binary_round.
  set (sm := Zpos (ax + ay)) in *.
  assert (HS : 2 ^ 53 <= sm < 2 ^ (54 + w)).
  { rewrite <- Hsum, Hax, Hay.
    replace (54 + w) with (1 + 53 + w) by lia.
    rewrite !Z.pow_add_r by lia. change (2 ^ 1) with 2.
    change (2 ^ 53) with (2 * 2 ^ 52) at 1. nia. }
  destruct (Zdigits2_range sm 53 (54 + w) ltac:(lia) HS) as [Hk1 Hk2].
  change (Zpos (digits2_pos (ax + ay))) with (Zdigits2 sm).
  assert (Hsm0 : 0 < sm) by reflexivity.
  pose proof (round_Q sm 1 ez ltac:(lia) Hsm0) as HR.
  rewrite Z.div_1_r, Z.mod_1_r in HR.
  change (loc_spec 1 0) with loc_Exact in HR. cbv zeta in HR.
  set (k := Zdigits2 sm) in *. clearbody k.
  assert (Hfexp : fexp 53 1024 (k + ez) = k + ez - 53).
  { unfold fexp, SpecFloat.emin. unfold ez. lia. }
  rewrite Hfexp.
  assert (Hsh : shl_align (ax + ay) ez (k + ez - 53) = ((ax + ay)%positive, ez)).
  { unfold shl_align. destruct (k + ez - 53 - ez) eqn:E; try reflexivity. lia. }
  rewrite Hsh. fold sm.
  destruct HR as (Hn & Hup & Hlow & _); try (unfold sm, w, ez in *; lia).
  assert (HX : (inject_Z sm / inject_Z 1 * bpow ez
                == value (S754_finite false mx ex) + value (S754_finite false my ey))%Q).
  { rewrite Hvx, Hvy. rewrite <- Hsum, inject_Z_plus, Hax, Hay.
    rewrite !inject_Z_mult, (bpow_Z (ex - ez)), (bpow_Z (ey - ez))
      by (unfold ez; lia).
    assert (E1 : (bpow (ex - ez) * bpow ez == bpow ex)%Q)
      by (rewrite <- bpow_add; replace (ex - ez + ez) with ex by lia; reflexivity).
    assert (E2 : (bpow (ey - ez) * bpow ez == bpow ey)%Q)
      by (rewrite <- bpow_add; replace (ey - ez + ez) with ey by lia; reflexivity).
    rewrite <- E1, <- E2. change (inject_Z 1) with 1%Q. field. }
  rewrite HX in Hup, Hlow.
  split; [|split; [exact Hlow | exact Hup]].
  eapply normal_pos_weaken; [exact Hn | unfold ez; lia | unfold w, ez in *; lia].
Qed.

Lemma zero_or_normal_value : forall lo hi f,
  zero_or_normal lo hi f -> (0 <= value f)%Q.
Proof.
  intros lo hi f [-> | Hf]; [cbn; lra|].
  destruct (normal_pos_value _ _ _ Hf) as (m & e & _ & _ & _ & _ & Hpos). lra.
Qed.

(** The product of a float in the normal range and a converted integer
    that is not negative. *)
Lemma SFmul_of_int_bounds : forall lo hi x n,
  normal_pos lo hi x -> 0 <= n < 2 ^ 53 ->
  -1074 <= lo -> hi + 55 <= 971 ->
  zero_or_normal lo (hi + 55) (SFmul 53 1024 x (Float.of_int n))
  /\ (value x * inject_Z n * (1 - bpow (-53))
      <= value (SFmul 53 1024 x (Float.of_int n)))%Q
  /\ (value (SFmul 53 1024 x (Float.of_int n))
      <= value x * inject_Z n * (1 + bpow (-53)))%Q.
Proof.
  intros lo hi x n Hx Hn Hlo Hhi.
  destruct (Z.eq_dec n 0) as [-> | Hn0].
  - destruct Hx as (m & e & -> & _). change (Float.of_int 0) with (S754_zero false).
    cbn [SFmul xorb value]. split; [left; reflexivity|].
    change (inject_Z 0) with 0%Q. split; lra.
  - destruct (of_int_normal n ltac:(lia)) as [Hy Hvy].
    destruct (SFmul_normal_bounds _ _ _ _ x (Float.of_int n) Hx Hy ltac:(lia) ltac:(lia))
      as (Hp & Hl & Hu).
    rewrite Hvy in Hl, Hu. split; [|split; assumption].
    right. eapply normal_pos_weaken; [exact Hp | lia | lia].
Qed.

(** The sum of two floats that are zero or in the normal range. *)
Lemma SFadd_zero_or_normal : forall lo1 hi1 lo2 hi2 x y,
  zero_or_normal lo1 hi1 x -> zero_or_normal lo2 hi2 y ->
  -1074 <= Z.min lo1 lo2 -> Z.max hi1 hi2 + 2 <= 971 ->
  zero_or_normal (Z.min lo1 lo2) (Z.max hi1 hi2 + 2) (SFadd 53 1024 x y)
  /\ ((value x + value y) * (1 - bpow (-53)) <= value (SFadd 53 1024 x y))%Q
  /\ (value (SFadd 53 1024 x y) <= (value x + value y) * (1 + bpow (-53)))%Q.
Proof.
  intros lo1 hi1 lo2 hi2 x y Hx Hy Hlo Hhi.
  pose proof bpow_m53 as Heps.
  destruct Hx as [-> | Hx], Hy as [-> | Hy].
  - change (SFadd 53 1024 (S754_zero false) (S754_zero false)) with (S754_zero false).
    change (value (S754_zero false)) with 0%Q.
    split; [left; reflexivity|]. rewrite Heps. split; lra.
  - destruct (normal_pos_value _ _ _ Hy) as (m & e & Heq & _ & _ & _ & Hpos).
    rewrite Heq in *. cbn [SFadd]. split.
    + right. eapply normal_pos_weaken; [exact Hy | lia | lia].
    + change (value (S754_zero false)) with 0%Q. rewrite Heps. split; lra.
  - destruct (normal_pos_value _ _ _ Hx) as (m & e & Heq & _ & _ & _ & Hpos).
    rewrite Heq in *. cbn [SFadd]. split.
    + right. eapply normal_pos_weaken; [exact Hx | lia | lia].
    + change (value (S754_zero false)) with 0%Q. rewrite Heps. split; lra.
  - destruct (SFadd_normal_bounds _ _ _ _ x y Hx Hy Hlo Hhi) as (Hn & Hl & Hu).
    split; [right; exact Hn | split; assumption].
Qed.

(** The comparison of two such floats is the comparison of their values. *)
Lemma SFcompare_zero_or_normal : forall lo1 hi1 lo2 hi2 x y,
  zero_or_normal lo1 hi1 x -> zero_or_normal lo2 hi2 y ->
  SFcompare x y = Some (value x ?= value y)%Q.
Proof.
  intros lo1 hi1 lo2 hi2 x y Hx Hy.
  destruct Hx as [-> | Hx], Hy as [-> | Hy].
  - reflexivity.
  - destruct (normal_pos_value _ _ _ Hy) as (m & e & -> & _ & _ & _ & Hpos).
    cbn [SFcompare]. f_equal. symmetry. apply Qlt_alt. exact Hpos.
  - destruct (normal_pos_value _ _ _ Hx) as (m & e & -> & _ & _ & _ & Hpos).
    cbn [SFcompare]. f_equal. symmetry. apply Qgt_alt. exact Hpos.
  - destruct (normal_pos_value _ _ _ Hx) as (mx & ex & -> & Hmx & _ & Hvx & _).
    destruct (normal_pos_value _ _ _ Hy) as (my & ey & -> & Hmy & _ & Hvy & _).
    assert (Hq : forall m, 2 ^ 52 <= Zpos m < 2 ^ 53 ->
                 (4503599627370496 <= inject_Z (Zpos m) < 9007199254740992)%Q).
    { intros m Hm. split.
      - change 4503599627370496%Q with (inject_Z (2 ^ 52)). rewrite <- Zle_Qle. lia.
      - change 9007199254740992%Q with (inject_Z (2 ^ 53)). rewrite <- Zlt_Qlt. lia. }
    pose proof (Hq mx Hmx) as Hmxq. pose proof (Hq my Hmy) as Hmyq.
    pose proof (bpow_pos ex) as Hbx. pose proof (bpow_pos ey) as Hby.
    assert (Hfar : forall m1 e1 m2 e2,
              (4503599627370496 <= inject_Z (Zpos m1) < 9007199254740992)%Q ->
              (4503599627370496 <= inject_Z (Zpos m2) < 9007199254740992)%Q ->
              e1 < e2 ->
              (inject_Z (Zpos m1) * bpow e1 < inject_Z (Zpos m2) * bpow e2)%Q).
    { intros m1 e1 m2 e2 H1 H2 He.
      pose proof (bpow_pos e1) as Hb1.
      assert (Hb : (bpow (e1 + 1) <= bpow e2)%Q) by (apply bpow_le; lia).
      rewrite bpow_succ in Hb.
      assert (P1 : (0 <= (inject_Z (Zpos m2) - 4503599627370496) * bpow e2)%Q)
        by (apply Qmult_le_0_compat; lra).
      assert (P2 : (0 < (9007199254740992 - inject_Z (Zpos m1)) * bpow e1)%Q)
        by (apply Qmult_lt_0_compat; lra).
      lra. }
    cbn [SFcompare]. f_equal. symmetry.
    destruct (Z.compare_spec ex ey) as [Heq | Hl | Hg].
    + subst ey. change (Pos.compare_cont Eq mx my) with (Pos.compare mx my).
      destruct (Pos.compare_spec mx my) as [Hm | Hm | Hm].
      * subst my. apply Qeq_alt. reflexivity.
      * apply Qlt_alt. rewrite Hvx, Hvy.
        apply Qmult_lt_compat_r; [exact Hbx|]. rewrite <- Zlt_Qlt. lia.
      * apply Qgt_alt. rewrite Hvx, Hvy.
        apply Qmult_lt_compat_r; [exact Hbx|]. rewrite <- Zlt_Qlt. lia.
    + apply Qlt_alt. rewrite Hvx, Hvy. now apply Hfar.
    + apply Qgt_alt. rewrite Hvx, Hvy. apply Hfar; [assumption | assumption | lia].
Qed.

Lemma SFltb_zero_or_normal : forall lo1 hi1 lo2 hi2 x y,
  zero_or_normal lo1 hi1 x -> zero_or_normal lo2 hi2 y ->
  (value x < value y)%Q -> SFltb x y = true.
Proof.
  intros lo1 hi1 lo2 hi2 x y Hx Hy Hlt. unfold SFltb.
  rewrite (SFcompare_zero_or_normal _ _ _ _ x y Hx Hy).
  now rewrite (proj1 (Qlt_alt _ _) Hlt).
Qed.

Lemma SFleb_zero_or_normal : forall lo1 hi1 lo2 hi2 x y,
  zero_or_normal lo1 hi1 x -> zero_or_normal lo2 hi2 y ->
  (value x <= value y)%Q -> SFleb x y = true.
Proof.
  intros lo1 hi1 lo2 hi2 x y Hx Hy Hle. unfold SFleb.
  rewrite (SFcompare_zero_or_normal _ _ _ _ x y Hx Hy).
  pose proof (proj1 (Qle_alt _ _) Hle) as Hc.
  destruct (value x ?= value y)%Q; try reflexivity. now contradiction Hc.
Qed.

(** ** The fractions of the places, as numbers

    With [m + 1] items in the base row and [d] the float [1.0 / m], the
    fraction of place [i] of row [r] is zero or in the normal range, and
    its value is the number [d * i + d * r / 2] up to two roundings of
    the first term and three of the second. *)
Lemma fraction_value : forall m r i,
  1 <= m < 2 ^ 31 -> 0 <= r < 2 ^ 31 -> 0 <= i < 2 ^ 31 ->
  let d := Float.div Float.one (Float.of_int m) in
  let u := spline_fraction d r i in
  let eps := (1 # 9007199254740992)%Q in
  normal_pos (-106) (-51) d
  /\ (1 - eps <= value d * inject_Z m)%Q
  /\ (value d * inject_Z m < 1 + eps)%Q
  /\ zero_or_normal (-107) 7 u
  /\ (value d * inject_Z i * ((1 - eps) * (1 - eps))
      + value d * inject_Z r * ((1 # 2) * ((1 - eps) * (1 - eps) * (1 - eps)))
      <= value u)%Q
  /\ (value u
      <= value d * inject_Z i * ((1 + eps) * (1 + eps))
         + value d * inject_Z r * ((1 # 2) * ((1 + eps) * (1 + eps) * (1 + eps))))%Q.
Proof.
  intros m r i Hm Hr Hi d u eps. subst eps.
  assert (H231 : 2 ^ 31 < 2 ^ 53) by reflexivity.
  destruct (of_int_normal m ltac:(lia)) as [Hym Hvm].
  destruct (SFdiv_one_normal (-52) 1 (Float.of_int m) Hym ltac:(lia) ltac:(lia))
    as (Hd & Hdm_up & Hdm_lo).
  change (SFdiv 53 1024 Float.one (Float.of_int m)) with d in Hd, Hdm_up, Hdm_lo.
  rewrite Hvm in Hdm_up, Hdm_lo.
  replace (-105 - 1) with (-106) in Hd by lia.
  replace (-103 - -52) with (-51) in Hd by lia.
  destruct half_normal as [Hhalf Hvhalf].
  destruct (SFmul_normal_bounds _ _ _ _ d Float.half Hd Hhalf ltac:(lia) ltac:(lia))
    as (Hh & Hh_lo & Hh_up).
  rewrite Hvhalf in Hh_lo, Hh_up.
  set (h := SFmul 53 1024 d Float.half) in *.
  destruct (SFmul_of_int_bounds _ _ d i Hd ltac:(lia) ltac:(lia) ltac:(lia))
    as (Ht1 & Ht1_lo & Ht1_up).
  destruct (SFmul_of_int_bounds _ _ h r Hh ltac:(lia) ltac:(lia) ltac:(lia))
    as (Ht2 & Ht2_lo & Ht2_up).
  set (t1 := SFmul 53 1024 d (Float.of_int i)) in *.
  set (t2 := SFmul 53 1024 h (Float.of_int r)) in *.
  destruct (SFadd_zero_or_normal _ _ _ _ t1 t2 Ht1 Ht2 ltac:(lia) ltac:(lia))
    as (Hu & Hu_lo & Hu_up).
  change (SFadd 53 1024 t1 t2) with u in Hu, Hu_lo, Hu_up.
  pose proof bpow_m53 as Heps. rewrite Heps in *.
  destruct (normal_pos_value _ _ _ Hd) as (_ & _ & _ & _ & _ & _ & Hdpos).
  destruct (normal_pos_value _ _ _ Hh) as (_ & _ & _ & _ & _ & _ & Hhpos).
  set (dq := value d) in *. set (hq := value h) in *.
  set (iq := inject_Z i). set (rq := inject_Z r).
  fold iq in Ht1_lo, Ht1_up. fold rq in Ht2_lo, Ht2_up.
  assert (Hiq : (0 <= iq)%Q)
    by (unfold iq; change 0%Q with (inject_Z 0); rewrite <- Zle_Qle; lia).
  assert (Hrq : (0 <= rq)%Q)
    by (unfold rq; change 0%Q with (inject_Z 0); rewrite <- Zle_Qle; lia).
  split; [exact Hd|]. split; [exact Hdm_lo|]. split; [exact Hdm_up|].
  split.
  { destruct Hu as [Hu | Hu]; [left; exact Hu | right].
    eapply normal_pos_weaken; [exact Hu | lia | lia]. }
  set (T1 := value t1) in *. set (T2 := value t2) in *. set (U := value u) in *.
  assert (P1 : (0 <= (hq - dq * (1 # 2) * (1 - (1 # 9007199254740992))) * rq)%Q)
    by (apply Qmult_le_0_compat; lra).
  assert (P2 : (0 <= (dq * (1 # 2) * (1 + (1 # 9007199254740992)) - hq) * rq)%Q)
    by (apply Qmult_le_0_compat; lra).
  assert (P3 : (0 <= dq * iq)%Q) by (apply Qmult_le_0_compat; lra).
  assert (P4 : (0 <= dq * rq)%Q) by (apply Qmult_le_0_compat; lra).
  assert (P5 : (0 <= hq * rq)%Q) by (apply Qmult_le_0_compat; lra).
  split; lra.
Qed.

(** In the base row the term of the row vanishes: the fraction is the one
    product [d * i]. *)
Lemma fraction_base_row : forall lo hi d i,
  normal_pos lo hi d -> 0 <= i < 2 ^ 53 ->
  -1073 <= lo -> hi + 55 <= 971 ->
  spline_fraction d 0 i = Float.mul d (Float.of_int i).
Proof.
  intros lo hi d i Hd Hi Hlo Hhi.
  unfold spline_fraction, Float.add, Float.mul, Float.prec, Float.emax.
  destruct half_normal as [Hhalf _].
  destruct (SFmul_normal_bounds _ _ _ _ d Float.half Hd Hhalf ltac:(lia) ltac:(lia))
    as ((mh & eh & -> & _) & _).
  change (Float.of_int 0) with (S754_zero false).
  change (SFmul 53 1024 (S754_finite false mh eh) (S754_zero false))
    with (S754_zero false).
  destruct (SFmul_of_int_bounds _ _ d i Hd Hi ltac:(lia) Hhi) as ([Ht | Ht] & _).
  - rewrite Ht. reflexivity.
  - destruct Ht as (m & e & Ht & _). rewrite Ht. reflexivity.
Qed.

(** The order of the fractions of neighbouring places: going one place up
    in the next row takes the fraction up, and less than going one place
    on in the same row. *)
Lemma fraction_order : forall m r i,
  1 <= m < 2 ^ 31 -> 0 <= r -> 0 <= i -> i + r + 1 <= m ->
  let d := Float.div Float.one (Float.of_int m) in
  SFltb (spline_fraction d r i) (spline_fraction d r (i + 1)) = true
  /\ SFltb (spline_fraction d r i) (spline_fraction d (r + 1) i) = true
  /\ SFltb (spline_fraction d (r + 1) i) (spline_fraction d r (i + 1)) = true.
Proof.
  intros m r i Hm Hr Hi Hir d.
  destruct (fraction_value m r i Hm ltac:(lia) ltac:(lia))
    as (Hd & Hdm_lo & Hdm_up & Hu00 & Hlo00 & Hup00).
  destruct (fraction_value m r (i + 1) Hm ltac:(lia) ltac:(lia))
    as (_ & _ & _ & Hu01 & Hlo01 & Hup01).
  destruct (fraction_value m (r + 1) i Hm ltac:(lia) ltac:(lia))
    as (_ & _ & _ & Hu10 & Hlo10 & Hup10).
  cbv zeta in *. fold d in Hd, Hdm_lo, Hdm_up, Hu00, Hlo00, Hup00, Hu01, Hlo01,
    Hup01, Hu10, Hlo10, Hup10.
  destruct (normal_pos_value _ _ _ Hd) as (_ & _ & _ & _ & _ & _ & Hdpos).
  rewrite inject_Z_plus in Hlo01, Hup01, Hlo10, Hup10.
  change (inject_Z 1) with 1%Q in *.
  set (dq := value d) in *. set (iq := inject_Z i) in *. set (rq := inject_Z r) in *.
  set (mq := inject_Z m) in *.
  assert (Hiq : (0 <= iq)%Q)
    by (unfold iq; change 0%Q with (inject_Z 0); rewrite <- Zle_Qle; lia).
  assert (Hrq : (0 <= rq)%Q)
    by (unfold rq; change 0%Q with (inject_Z 0); rewrite <- Zle_Qle; lia).
  assert (Hi31 : (iq <= 2147483648)%Q)
    by (unfold iq; change 2147483648%Q with (inject_Z (2 ^ 31)); rewrite <- Zle_Qle; lia).
  assert (Hr31 : (rq <= 2147483648)%Q)
    by (unfold rq; change 2147483648%Q with (inject_Z (2 ^ 31)); rewrite <- Zle_Qle; lia).
  assert (P1 : (0 <= dq * iq)%Q) by (apply Qmult_le_0_compat; lra).
  assert (P2 : (0 <= dq * rq)%Q) by (apply Qmult_le_0_compat; lra).
  assert (P3 : (0 <= dq * (2147483648 - iq))%Q) by (apply Qmult_le_0_compat; lra).
  assert (P4 : (0 <= dq * (2147483648 - rq))%Q) by (apply Qmult_le_0_compat; lra).
  split; [|split]; eapply SFltb_zero_or_normal; try eassumption; lra.
Qed.

(* ================================================================= *)
(** * The places along a path spline *)

Section OnPath.

Context {sdk : Sdk}.

(** The relative distance the prologue arrives at. *)
Lemma prepare_relDistance : forall g basePath splineMg lengthData relDistance,
  Reachable g ->
  fst (prepare g) = Some (OnSpline basePath splineMg lengthData relDistance) ->
  2 <= _baseCount (_params g) ->
  relDistance = Float.div Float.one (Float.of_int (_baseCount (_params g) - 1))
  /\ 1 <= _baseCount (_params g) - 1 < 2 ^ 31 - 1.
Proof.
  intros g basePath splineMg lengthData relDistance Hreach Hprep Hb.
  destruct (Reachable_inv g Hreach) as ((Hrange & _) & _).
  unfold Int32.in_range, Int32.min_signed, Int32.max_signed in Hrange.
  change (2 ^ 31) with 2147483648 in *.
  split; [|lia].
  unfold prepare in Hprep. destruct (_basePath (_params g)); [|discriminate].
  destruct (SplineLengthData_Init _ _) as [ok d']. destruct ok; [|discriminate].
  cbn in Hprep. injection Hprep as _ _ _ <-.
  rewrite Int32_sub_id; [reflexivity|].
  unfold Int32.in_range, Int32.min_signed, Int32.max_signed.
  change (2 ^ 31) with 2147483648. lia.
Qed.

(** A place of the grid of a configured generator lies in the triangle. *)
Lemma cell_in_triangle : forall g r i m,
  Reachable g -> _initialized g = true ->
  cell (_array g) r i = Some m ->
  Z.of_nat i + Z.of_nat r + 1 <= _baseCount (_params g).
Proof.
  intros g r i m Hreach Hinit Hcell.
  destruct (Reachable_inv g Hreach) as (_ & Hi & Hs).
  destruct (Hi Hinit) as [Hb1 Hr0]. destruct (Hs Hb1 Hr0) as [_ Hshape].
  unfold cell in Hcell. destruct (nth_error (_array g) r) as [row|] eqn:Hrow;
    [|discriminate].
  assert (Hlen : BaseArray.GetCount row = _baseCount (_params g) - Z.of_nat r).
  { apply (map_nth_error BaseArray.GetCount) in Hrow. fold (row_sizes (_array g)) in Hrow.
    rewrite Hshape in Hrow. unfold stack_shape in Hrow. now apply triangle_nth in Hrow. }
  assert (Hi' : (i < length row)%nat) by (apply nth_error_Some; congruence).
  unfold BaseArray.GetCount in Hlen. lia.
Qed.

End OnPath.

(** X12. On a path spline with a base of at least two items the relative
    distance is a finite number, and the base row spans the spline: its
    first item has the fraction 0, the fraction of place [i] is the one
    product [relDistance * i], and the fraction of its last item lies
    between [1 - 2 ^ -52] and 1. *)
Theorem GenerateStack_base_row_spans_spline :
  forall {sdk : Sdk} (g : CanStackGenerator) (basePath : SplinePtr)
         (splineMg : Matrix) (lengthData : SplineLengthData) (relDistance : Float),
    Reachable g -> _initialized g = true ->
    2 <= _baseCount (_params g) ->
    fst (prepare g) = Some (OnSpline basePath splineMg lengthData relDistance) ->
    let last := spline_fraction relDistance 0 (_baseCount (_params g) - 1) in
    Float.is_finite relDistance = true
    /\ spline_fraction relDistance 0 0 = Float.zero
    /\ (forall i, 0 <= i < _baseCount (_params g) ->
                  spline_fraction relDistance 0 i
                  = Float.mul relDistance (Float.of_int i))
    /\ Float.leb (S754_finite false 9007199254740990 (-53)) last = true
    /\ Float.leb last Float.one = true.
Proof.
  intros sdk g basePath splineMg lengthData relDistance Hreach Hinit Hb Hprep last.
  destruct (prepare_relDistance g _ _ _ _ Hreach Hprep Hb) as [Hrel Hm].
  set (m := _baseCount (_params g) - 1) in *.
  destruct (fraction_value m 0 m ltac:(lia) ltac:(lia) ltac:(lia))
    as (Hd & Hdm_lo & _ & Hu & Hlo & _).
  cbv zeta in Hd, Hdm_lo, Hu, Hlo. rewrite <- Hrel in Hd, Hdm_lo, Hu, Hlo.
  assert (H231 : 2 ^ 31 < 2 ^ 53) by reflexivity.
  assert (Hbase : forall i, 0 <= i < _baseCount (_params g) ->
                    spline_fraction relDistance 0 i
                    = Float.mul relDistance (Float.of_int i)).
  { intros i Hi. apply (fraction_base_row (-106) (-51)); [exact Hd | | lia | lia].
    unfold m in Hm. lia. }
  split; [|split; [|split; [exact Hbase|split]]].
  - destruct Hd as (md & ed & -> & _). reflexivity.
  - rewrite Hbase by lia. destruct Hd as (md & ed & -> & _). reflexivity.
  - fold last in Hu, Hlo. unfold Float.leb.
    eapply (SFleb_zero_or_normal (-53) (-53)); [right | exact Hu |].
    + exists 9007199254740990%positive, (-53).
      split; [reflexivity|]. split; [|lia].
      change (2 ^ 52) with 4503599627370496. change (2 ^ 53) with 9007199254740992. lia.
    + unfold last. rewrite Hbase by (unfold m in *; lia). fold m.
      destruct (SFmul_of_int_bounds _ _ relDistance m Hd ltac:(lia) ltac:(lia) ltac:(lia))
        as (_ & Hl & _).
      unfold Float.mul, Float.prec, Float.emax.
      rewrite bpow_m53 in Hl.
      assert (Hc : (value (S754_finite false 9007199254740990 (-53))
                    == 1 - (2 # 9007199254740992))%Q) by reflexivity.
      rewrite Hc.
      set (T := value (SFmul 53 1024 relDistance (Float.of_int m))) in *.
      set (P := (value relDistance * inject_Z m)%Q) in *.
      lra.
  - destruct (spline_fraction_bounds (_baseCount (_params g)) 0 m) as [_ H1];
      try (unfold m in *; change (2 ^ 31) with 2147483648 in *;
           unfold Int32.max_signed; change (2 ^ 31) with 2147483648; lia).
    cbv zeta in H1. rewrite Int32_sub_id in H1.
    + fold m in H1. rewrite <- Hrel in H1. exact H1.
    + unfold Int32.in_range, Int32.min_signed, Int32.max_signed.
      unfold m in Hm. change (2 ^ 31) with 2147483648 in *. lia.
Qed.

Lemma GenerateStack_base_row_spans_spline_witness :
  let last := spline_fraction Float.half 0 (_baseCount (_params Example.configured_path) - 1) in
  Float.is_finite Float.half = true
  /\ spline_fraction Float.half 0 0 = Float.zero
  /\ (forall i, 0 <= i < _baseCount (_params Example.configured_path) ->
                spline_fraction Float.half 0 i
                = Float.mul Float.half (Float.of_int i))
  /\ Float.leb (S754_finite false 9007199254740990 (-53)) last = true
  /\ Float.leb last Float.one = true.
Proof.
  refine (@GenerateStack_base_row_spans_spline Example.sdk
            Example.configured_path 1%positive Matrix_default tt Float.half
            _ _ _ _).
  - apply reach_InitStack; [apply reach_new|].
    unfold params_typed, Int32.in_range, UInt32.in_range,
      Int32.min_signed, Int32.max_signed; cbn; lia.
  - reflexivity.
  - change (2 <= 3). lia.
  - reflexivity.
Defined.

(** X13. On a path spline with a base of at least two items the fractions
    follow the pattern of the bricks.  Where a row has a place [i + 1],
    the fraction of place [i] is below that of place [i + 1], and the
    fraction of place [i] of the next row lies between the two: no two
    items of a row share a fraction, and an item of the next row sits
    between the two items below it. *)
Theorem GenerateStack_fractions_staggered :
  forall {sdk : Sdk} (g : CanStackGenerator) (basePath : SplinePtr)
         (splineMg : Matrix) (lengthData : SplineLengthData) (relDistance : Float),
    Reachable g -> _initialized g = true ->
    2 <= _baseCount (_params g) ->
    fst (prepare g) = Some (OnSpline basePath splineMg lengthData relDistance) ->
    forall (r i : nat) (m : Matrix),
      cell (_array g) r (S i) = Some m ->
      let u := fun r' i' => spline_fraction relDistance (Z.of_nat r') (Z.of_nat i') in
      SFltb (u r i) (u r (S i)) = true
      /\ SFltb (u r i) (u (S r) i) = true
      /\ SFltb (u (S r) i) (u r (S i)) = true.
Proof.
  intros sdk g basePath splineMg lengthData relDistance Hreach Hinit Hb Hprep
    r i m Hcell u. subst u. cbv beta.
  destruct (prepare_relDistance g _ _ _ _ Hreach Hprep Hb) as [Hrel Hm].
  pose proof (cell_in_triangle g r (S i) m Hreach Hinit Hcell) as Htri.
  rewrite Hrel, !Nat2Z.inj_succ. unfold Z.succ.
  apply (fraction_order (_baseCount (_params g) - 1) (Z.of_nat r) (Z.of_nat i)); lia.
Qed.

Lemma GenerateStack_fractions_staggered_witness :
  let u := fun r' i' => spline_fraction Float.half (Z.of_nat r') (Z.of_nat i') in
  SFltb (u 0%nat 0%nat) (u 0%nat 1%nat) = true
  /\ SFltb (u 0%nat 0%nat) (u 1%nat 0%nat) = true
  /\ SFltb (u 1%nat 0%nat) (u 0%nat 1%nat) = true.
Proof.
  refine (@GenerateStack_fractions_staggered Example.sdk
            Example.configured_path 1%positive Matrix_default tt Float.half
            _ _ _ _ 0%nat 0%nat Matrix_default _).
  - apply reach_InitStack; [apply reach_new|].
    unfold params_typed, Int32.in_range, UInt32.in_range,
      Int32.min_signed, Int32.max_signed; cbn; lia.
  - reflexivity.
  - change (2 <= 3). lia.
  - reflexivity.
  - reflexivity.
Defined.

(* ================================================================= *)
(** * The outcome of [BuildStackGeometry] *)

Section Template.

Context {sdk : Sdk}.

(** Every clone the loops make is a clone of the object to clone. *)
Lemma build_items_template : forall p objectToClone invertedMg useRenderInstances l st,
  Forall (fun it => forall t, item_kind it = IsClone t -> t = objectToClone)
         (inserted st) ->
  Forall (fun it => forall t, item_kind it = IsClone t -> t = objectToClone)
         (inserted (fold_left (build_item p objectToClone invertedMg useRenderInstances)
                              l st)).
Proof.
  intros p objectToClone invertedMg useRenderInstances.
  induction l as [|m l IH]; intros st Hst; [exact Hst|].
  cbn [fold_left]. apply IH. unfold build_item.
  destruct (useRenderInstances && (0 <? newItemCount st)); cbn [inserted];
    apply Forall_app; (split; [exact Hst|]); constructor; try constructor;
    cbn [item_kind]; intros t Ht; [discriminate | now injection Ht as <-].
Qed.

End Template.

(** X14. Allocation taken to succeed, [BuildStackGeometry] returns no
    object in one case only: the object it is given is an instance object
    with the render instance flag whose link is empty.  Otherwise it
    returns the parent, and every clone among the children is a clone of
    the linked object when the given object is such an instance object,
    and of the given object itself when it is not (an instance object
    without the flag is cloned as it is). *)
Theorem BuildStackGeometry_template :
  forall {sdk : Sdk} (g : CanStackGenerator) (heap : ObjPtr)
         (originalObject : BaseObject) (mg : Matrix) (useRenderInstances : bool),
    let linked := (obj_type originalObject =? Oinstance)
                  && obj_renderinstance originalObject in
    (BuildStackGeometry g heap originalObject mg useRenderInstances = None <->
     linked = true /\ obj_link originalObject = None)
    /\ (forall result it t,
          BuildStackGeometry g heap originalObject mg useRenderInstances = Some result ->
          In it (children result) -> item_kind it = IsClone t ->
          if linked then obj_link originalObject = Some t
          else t = obj_ptr originalObject).
Proof.
  intros sdk g heap originalObject mg useRenderInstances linked.
  unfold BuildStackGeometry, objectToClone_of. fold linked.
  split.
  - destruct linked; [|split; [discriminate | intros [H _]; discriminate]].
    destruct (obj_link originalObject); split; try discriminate; auto.
    intros [_ H]; discriminate.
  - intros result it t Hbuild Hin Hkind.
    assert (Hall : forall template,
              (if linked then obj_link originalObject else Some (obj_ptr originalObject))
              = Some template -> t = template).
    { intros template Htemplate. rewrite Htemplate in Hbuild.
      injection Hbuild as <-. cbn [children] in Hin.
      unfold build_rows, build_row in Hin.
      assert (Hrows : forall rows st,
                Forall (fun it => forall t, item_kind it = IsClone t -> t = template)
                       (inserted st) ->
                Forall (fun it => forall t, item_kind it = IsClone t -> t = template)
                       (inserted
                          (fold_left
                             (fun st row =>
                                fold_left (build_item (_params g) template
                                             (Matrix_inv mg) useRenderInstances) row st)
                             rows st))).
      { induction rows as [|row rows IH]; intros st Hst; [exact Hst|].
        cbn [fold_left]. apply IH. now apply build_items_template. }
      specialize (Hrows (_array g) (mkBuildState 0 None (S heap) []) (Forall_nil _)).
      rewrite Forall_forall in Hrows. exact (Hrows it Hin t Hkind). }
    destruct linked.
    + destruct (obj_link originalObject) as [l|]; [|discriminate].
      f_equal. symmetry. now apply Hall.
    + now apply Hall.
Qed.

(** X15. [BuildStackGeometry] asks for no configured generator.  After a
    refused [InitStack], which puts back the default parameters and keeps
    the grid, it still makes one item for each place of the grid that was
    left and gives each the stored matrix as it is, also when the layout
    was generated along a path spline. *)
Theorem BuildStackGeometry_after_refused_InitStack :
  forall {sdk : Sdk} (g : CanStackGenerator) (params : StackParameters)
         (heap : ObjPtr) (originalObject : BaseObject) (mg : Matrix)
         (useRenderInstances : bool) (template : ObjPtr),
    1 <= _baseCount (_params g) -> _baseCount params < 1 ->
    objectToClone_of originalObject = Some template ->
    let g' := snd (InitStack params g) in
    _initialized g' = false
    /\ exists result,
         BuildStackGeometry g' heap originalObject mg useRenderInstances = Some result
         /\ map item_ml (children result) = layout_items (_array g).
Proof.
  intros sdk g params heap originalObject mg useRenderInstances template
    Hstored Hbad Htemplate g'.
  assert (Hg' : g' = set_initialized
                       (set_params (set_random g (Random_Init (_randomSeed params)))
                                   StackParameters_default) false).
  { subst g'. unfold InitStack. cbn [_params set_random].
    destruct (StackParameters_eqb params (_params g)) eqn:E.
    - apply StackParameters_eqb_counts in E. lia.
    - destruct (_baseCount params <? 1) eqn:Eb; [reflexivity|].
      apply Z.ltb_ge in Eb. lia. }
  rewrite Hg'. split; [reflexivity|].
  unfold BuildStackGeometry. rewrite Htemplate. eexists. split; [reflexivity|].
  cbn [children _params _array set_initialized set_params set_random].
  rewrite build_rows_concat.
  destruct (build_items_inserted StackParameters_default template mg useRenderInstances
              (layout_items (_array g)) (mkBuildState 0 None (S heap) []))
    as (Hml & _ & _).
  cbv zeta in Hml. cbn [inserted map app] in Hml. rewrite Hml.
  unfold item_matrix. cbn [_basePath StackParameters_default]. apply map_id.
Qed.

Lemma BuildStackGeometry_after_refused_InitStack_witness :
  let g' := snd (InitStack Example.params_0 Example.generated_path) in
  _initialized g' = false
  /\ exists result,
       BuildStackGeometry g' 100%nat Example.child Matrix_default true = Some result
       /\ map item_ml (children result) = layout_items (_array Example.generated_path).
Proof.
  apply (@BuildStackGeometry_after_refused_InitStack Example.sdk
           Example.generated_path Example.params_0 100%nat Example.child
           Matrix_default true 7%nat).
  - vm_compute. discriminate.
  - reflexivity.
  - reflexivity.
Defined.

(* ================================================================= *)
(** * The object plugin *)

(** X16. The validation of the description limits the row count to the
    base count: after [MSG_DESCRIPTION_VALIDATE] the row count is the
    smaller of the two counts read before (an absent count reads as 0), so
    it does not exceed the base count, and a second validation changes
    nothing.  No message writes the base count, and every message keeps a
    row count that does not exceed the base count that way.  The default
    attributes that [StackObject::Init] sets have it so already. *)
Theorem Message_validate_limits_rows :
  forall (bc : BaseContainer) (down : option ChildBox)
         (data : option DescriptionCommand) (super : bool),
    let rows := fun c => GetInt32 (STACK_ROWS_COUNT c) 0 in
    let base := fun c => GetInt32 (STACK_BASE_COUNT c) 0 in
    (exists bc',
       StackObject_Message (Some bc) down MSG_DESCRIPTION_VALIDATE data super
       = (super, Some bc')
       /\ rows bc' = Z.min (rows bc) (base bc)
       /\ rows bc' <= base bc'
       /\ (forall v, SetInt32_STACK_ROWS_COUNT bc' v = SetInt32_STACK_ROWS_COUNT bc v)
       /\ StackObject_Message (Some bc') down MSG_DESCRIPTION_VALIDATE data super
          = (super, Some bc'))
    /\ (forall type bc',
          snd (StackObject_Message (Some bc) down type data super) = Some bc' ->
          STACK_BASE_COUNT bc' = STACK_BASE_COUNT bc
          /\ (rows bc <= base bc -> rows bc' = rows bc))
    /\ (exists bc0,
          StackObject_Init (Some bc) super = (super, Some bc0)
          /\ rows bc0 <= base bc0
          /\ StackObject_Message (Some bc0) down MSG_DESCRIPTION_VALIDATE data super
             = (super, Some bc0)).
Proof.
  intros bc down data super rows base. subst rows base. cbv beta.
  split; [|split; [|eexists; split; [reflexivity|]; split; [cbn; lia | reflexivity]]].
  - eexists. split; [reflexivity|].
    cbn [STACK_ROWS_COUNT STACK_BASE_COUNT SetInt32_STACK_ROWS_COUNT GetInt32].
    rewrite Int32_Min_min.
    split; [reflexivity|]. split; [lia|]. split; [reflexivity|].
    unfold StackObject_Message.
    cbn [STACK_ROWS_COUNT STACK_BASE_COUNT SetInt32_STACK_ROWS_COUNT GetInt32].
    rewrite !Int32_Min_min. unfold SetInt32_STACK_ROWS_COUNT. cbn.
    do 4 f_equal. lia.
  - intros type bc' H. unfold StackObject_Message in H.
    destruct type.
    + cbn in H. injection H as <-.
      cbn [STACK_ROWS_COUNT STACK_BASE_COUNT SetInt32_STACK_ROWS_COUNT GetInt32].
      rewrite Int32_Min_min. split; [reflexivity | lia].
    + destruct data as [dc|]; [|cbn in H; injection H as <-; auto].
      destruct (dc_id_is_STACK_CMD_FITHEIGHT dc); [|cbn in H; injection H as <-; auto].
      destruct down as [child|]; [|cbn in H; injection H as <-; auto].
      cbv zeta in H.
      destruct (negb (Vector_IsZero _)); cbn in H; injection H as <-; auto.
    + cbn in H. injection H as <-. auto.
Qed.

Section PluginProofs.

Context {sdk : Sdk}.

(** The number of children is the number of items of the grid. *)
Lemma BuildStackGeometry_children : forall g heap originalObject mg useRenderInstances result,
  BuildStackGeometry g heap originalObject mg useRenderInstances = Some result ->
  length (children result) = length (layout_items (_array g)).
Proof.
  intros g heap originalObject mg useRenderInstances result H.
  unfold BuildStackGeometry in H.
  destruct (objectToClone_of originalObject) as [template|]; [|discriminate].
  injection H as <-. cbn [children]. rewrite build_rows_concat.
  destruct (build_items_inserted (_params g) template mg useRenderInstances
              (layout_items (_array g)) (mkBuildState 0 None (S heap) []))
    as (Hml & _ & _).
  cbv zeta in Hml. cbn [inserted map app] in Hml.
  rewrite <- (length_map item_ml), Hml. apply length_map.
Qed.

(** What a reachable generator holds after [InitStack] and [GenerateStack]
    have both succeeded. *)
Lemma configured_generated : forall params g g1 g2,
  Reachable g -> params_typed params ->
  InitStack params g = (true, g1) -> GenerateStack g1 = (true, g2) ->
  1 <= _baseCount params
  /\ _initialized g2 = true
  /\ row_sizes (_array g2) = stack_shape params
  /\ Reachable g2.
Proof.
  intros params g g1 g2 Hreach Hp Hinit Hgen.
  pose proof (reach_InitStack params g Hreach Hp) as Hreach1.
  rewrite Hinit in Hreach1. cbn [snd] in Hreach1.
  pose proof (reach_GenerateStack g1 Hreach1) as Hreach2.
  rewrite Hgen in Hreach2. cbn [snd] in Hreach2.
  destruct (GenerateStack_keeps g1) as (Hkp & Hki & Hks).
  rewrite Hgen in Hkp, Hki, Hks. cbn [snd] in Hkp, Hki, Hks.
  assert (Hflag : _initialized g1 = true).
  { unfold GenerateStack in Hgen. destruct (_initialized g1); [reflexivity|].
    discriminate. }
  destruct (Reachable_inv g1 Hreach1) as (_ & Hi & Hs).
  destruct (Hi Hflag) as [Hb1 Hr1]. destruct (Hs Hb1 Hr1) as [_ Hshape].
  assert (Hcounts : _baseCount (_params g1) = _baseCount params
                    /\ _rowCount (_params g1) = _rowCount params).
  { assert (Hg1 : g1 = snd (InitStack params g)) by now rewrite Hinit.
    rewrite Hg1. unfold InitStack in *. cbn [_params set_random] in *.
    destruct (StackParameters_eqb params (_params g)) eqn:E.
    - apply StackParameters_eqb_counts in E. cbn. intuition congruence.
    - destruct (_baseCount params <? 1); [discriminate|].
      cbn [_params set_params] in *.
      match goal with
      | |- context [ResizeStack ?b ?r ?g0] =>
          rewrite (ResizeStack_array g0 b r) in *;
          destruct (fst (ResizeStack b r g0))
      end; [cbn; auto | discriminate]. }
  destruct Hcounts as [Hcb Hcr].
  split; [lia|]. split; [congruence|]. split; [|exact Hreach2].
  rewrite Hks, Hshape. unfold stack_shape. now rewrite Hcb, Hcr.
Qed.

End PluginProofs.

(** X17. When [GetVirtualObjects] returns a parent it has just built, for
    parameters within the ranges of their types and a generator that the
    earlier calls left: the base count is at least 1, the parent has one
    child for each place of the triangle of the two counts, namely
    [n * (2 * baseCount - n + 1) / 2] with [n = min(baseCount, rowCount)],
    the generator is configured, and the path link is remembered. *)
Theorem GetVirtualObjects_built :
  forall {sdk : Sdk} (this this' : StackObject) (op : Hierarchy) (hh : bool)
         (result : ResultParent),
    Reachable (_stackGenerator this) -> params_typed (op_params op) ->
    GetVirtualObjects this (Some op) hh = (Built result, this') ->
    let b := _baseCount (op_params op) in
    let n := Z.min b (_rowCount (op_params op)) in
    1 <= b
    /\ 2 * Z.of_nat (length (children result)) = n * (2 * b - n + 1)
    /\ _initialized (_stackGenerator this') = true
    /\ Reachable (_stackGenerator this')
    /\ _lastPathSpline this' = STACK_BASE_PATH (op_GetDataInstance op).
Proof.
  intros sdk this this' op hh result Hreach Hp H b n.
  unfold GetVirtualObjects in H.
  destruct hh; cbn [negb] in H; [|discriminate].
  destruct (op_GetDocument op); cbn [negb] in H; [|discriminate].
  destruct (op_GetDown op) as [child|]; [|discriminate].
  cbv zeta in H.
  destruct (negb _); [discriminate|].
  destruct (InitStack (op_params op) (_stackGenerator this)) as [ok1 g1] eqn:Hinit.
  destruct ok1; cbn [negb] in H; [|discriminate].
  destruct (GenerateStack g1) as [ok2 g2] eqn:Hgen.
  destruct ok2; cbn [negb] in H; [|discriminate].
  destruct (BuildStackGeometry g2 _ child _ _) as [r|] eqn:Hbuild; [|discriminate].
  injection H as <- <-. cbn [_stackGenerator _lastPathSpline].
  destruct (configured_generated _ _ _ _ Hreach Hp Hinit Hgen)
    as (Hb & Hflag & Hshape & Hreach2).
  split; [exact Hb|]. split; [|auto].
  rewrite (BuildStackGeometry_children _ _ _ _ _ _ Hbuild).
  change (Z.of_nat (length (layout_items (_array g2)))) with (total_items (_array g2)).
  rewrite total_items_sum, Hshape. unfold stack_shape. rewrite triangle_sum.
  fold b n. rewrite Z2Nat.id; [reflexivity|].
  destruct Hp as (_ & _ & _ & Hr0). subst n b. lia.
Qed.

Lemma GetVirtualObjects_built_witness :
  let b := _baseCount (op_params PluginExample.scene) in
  let n := Z.min b (_rowCount (op_params PluginExample.scene)) in
  1 <= b
  /\ 2 * Z.of_nat (length (children PluginExample.built)) = n * (2 * b - n + 1)
  /\ _initialized (_stackGenerator PluginExample.after) = true
  /\ Reachable (_stackGenerator PluginExample.after)
  /\ _lastPathSpline PluginExample.after
     = STACK_BASE_PATH (op_GetDataInstance PluginExample.scene).
Proof.
  refine (@GetVirtualObjects_built Example.sdk StackObject_new PluginExample.after
            PluginExample.scene true PluginExample.built _ _ _).
  - apply reach_new.
  - unfold params_typed, Int32.in_range, UInt32.in_range,
      Int32.min_signed, Int32.max_signed; cbn; lia.
  - reflexivity.
Defined.

(** X18. [GetVirtualObjects] remembers the path link only when it returns
    a parent it has just built.  When [op], the hierarchy help, the
    document or the child is missing, it returns [nullptr] and leaves the
    object as it was, generator included.  When all are there and nothing
    is dirty, it returns the cache and leaves the object as it was,
    generator included, and the path link is the remembered one.  Whenever
    it returns [nullptr], a failed rebuild included, the remembered link
    stays. *)
Theorem GetVirtualObjects_remembers_on_success :
  forall {sdk : Sdk} (this : StackObject) (op : option Hierarchy) (hh : bool),
    let out := fst (GetVirtualObjects this op hh) in
    let this' := snd (GetVirtualObjects this op hh) in
    (op = None \/ hh = false
     \/ (exists h, op = Some h
                   /\ (op_GetDocument h = false \/ op_GetDown h = None)) ->
     out = Nullptr /\ this' = this)
    /\ (forall h child,
          op = Some h -> hh = true -> op_GetDocument h = true ->
          op_GetDown h = Some child ->
          op_CheckCache h || op_IsDirty h || op_IsDirtyChildren h
          || negb (ObjPtr_eqb (STACK_BASE_PATH (op_GetDataInstance h))
                              (_lastPathSpline this))
          || negb (op_CompareDependenceList h) = false ->
          out = Cache (op_GetCache h) /\ this' = this)
    /\ match out with
       | Built result =>
           exists h, op = Some h
                     /\ _lastPathSpline this' = STACK_BASE_PATH (op_GetDataInstance h)
       | Cache cache =>
           this' = this
           /\ exists h, op = Some h /\ cache = op_GetCache h
                        /\ ObjPtr_eqb (STACK_BASE_PATH (op_GetDataInstance h))
                                      (_lastPathSpline this) = true
       | Nullptr => _lastPathSpline this' = _lastPathSpline this
       end.
Proof.
  intros sdk this op hh out this'. subst out this'. split; [|split].
  - intros Hmissing. unfold GetVirtualObjects.
    destruct op as [h|]; [|split; reflexivity].
    destruct hh; cbn [negb]; [|split; reflexivity].
    destruct Hmissing as [H | [H | (h' & H & Hh)]]; try discriminate.
    injection H as <-.
    destruct (op_GetDocument h); cbn [negb]; [|split; reflexivity].
    destruct Hh as [Hh | Hh]; [discriminate|]. rewrite Hh. split; reflexivity.
  - intros h child -> -> Hdoc Hdown Hclean. unfold GetVirtualObjects.
    cbn [negb]. rewrite Hdoc, Hdown. cbn [negb]. cbv zeta. rewrite Hclean.
    split; reflexivity.
  - unfold GetVirtualObjects.
    destruct op as [h|]; [|reflexivity].
    destruct hh; cbn [negb]; [|reflexivity].
    destruct (op_GetDocument h); cbn [negb]; [|reflexivity].
    destruct (op_GetDown h) as [child|]; [|reflexivity].
    cbv zeta.
    destruct (op_CheckCache h || op_IsDirty h || op_IsDirtyChildren h
              || negb (ObjPtr_eqb (STACK_BASE_PATH (op_GetDataInstance h))
                                  (_lastPathSpline this))
              || negb (op_CompareDependenceList h)) eqn:Hdirty; cbn [negb].
    + destruct (InitStack _ _) as [ok1 g1]. destruct ok1; cbn [negb]; [|reflexivity].
      destruct (GenerateStack g1) as [ok2 g2]. destruct ok2; cbn [negb]; [|reflexivity].
      destruct (BuildStackGeometry _ _ _ _ _); cbn; [|reflexivity].
      exists h. auto.
    + cbn [fst snd]. split; [reflexivity|]. exists h. split; [reflexivity|].
      split; [reflexivity|].
      rewrite !orb_false_iff in Hdirty. destruct Hdirty as [[_ Hpath] _].
      now apply negb_false_iff in Hpath.
Qed.

(** X19. Allocation taken to succeed, [GetVirtualObjects] builds whenever
    it can: with [op], the hierarchy help, the document and a child there,
    something dirty, parameters within the ranges of their types with a
    row count that is not negative and a base count of at least 1, a child that is no render instance with an empty link, a
    path spline (if any) whose length data can be initialised, and a
    generator left by earlier calls whose stored parameters are the given
    ones or are told apart from them, the call returns a parent it has
    just built. *)
Theorem GetVirtualObjects_builds :
  forall {sdk : Sdk} (this : StackObject) (op : Hierarchy) (child : BaseObject)
         (template : ObjPtr),
    Reachable (_stackGenerator this) -> params_typed (op_params op) ->
    1 <= _baseCount (op_params op) ->
    stored_fits (op_params op) (_stackGenerator this) ->
    (forall basePath d, _basePath (op_params op) = Some basePath ->
                        fst (SplineLengthData_Init d basePath) = true) ->
    op_GetDocument op = true -> op_GetDown op = Some child ->
    objectToClone_of child = Some template ->
    op_CheckCache op || op_IsDirty op || op_IsDirtyChildren op
    || negb (ObjPtr_eqb (STACK_BASE_PATH (op_GetDataInstance op))
                        (_lastPathSpline this))
    || negb (op_CompareDependenceList op) = true ->
    exists result,
      fst (GetVirtualObjects this (Some op) true) = Built result
      /\ _params (_stackGenerator (snd (GetVirtualObjects this (Some op) true)))
         = op_params op.
Proof.
  intros sdk this op child template Hreach Hp Hb Hfit Hspline Hdoc Hdown
    Htemplate Hdirty.
  unfold GetVirtualObjects. cbn [negb]. rewrite Hdoc, Hdown. cbn [negb].
  cbv zeta. rewrite Hdirty. cbn [negb].
  destruct (InitStack_shape (op_params op) (_stackGenerator this)
              (Reachable_inv _ Hreach) Hp Hb ltac:(apply Hp)) as (Hok & Hflag & _).
  destruct (InitStack_stores _ _ Hfit Hok) as [Hstored _].
  destruct (InitStack (op_params op) (_stackGenerator this)) as [ok1 g1].
  cbn [fst snd] in *. subst ok1. cbn [negb].
  destruct (GenerateStack_keeps g1) as (Hkp & _ & _).
  assert (Hgen : fst (GenerateStack g1) = true).
  { unfold GenerateStack. rewrite Hflag. cbn [negb]. unfold prepare.
    rewrite Hstored.
    destruct (_basePath (op_params op)) as [basePath|] eqn:Hpath.
    - match goal with
      | |- context [SplineLengthData_Init ?d basePath] =>
          pose proof (Hspline basePath d eq_refl) as Hinit;
          destruct (SplineLengthData_Init d basePath) as [ok d']
      end.
      cbn [fst] in Hinit. subst ok. cbn [negb]. unfold run_loops.
      destruct (generate_rows _ _ _ _ _). reflexivity.
    - unfold run_loops. destruct (generate_rows _ _ _ _ _). reflexivity. }
  destruct (GenerateStack g1) as [ok2 g2]. cbn [fst snd] in *. subst ok2.
  cbn [negb]. unfold BuildStackGeometry. rewrite Htemplate.
  eexists. split; [reflexivity|]. cbn [snd _stackGenerator]. congruence.
Qed.

Lemma GetVirtualObjects_builds_witness :
  exists result,
    fst (GetVirtualObjects StackObject_new (Some PluginExample.scene) true)
    = Built result
    /\ _params (_stackGenerator
                  (snd (GetVirtualObjects StackObject_new (Some PluginExample.scene) true)))
       = op_params PluginExample.scene.
Proof.
  refine (@GetVirtualObjects_builds Example.sdk StackObject_new PluginExample.scene
            Example.child 7%nat _ _ _ _ _ _ _ _ _).
  - apply reach_new.
  - unfold params_typed, Int32.in_range, UInt32.in_range,
      Int32.min_signed, Int32.max_signed; cbn; lia.
  - cbn; lia.
  - left. reflexivity.
  - intros basePath d H. discriminate H.
  - reflexivity.
  - reflexivity.
  - reflexivity.
  - reflexivity.
Defined.

(* ================================================================= *)
(** * The members [GenerateStack] reads *)

Section Reads.

Context {sdk : Sdk}.

(** The loop body reads four members of the parameters. *)
Lemma generate_item_reads : forall p p' pl r i rnd,
  _randomRot p = _randomRot p' -> _rowHeight p = _rowHeight p' ->
  _randomOffX p = _randomOffX p' -> _randomOffZ p = _randomOffZ p' ->
  generate_item p pl r i rnd = generate_item p' pl r i rnd.
Proof.
  intros p p' pl r i rnd Hrot Hh Hx Hz. unfold generate_item.
  rewrite Hrot, Hh, Hx, Hz. reflexivity.
Qed.

Lemma generate_rows_reads : forall p p' pl,
  _randomRot p = _randomRot p' -> _rowHeight p = _rowHeight p' ->
  _randomOffX p = _randomOffX p' -> _randomOffZ p = _randomOffZ p' ->
  forall rows k rnd,
    generate_rows p pl rows k rnd = generate_rows p' pl rows k rnd.
Proof.
  intros p p' pl Hrot Hh Hx Hz.
  assert (Hitems : forall r row i rnd,
            generate_items p pl r row i rnd = generate_items p' pl r row i rnd).
  { intros r. induction row as [|m row IH]; intros i rnd; [reflexivity|].
    cbn [generate_items].
    rewrite (generate_item_reads p p' pl r i rnd Hrot Hh Hx Hz).
    destruct (generate_item p' pl r i rnd) as [mg rnd1]. now rewrite IH. }
  induction rows as [|row rows IH]; intros k rnd; [reflexivity|].
  cbn [generate_rows]. rewrite Hitems.
  destruct (generate_items p' pl k row 0 rnd) as [row' rnd1]. now rewrite IH.
Qed.

End Reads.

(** X20. Of the stored parameters [GenerateStack] reads the path spline,
    the base count, the row height, the random rotation and the two
    random offsets, and the base length only when there is no path
    spline.  Two generators that agree in these, in the grid, the random
    number generator, the flag and the length data succeed or fail alike
    and leave the same grid, random number generator and length data: on
    a path spline the base length plays no part, and the row count, the
    seed and the random position never do. *)
Theorem GenerateStack_reads :
  forall {sdk : Sdk} (g g' : CanStackGenerator),
    _array g = _array g' -> _random g = _random g' ->
    _initialized g = _initialized g' ->
    _splineLengthData g = _splineLengthData g' ->
    _basePath (_params g) = _basePath (_params g') ->
    _baseCount (_params g) = _baseCount (_params g') ->
    _rowHeight (_params g) = _rowHeight (_params g') ->
    _randomRot (_params g) = _randomRot (_params g') ->
    _randomOffX (_params g) = _randomOffX (_params g') ->
    _randomOffZ (_params g) = _randomOffZ (_params g') ->
    (_basePath (_params g) = None ->
     _baseLength (_params g) = _baseLength (_params g')) ->
    fst (GenerateStack g) = fst (GenerateStack g')
    /\ _array (snd (GenerateStack g)) = _array (snd (GenerateStack g'))
    /\ _random (snd (GenerateStack g)) = _random (snd (GenerateStack g'))
    /\ _splineLengthData (snd (GenerateStack g))
       = _splineLengthData (snd (GenerateStack g')).
Proof.
  intros sdk [d a p r i] [d' a' p' r' i']. cbn.
  intros <- <- <- <- Hpath Hb Hh Hrot Hx Hz Hlen.
  unfold GenerateStack. cbn [_initialized].
  destruct i; cbn [negb]; [|repeat split; reflexivity].
  unfold prepare. cbn [_params _splineLengthData]. rewrite <- Hpath.
  destruct (_basePath p) as [basePath|].
  - destruct (SplineLengthData_Init _ basePath) as [ok dd].
    destruct ok; cbn [negb]; [|repeat split; reflexivity].
    unfold run_loops, set_splineLengthData.
    cbn [_params _array _random _splineLengthData _initialized].
    rewrite <- Hb.
    rewrite (generate_rows_reads p p' _ Hrot Hh Hx Hz).
    destruct (generate_rows _ _ _ _ _) as [arr rnd]. repeat split; reflexivity.
  - unfold run_loops. cbn [_params _array _random]. rewrite <- Hb, <- (Hlen eq_refl).
    rewrite (generate_rows_reads p p' _ Hrot Hh Hx Hz).
    destruct (generate_rows _ _ _ _ _) as [arr rnd]. repeat split; reflexivity.
Qed.

Lemma GenerateStack_reads_witness :
  fst (GenerateStack Example.configured_path)
  = fst (GenerateStack Example.configured_path_long)
  /\ _array (snd (GenerateStack Example.configured_path))
     = _array (snd (GenerateStack Example.configured_path_long))
  /\ _random (snd (GenerateStack Example.configured_path))
     = _random (snd (GenerateStack Example.configured_path_long))
  /\ _splineLengthData (snd (GenerateStack Example.configured_path))
     = _splineLengthData (snd (GenerateStack Example.configured_path_long)).
Proof.
  apply (@GenerateStack_reads Example.sdk Example.configured_path
           Example.configured_path_long); try reflexivity.
  intros H. discriminate H.
Defined.

(** X21. Without a path spline the row height moves the items up and down
    and does nothing else: two generators that differ in the stored row
    height alone (and in members that [GenerateStack] does not read)
    succeed or fail alike, draw alike, and leave layouts whose items agree
    in their axes and in the x and z components of their positions. *)
Theorem GenerateStack_rowHeight_vertical :
  forall {sdk : Sdk} (g g' : CanStackGenerator),
    _basePath (_params g) = None ->
    _array g = _array g' -> _random g = _random g' ->
    _initialized g = _initialized g' ->
    _basePath (_params g') = None ->
    _baseCount (_params g) = _baseCount (_params g') ->
    _baseLength (_params g) = _baseLength (_params g') ->
    _randomRot (_params g) = _randomRot (_params g') ->
    _randomOffX (_params g) = _randomOffX (_params g') ->
    _randomOffZ (_params g) = _randomOffZ (_params g') ->
    let flat := fun m : Matrix => (v1 m, v2 m, v3 m, x (off m), z (off m)) in
    fst (GenerateStack g) = fst (GenerateStack g')
    /\ map (map flat) (_array (snd (GenerateStack g)))
       = map (map flat) (_array (snd (GenerateStack g')))
    /\ _random (snd (GenerateStack g)) = _random (snd (GenerateStack g')).
Proof.
  intros sdk [d a p r i] [d' a' p' r' i']. cbn.
  intros Hpath <- <- <- Hpath' Hb Hlen Hrot Hx Hz.
  unfold GenerateStack. cbn [_initialized].
  destruct i; cbn [negb]; [|repeat split; reflexivity].
  unfold prepare. cbn [_params _splineLengthData]. rewrite Hpath, Hpath'.
  unfold run_loops. cbn [_params _array _random]. rewrite <- Hb, <- Hlen.
  set (pl := Straight (Float.div (_baseLength p) (Float.of_int (_baseCount p)))).
  set (flat := fun m : Matrix => (v1 m, v2 m, v3 m, x (off m), z (off m))).
  assert (Hitem : forall k j rnd,
            flat (fst (generate_item p pl k j rnd))
            = flat (fst (generate_item p' pl k j rnd))
            /\ snd (generate_item p pl k j rnd) = snd (generate_item p' pl k j rnd)).
  { intros k j rnd. unfold generate_item, pl. rewrite Hrot, Hx, Hz.
    destruct (Random_Get11 rnd) as [r0 rnd0].
    destruct (Random_Get11 rnd0) as [r1 rnd1].
    destruct (Random_Get11 rnd1) as [r2 rnd2]. split; reflexivity. }
  assert (Hitems : forall k row j rnd,
            map flat (fst (generate_items p pl k row j rnd))
            = map flat (fst (generate_items p' pl k row j rnd))
            /\ snd (generate_items p pl k row j rnd)
               = snd (generate_items p' pl k row j rnd)).
  { intros k. induction row as [|m row IH]; intros j rnd; [split; reflexivity|].
    cbn [generate_items]. destruct (Hitem k j rnd) as [Hf Hs].
    destruct (generate_item p pl k j rnd) as [mg rnd1].
    destruct (generate_item p' pl k j rnd) as [mg' rnd1'].
    cbn [fst snd] in Hf, Hs. subst rnd1'.
    destruct (IH (Int32.succ j) rnd1) as [Hf2 Hs2].
    destruct (generate_items p pl k row (Int32.succ j) rnd1) as [rest rnd2].
    destruct (generate_items p' pl k row (Int32.succ j) rnd1) as [rest' rnd2'].
    cbn [fst snd map] in *. now rewrite Hf, Hf2, Hs2. }
  assert (Hrows : forall rows k rnd,
            map (map flat) (fst (generate_rows p pl rows k rnd))
            = map (map flat) (fst (generate_rows p' pl rows k rnd))
            /\ snd (generate_rows p pl rows k rnd)
               = snd (generate_rows p' pl rows k rnd)).
  { induction rows as [|row rows IH]; intros k rnd; [split; reflexivity|].
    cbn [generate_rows]. destruct (Hitems k row 0 rnd) as [Hf Hs].
    destruct (generate_items p pl k row 0 rnd) as [row1 rnd1].
    destruct (generate_items p' pl k row 0 rnd) as [row1' rnd1'].
    cbn [fst snd] in Hf, Hs. subst rnd1'.
    destruct (IH (Int32.succ k) rnd1) as [Hf2 Hs2].
    destruct (generate_rows p pl rows (Int32.succ k) rnd1) as [rest rnd2].
    destruct (generate_rows p' pl rows (Int32.succ k) rnd1) as [rest' rnd2'].
    cbn [fst snd map] in *. now rewrite Hf, Hf2, Hs2. }
  destruct (Hrows a 0 r) as [Hf Hs].
  destruct (generate_rows p pl a 0 r) as [arr rnd].
  destruct (generate_rows p' pl a 0 r) as [arr' rnd'].
  cbn [fst snd _array _random set_array set_random] in *. auto.
Qed.

Lemma GenerateStack_rowHeight_vertical_witness :
  let flat := fun m : Matrix => (v1 m, v2 m, v3 m, x (off m), z (off m)) in
  fst (GenerateStack Example.configured) = fst (GenerateStack Example.configured_tall)
  /\ map (map flat) (_array (snd (GenerateStack Example.configured)))
     = map (map flat) (_array (snd (GenerateStack Example.configured_tall)))
  /\ _random (snd (GenerateStack Example.configured))
     = _random (snd (GenerateStack Example.configured_tall)).
Proof.
  apply (@GenerateStack_rowHeight_vertical Example.sdk Example.configured
           Example.configured_tall); reflexivity.
Defined.

(* ================================================================= *)
(** * Division and the distances of a straight stack *)

(** The quotient of two floats in the normal range, within the relative
    error [2 ^ -53] on both sides. *)
Lemma SFdiv_normal_bounds : forall lo1 hi1 lo2 hi2 x y,
  normal_pos lo1 hi1 x -> normal_pos lo2 hi2 y ->
  -1074 <= lo1 - hi2 - 53 -> hi1 - lo2 - 51 <= 971 ->
  normal_pos (lo1 - hi2 - 53) (hi1 - lo2 - 51) (SFdiv 53 1024 x y)
  /\ (value x * (1 - bpow (-53)) <= value (SFdiv 53 1024 x y) * value y)%Q
  /\ (value (SFdiv 53 1024 x y) * value y <= value x * (1 + bpow (-53)))%Q.
Proof.
  intros lo1 hi1 lo2 hi2 x y Hx Hy Hlo Hhi.
  destruct (normal_pos_value _ _ _ Hx) as (mx & ex & -> & Hmx & Hex & Hvx & Hxpos).
  destruct (normal_pos_value _ _ _ Hy) as (my & ey & -> & Hmy & Hey & Hvy & Hypos).
  cbn [SFdiv xorb]. unfold SFdiv_core_binary.
  rewrite (Zdigits2_spec mx 53), (Zdigits2_spec my 53) by lia.
  assert (He' : Z.min (fexp 53 1024 (53 + ex - (53 + ey))) (ex - ey) = ex - ey - 53)
    by (unfold fexp, SpecFloat.emin; lia).
  rewrite He'.
  replace (ex - ey - (ex - ey - 53)) with 53 by lia.
  cbv iota. rewrite Z.shiftl_mul_pow2 by lia.
  set (A := Zpos mx * 2 ^ 53). set (D := Zpos my) in *.
  assert (Hdiv : Z.div_eucl A D = (A / D, A mod D)).
  { unfold Z.div, Z.modulo. destruct (Z.div_eucl A D). reflexivity. }
  rewrite Hdiv, new_location_spec by (unfold D; lia).
  assert (HA0 : 0 < A) by (unfold A; lia).
  assert (HD0 : 0 < D) by (unfold D; lia).
  assert (Hq : 2 ^ 52 <= A / D < 2 ^ 54).
  { split.
    - apply Z.div_le_lower_bound; [lia|]. unfold A, D.
      change (2 ^ 53) with (2 * 2 ^ 52) in *. nia.
    - apply Z.div_lt_upper_bound; [lia|]. unfold A, D.
      change (2 ^ 54) with (2 * 2 ^ 53). change (2 ^ 53) with (2 * 2 ^ 52) in *. nia. }
  destruct (Zdigits2_range (A / D) 52 54 ltac:(lia) Hq) as [Hk1 Hk2].
  pose proof (round_Q A D (ex - ey - 53) HD0 HA0) as HR. cbv zeta in HR.
  set (k := Zdigits2 (A / D)) in *.
  destruct HR as (Hn & Hup & Hlow & _); try lia.
  set (d := binary_round_aux 53 1024 false (A / D) (ex - ey - 53)
              (loc_spec D (A mod D))) in *.
  clearbody d.
  set (X := (inject_Z A / inject_Z D * bpow (ex - ey - 53))%Q) in *.
  assert (HDq : (0 < inject_Z D)%Q) by (rewrite <- (Zlt_Qlt 0); exact HD0).
  assert (HXy : (X * value (S754_finite false my ey)
                 == value (S754_finite false mx ex))%Q).
  { rewrite Hvy, Hvx. unfold X. fold D.
    assert (E : (inject_Z A * (bpow (ex - ey - 53) * bpow ey)
                 == inject_Z (Zpos mx) * bpow ex)%Q).
    { unfold A. rewrite inject_Z_mult, (bpow_Z 53) by lia.
      rewrite <- bpow_add.
      transitivity (inject_Z (Zpos mx) * (bpow 53 * bpow (ex - ey - 53 + ey)))%Q;
        [ring|].
      rewrite <- bpow_add. replace (53 + (ex - ey - 53 + ey)) with ex by lia.
      reflexivity. }
    transitivity (inject_Z A * (bpow (ex - ey - 53) * bpow ey))%Q; [|exact E].
    field. lra. }
  set (vy := value (S754_finite false my ey)) in *.
  set (vx := value (S754_finite false mx ex)) in *.
  pose proof bpow_m53 as Heps. rewrite Heps in *.
  assert (P1 : (0 <= (value d - X * (1 - (1 # 9007199254740992))) * vy)%Q)
    by (apply Qmult_le_0_compat; lra).
  assert (P2 : (0 <= (X * (1 + (1 # 9007199254740992)) - value d) * vy)%Q)
    by (apply Qmult_le_0_compat; lra).
  split; [|split].
  - eapply normal_pos_weaken; [exact Hn | lia | lia].
  - lra.
  - lra.
Qed.

(** The product of a float that is zero or in the normal range and a float
    in the normal range. *)
Lemma SFmul_zero_or_normal : forall lo1 hi1 lo2 hi2 x y,
  zero_or_normal lo1 hi1 x -> normal_pos lo2 hi2 y ->
  -1074 <= lo1 + lo2 + 52 -> hi1 + hi2 + 54 <= 971 ->
  zero_or_normal (lo1 + lo2 + 52) (hi1 + hi2 + 54) (SFmul 53 1024 x y)
  /\ (value x * value y * (1 - bpow (-53)) <= value (SFmul 53 1024 x y))%Q
  /\ (value (SFmul 53 1024 x y) <= value x * value y * (1 + bpow (-53)))%Q.
Proof.
  intros lo1 hi1 lo2 hi2 x y [-> | Hx] Hy Hlo Hhi.
  - destruct Hy as (m & e & -> & _). cbn [SFmul xorb].
    change (value (S754_zero false)) with 0%Q.
    split; [left; reflexivity|]. split; lra.
  - destruct (SFmul_normal_bounds _ _ _ _ x y Hx Hy Hlo Hhi) as (Hn & Hl & Hu).
    split; [right; exact Hn | split; assumption].
Qed.

(** Adding a zero of either sign changes nothing. *)
Lemma SFadd_zero_r : forall lo hi s o,
  zero_or_normal lo hi s -> Float.is_zero o = true -> SFadd 53 1024 s o = s.
Proof.
  intros lo hi s o Hs Ho. destruct o as [so| | |]; try discriminate.
  destruct Hs as [-> | (m & e & -> & _)]; [destruct so|]; reflexivity.
Qed.

(** ** The places of a straight stack, as numbers

    With [b] items in the base row of length [L] and [d] the float
    [L / b], the distance of place [i] of row [r] along the stack is zero
    or in the normal range, and its value is the number [d * i + d * r / 2]
    up to the roundings. *)
Lemma straight_value : forall L b r i,
  normal_pos (-900) 900 L ->
  1 <= b < 2 ^ 31 -> 0 <= r < 2 ^ 31 -> 0 <= i < 2 ^ 31 ->
  let d := Float.div L (Float.of_int b) in
  let s := Float.add (Float.mul d (Float.of_int i))
                     (Float.mul (Float.mul d (Float.of_int r)) Float.half) in
  let eps := (1 # 9007199254740992)%Q in
  normal_pos (-954) 901 d
  /\ (value L * (1 - eps) <= value d * inject_Z b)%Q
  /\ (value d * inject_Z b <= value L * (1 + eps))%Q
  /\ zero_or_normal (-955) 959 s
  /\ (value d * inject_Z i * ((1 - eps) * (1 - eps))
      + value d * inject_Z r * ((1 # 2) * ((1 - eps) * (1 - eps) * (1 - eps)))
      <= value s)%Q
  /\ (value s
      <= value d * inject_Z i * ((1 + eps) * (1 + eps))
         + value d * inject_Z r * ((1 # 2) * ((1 + eps) * (1 + eps) * (1 + eps))))%Q.
Proof.
  intros L b r i HL Hb Hr Hi d s eps. subst eps.
  unfold Float.add, Float.mul, Float.div, Float.prec, Float.emax in *.
  assert (H231 : 2 ^ 31 < 2 ^ 53) by reflexivity.
  destruct (of_int_normal b ltac:(lia)) as [Hyb Hvb].
  destruct (SFdiv_normal_bounds _ _ _ _ L (Float.of_int b) HL Hyb ltac:(lia) ltac:(lia))
    as (Hd & Hdb_lo & Hdb_up).
  fold d in Hd, Hdb_lo, Hdb_up. rewrite Hvb in Hdb_lo, Hdb_up.
  replace (-900 - 1 - 53) with (-954) in Hd by lia.
  replace (900 - -52 - 51) with 901 in Hd by lia.
  destruct half_normal as [Hhalf Hvhalf].
  destruct (SFmul_of_int_bounds _ _ d i Hd ltac:(lia) ltac:(lia) ltac:(lia))
    as (Ht1 & Ht1_lo & Ht1_up).
  destruct (SFmul_of_int_bounds _ _ d r Hd ltac:(lia) ltac:(lia) ltac:(lia))
    as (Ha & Ha_lo & Ha_up).
  set (t1 := SFmul 53 1024 d (Float.of_int i)) in *.
  set (a := SFmul 53 1024 d (Float.of_int r)) in *.
  destruct (SFmul_zero_or_normal _ _ _ _ a Float.half Ha Hhalf ltac:(lia) ltac:(lia))
    as (Ht2 & Ht2_lo & Ht2_up).
  rewrite Hvhalf in Ht2_lo, Ht2_up.
  set (t2 := SFmul 53 1024 a Float.half) in *.
  destruct (SFadd_zero_or_normal _ _ _ _ t1 t2 Ht1 Ht2 ltac:(lia) ltac:(lia))
    as (Hs & Hs_lo & Hs_up).
  fold s in Hs, Hs_lo, Hs_up.
  pose proof bpow_m53 as Heps. rewrite Heps in *.
  destruct (normal_pos_value _ _ _ Hd) as (_ & _ & _ & _ & _ & _ & Hdpos).
  pose proof (zero_or_normal_value _ _ _ Ha) as Hapos.
  set (dq := value d) in *. set (aq := value a) in *.
  set (iq := inject_Z i) in *. set (rq := inject_Z r) in *.
  assert (Hiq : (0 <= iq)%Q)
    by (unfold iq; change 0%Q with (inject_Z 0); rewrite <- Zle_Qle; lia).
  assert (Hrq : (0 <= rq)%Q)
    by (unfold rq; change 0%Q with (inject_Z 0); rewrite <- Zle_Qle; lia).
  split; [exact Hd|]. split; [exact Hdb_lo|]. split; [exact Hdb_up|].
  split.
  { destruct Hs as [Hs | Hs]; [left; exact Hs | right].
    eapply normal_pos_weaken; [exact Hs | lia | lia]. }
  set (T1 := value t1) in *. set (T2 := value t2) in *. set (S := value s) in *.
  assert (P3 : (0 <= dq * iq)%Q) by (apply Qmult_le_0_compat; lra).
  assert (P4 : (0 <= dq * rq)%Q) by (apply Qmult_le_0_compat; lra).
  split; lra.
Qed.

(** The order of neighbouring places of a straight stack, and the length
    that all places stay below. *)
Lemma straight_order : forall L b r i,
  normal_pos (-900) 900 L ->
  1 <= b < 2 ^ 31 -> 0 <= r -> 0 <= i ->
  let d := Float.div L (Float.of_int b) in
  let s := fun r' i' =>
    Float.add (Float.mul d (Float.of_int i'))
              (Float.mul (Float.mul d (Float.of_int r')) Float.half) in
  (i + r + 1 <= b -> SFleb Float.zero (s r i) = true /\ SFltb (s r i) L = true)
  /\ (i + r + 2 <= b ->
      SFltb (s r i) (s r (i + 1)) = true
      /\ SFltb (s r i) (s (r + 1) i) = true
      /\ SFltb (s (r + 1) i) (s r (i + 1)) = true).
Proof.
  intros L b r i HL Hb Hr Hi d s. subst s. cbv beta.
  destruct (normal_pos_value _ _ _ HL) as (_ & _ & _ & _ & _ & _ & HLpos).
  assert (Hcommon : forall r' i', 0 <= r' < 2 ^ 31 -> 0 <= i' < 2 ^ 31 ->
            _ ) by (intros r' i' Hr' Hi'; exact (straight_value L b r' i' HL Hb Hr' Hi')).
  cbv zeta in Hcommon. fold d in Hcommon.
  split.
  - intros Hin.
    destruct (Hcommon r i ltac:(lia) ltac:(lia))
      as (Hd & Hdb_lo & Hdb_up & Hs & Hlo & Hup).
    destruct (normal_pos_value _ _ _ Hd) as (_ & _ & _ & _ & _ & _ & Hdpos).
    split.
    + eapply (SFleb_zero_or_normal 0 0); [left; reflexivity | exact Hs |].
      change (value Float.zero) with 0%Q.
      exact (zero_or_normal_value _ _ _ Hs).
    + eapply SFltb_zero_or_normal; [exact Hs | right; exact HL |].
      set (dq := value d) in *. set (iq := inject_Z i) in *.
      set (rq := inject_Z r) in *. set (bq := inject_Z b) in *.
      set (Lq := value L) in *.
      assert (Hiq : (0 <= iq)%Q)
        by (unfold iq; change 0%Q with (inject_Z 0); rewrite <- Zle_Qle; lia).
      assert (Hrq : (0 <= rq)%Q)
        by (unfold rq; change 0%Q with (inject_Z 0); rewrite <- Zle_Qle; lia).
      assert (Hb31 : (bq <= 2147483648)%Q)
        by (unfold bq; change 2147483648%Q with (inject_Z (2 ^ 31));
            rewrite <- Zle_Qle; lia).
      assert (Hsum : (iq + rq + 1 <= bq)%Q).
      { unfold iq, rq, bq. change 1%Q with (inject_Z 1).
        rewrite <- !inject_Z_plus, <- Zle_Qle. lia. }
      assert (P1 : (0 <= dq * iq)%Q) by (apply Qmult_le_0_compat; lra).
      assert (P2 : (0 <= dq * rq)%Q) by (apply Qmult_le_0_compat; lra).
      assert (P3 : (0 <= dq * (bq - 1 - iq - rq))%Q) by (apply Qmult_le_0_compat; lra).
      assert (P4 : (0 <= dq * (2147483648 - bq))%Q) by (apply Qmult_le_0_compat; lra).
      lra.
  - intros Hin.
    destruct (Hcommon r i ltac:(lia) ltac:(lia))
      as (Hd & Hdb_lo & Hdb_up & Hs00 & Hlo00 & Hup00).
    destruct (Hcommon r (i + 1) ltac:(lia) ltac:(lia))
      as (_ & _ & _ & Hs01 & Hlo01 & Hup01).
    destruct (Hcommon (r + 1) i ltac:(lia) ltac:(lia))
      as (_ & _ & _ & Hs10 & Hlo10 & Hup10).
    destruct (normal_pos_value _ _ _ Hd) as (_ & _ & _ & _ & _ & _ & Hdpos).
    rewrite inject_Z_plus in Hlo01, Hup01, Hlo10, Hup10.
    change (inject_Z 1) with 1%Q in *.
    set (dq := value d) in *. set (iq := inject_Z i) in *.
    set (rq := inject_Z r) in *.
    assert (Hiq : (0 <= iq)%Q)
      by (unfold iq; change 0%Q with (inject_Z 0); rewrite <- Zle_Qle; lia).
    assert (Hrq : (0 <= rq)%Q)
      by (unfold rq; change 0%Q with (inject_Z 0); rewrite <- Zle_Qle; lia).
    assert (Hi31 : (iq <= 2147483648)%Q)
      by (unfold iq; change 2147483648%Q with (inject_Z (2 ^ 31));
          rewrite <- Zle_Qle; lia).
    assert (Hr31 : (rq <= 2147483648)%Q)
      by (unfold rq; change 2147483648%Q with (inject_Z (2 ^ 31));
          rewrite <- Zle_Qle; lia).
    assert (P1 : (0 <= dq * iq)%Q) by (apply Qmult_le_0_compat; lra).
    assert (P2 : (0 <= dq * rq)%Q) by (apply Qmult_le_0_compat; lra).
    assert (P3 : (0 <= dq * (2147483648 - iq))%Q) by (apply Qmult_le_0_compat; lra).
    assert (P4 : (0 <= dq * (2147483648 - rq))%Q) by (apply Qmult_le_0_compat; lra).
    split; [|split]; eapply SFltb_zero_or_normal; try eassumption; lra.
Qed.

(* ================================================================= *)
(** * The places of a straight stack *)

Section StraightPlaces.

Context {sdk : Sdk}.

(** Without a random offset along the stack, the z component of the item
    of row [r], place [i] is the float [d * i + d * r * 0.5] itself, [d]
    being the distance between two items. *)
Lemma straight_cell_z : forall g g' r i m,
  Reachable g -> Get11_in_range ->
  _basePath (_params g) = None ->
  Float.is_zero (_randomOffZ (_params g)) = true ->
  normal_pos (-900) 900 (_baseLength (_params g)) ->
  GenerateStack g = (true, g') ->
  cell (_array g') r i = Some m ->
  let d := Float.div (_baseLength (_params g)) (Float.of_int (_baseCount (_params g))) in
  z (off m)
  = Float.add (Float.mul d (Float.of_int (Z.of_nat i)))
              (Float.mul (Float.mul d (Float.of_int (Z.of_nat r))) Float.half)
  /\ Z.of_nat i + Z.of_nat r + 1 <= _baseCount (_params g)
  /\ 1 <= _baseCount (_params g) < 2 ^ 31.
Proof.
  intros g g' r i m Hreach Hrange Hpath HoffZ HL Hgen Hcell d.
  pose proof (reach_GenerateStack g Hreach) as Hreach'.
  destruct (GenerateStack_keeps g) as (Hkp & Hki & _).
  rewrite Hgen in Hreach', Hkp, Hki. cbn [snd] in Hreach', Hkp, Hki.
  assert (Hinit : _initialized g = true).
  { unfold GenerateStack in Hgen. destruct (_initialized g); [reflexivity|].
    discriminate. }
  assert (Hinit' : _initialized g' = true) by congruence.
  pose proof (cell_in_triangle g' r i m Hreach' Hinit' Hcell) as Htri.
  rewrite Hkp in Htri.
  destruct (Reachable_inv g Hreach) as ((Hbr & _) & _).
  unfold Int32.in_range, Int32.min_signed, Int32.max_signed in Hbr.
  change (2 ^ 31) with 2147483648 in *.
  split; [|split; [exact Htri | lia]].
  destruct (GenerateStack_place g g' Hreach Hgen) as (pl & Hpl & Hplace).
  apply Hplace in Hcell. clear Hplace.
  unfold prepare in Hpl. rewrite Hpath in Hpl. cbn [fst] in Hpl.
  injection Hpl as <-. fold d in Hcell. subst m.
  rewrite generate_item_straight. cbn [z].
  match goal with
  | |- context [Float.mul (fst (Random_Get11 ?s2)) (_randomOffZ _)] =>
      destruct (Hrange s2) as [Hlo2 Hhi2];
      pose proof (Float_mul_finite_zero _ _ (Float_in_range_finite _ Hlo2 Hhi2) HoffZ)
        as Hz
  end.
  destruct (straight_value (_baseLength (_params g)) (_baseCount (_params g))
              (Z.of_nat r) (Z.of_nat i) HL)
    as (_ & _ & _ & Hs & _); try (change (2 ^ 31) with 2147483648; lia).
  cbv zeta in Hs. fold d in Hs.
  unfold Float.add at 1. unfold Float.prec, Float.emax.
  exact (SFadd_zero_r _ _ _ _ Hs Hz).
Qed.

End StraightPlaces.

(** X22. A straight stack with a positive base length of at least
    [2 ^ -848] and below [2 ^ 953] (a full mantissa at an exponent between
    -900 and 900: far from overflow and underflow), draws between -1 and
    1, and no random offset along the stack keeps within its length and has the pattern of
    the bricks, roundings included: the z component of every item lies
    between 0 and the base length, below it; along a row it goes up from
    place to place; and the item of place [i] of the next row sits between
    the items of the places [i] and [i + 1] below it. *)
Theorem GenerateStack_straight_rows_ordered :
  forall {sdk : Sdk} (g g' : CanStackGenerator),
    Reachable g -> Get11_in_range ->
    _basePath (_params g) = None ->
    Float.is_zero (_randomOffZ (_params g)) = true ->
    normal_pos (-900) 900 (_baseLength (_params g)) ->
    GenerateStack g = (true, g') ->
    forall (r i : nat) (m : Matrix),
      cell (_array g') r i = Some m ->
      Float.leb Float.zero (z (off m)) = true
      /\ SFltb (z (off m)) (_baseLength (_params g)) = true
      /\ (forall m1, cell (_array g') r (S i) = Some m1 ->
                     SFltb (z (off m)) (z (off m1)) = true)
      /\ (forall m1 m2,
            cell (_array g') (S r) i = Some m1 ->
            cell (_array g') r (S i) = Some m2 ->
            SFltb (z (off m)) (z (off m1)) = true
            /\ SFltb (z (off m1)) (z (off m2)) = true).
Proof.
  intros sdk g g' Hreach Hrange Hpath HoffZ HL Hgen r i m Hcell.
  destruct (straight_cell_z g g' r i m Hreach Hrange Hpath HoffZ HL Hgen Hcell)
    as (Hz & Htri & Hb).
  cbv zeta in Hz.
  pose proof (straight_order (_baseLength (_params g)) (_baseCount (_params g))
                (Z.of_nat r) (Z.of_nat i) HL Hb ltac:(lia) ltac:(lia)) as Hord.
  cbv zeta beta in Hord. destruct Hord as [Hin Hnext].
  destruct (Hin Htri) as [H0 HltL].
  split; [rewrite Hz; exact H0|]. split; [rewrite Hz; exact HltL|].
  split.
  - intros m1 Hcell1.
    destruct (straight_cell_z g g' r (S i) m1 Hreach Hrange Hpath HoffZ HL Hgen Hcell1)
      as (Hz1 & Htri1 & _).
    cbv zeta in Hz1. rewrite Nat2Z.inj_succ in Hz1, Htri1. unfold Z.succ in Hz1, Htri1.
    destruct (Hnext ltac:(lia)) as (H01 & _). rewrite Hz, Hz1. exact H01.
  - intros m1 m2 Hcell1 Hcell2.
    destruct (straight_cell_z g g' (S r) i m1 Hreach Hrange Hpath HoffZ HL Hgen Hcell1)
      as (Hz1 & Htri1 & _).
    destruct (straight_cell_z g g' r (S i) m2 Hreach Hrange Hpath HoffZ HL Hgen Hcell2)
      as (Hz2 & _ & _).
    cbv zeta in Hz1, Hz2.
    rewrite Nat2Z.inj_succ in Hz1, Htri1, Hz2. unfold Z.succ in Hz1, Htri1, Hz2.
    destruct (Hnext ltac:(lia)) as (_ & H10 & H11).
    rewrite Hz, Hz1, Hz2. split; assumption.
Qed.

Lemma GenerateStack_straight_rows_ordered_witness :
  Float.leb Float.zero (z (off Example.item_1_1)) = true
  /\ SFltb (z (off Example.item_1_1)) (_baseLength (_params Example.configured)) = true
  /\ (forall m1, cell (_array Example.generated) 1 (S 1) = Some m1 ->
                 SFltb (z (off Example.item_1_1)) (z (off m1)) = true)
  /\ (forall m1 m2,
        cell (_array Example.generated) (S 1) 1 = Some m1 ->
        cell (_array Example.generated) 1 (S 1) = Some m2 ->
        SFltb (z (off Example.item_1_1)) (z (off m1)) = true
        /\ SFltb (z (off m1)) (z (off m2)) = true).
Proof.
  refine (@GenerateStack_straight_rows_ordered Example.sdk Example.configured
            Example.generated _ Example_Get11_in_range _ _ _ _
            1%nat 1%nat Example.item_1_1 _).
  - apply reach_InitStack; [apply reach_new|].
    unfold params_typed, Int32.in_range, UInt32.in_range,
      Int32.min_signed, Int32.max_signed; cbn; lia.
  - reflexivity.
  - reflexivity.
  - exists 8444249301319680%positive, (-48).
    split; [reflexivity|]. split; [|lia].
    change (2 ^ 52) with 4503599627370496. change (2 ^ 53) with 9007199254740992. lia.
  - reflexivity.
  - reflexivity.
Defined.
